(** * Calendar synchronisation service: a shallow embedding and its properties

    The development follows the TypeScript sources of the service:

    - [CalenderSyncController] (calendar.controller.ts): header validation,
      the local-only delete branch, the unified local feed, meeting logging;
    - [GoogleCalendarService] (google.service.ts) and [MicrosoftService]
      (microsoft.service.ts): time validation, create / update / delete of
      provider events with their local mirror, contact de-duplication.

    JavaScript values are modelled as follows.  An optional string
    ([string | undefined]) is an [option string]; its truthiness is
    [truthy].  A [Date] is the number of milliseconds since the epoch, or
    [None] for an Invalid Date.  Exceptions are values of [Exn]; effectful
    code runs in the monad [M], which threads a [World] (the two
    collections of the event store and the logs of every outbound call)
    and consults an [Env] for whatever the outside answers (the provider
    behind the transport client, the activity and task services, the
    clock, the random source).  Calls to [console] have no counterpart. *)

From Stdlib Require Import ZArith List String Ascii Bool Lia.
From Stdlib Require Import Sorting.Sorted Sorting.Permutation.
From Stdlib Require Import DecimalString DecimalZ.
Import ListNotations.

Local Open Scope string_scope.
Local Open Scope Z_scope.

Set Implicit Arguments.

(** ** JavaScript strings and truthiness *)

Module Js.

(** [!!s] for [s : string | undefined]. *)
Definition truthy (s : option string) : bool :=
  match s with
  | Some EmptyString => false
  | Some _ => true
  | None => false
  end.

(** [a || b] on optional strings. *)
Definition or_else (a b : option string) : option string :=
  if truthy a then a else b.

(** [a || 'literal']. *)
Definition or_default (a : option string) (d : string) : string :=
  match a with
  | Some s => if truthy a then s else d
  | None => d
  end.

Definition is_upper (c : ascii) : bool :=
  let n := nat_of_ascii c in (65 <=? n)%nat && (n <=? 90)%nat.

Definition lower_ascii (c : ascii) : ascii :=
  if is_upper c then ascii_of_nat (nat_of_ascii c + 32) else c.

(** [String.prototype.toLowerCase] of ASCII text: the letters A to Z are
    folded and every other byte is kept.  The platform folds the letters
    outside ASCII as well; a result that depends on it is stated for
    ASCII text. *)
Fixpoint toLowerCase (s : string) : string :=
  match s with
  | EmptyString => EmptyString
  | String c s' => String (lower_ascii c) (toLowerCase s')
  end.

Definition drop (n : nat) (s : string) : string :=
  substring n (String.length s - n) s.

(** [s.replace(pat, '')] for a string pattern: the first occurrence of
    [pat], if any, is removed. *)
Fixpoint remove_first (pat s : string) : string :=
  if prefix pat s then drop (String.length pat) s
  else match s with
       | EmptyString => EmptyString
       | String c s' => String c (remove_first pat s')
       end.

(** [s.includes(pat)]. *)
Fixpoint includes (pat s : string) : bool :=
  if prefix pat s then true
  else match s with
       | EmptyString => false
       | String _ s' => includes pat s'
       end.

(** White space of [String.prototype.trim].  Text is held as UTF-8, so a
    character of white space takes one to three bytes: the WhiteSpace and
    LineTerminator code points of ECMAScript are U+0009 to U+000D and
    U+0020 (one byte), U+00A0 (C2 A0), U+1680 (E1 9A 80), U+2000 to
    U+200A, U+2028, U+2029 and U+202F (E2 80 ..), U+205F (E2 81 9F),
    U+3000 (E3 80 80) and U+FEFF (EF BB BF).  [space_width s] is the
    number of bytes of the character of white space [s] starts with, [0]
    when it starts with none. *)
Definition space_width (s : string) : nat :=
  match s with
  | EmptyString => 0
  | String a s1 =>
      let n := nat_of_ascii a in
      if ((9 <=? n)%nat && (n <=? 13)%nat) || (n =? 32)%nat then 1
      else
        match s1 with
        | EmptyString => 0
        | String b s2 =>
            let m := nat_of_ascii b in
            if (n =? 194)%nat && (m =? 160)%nat then 2
            else
              match s2 with
              | EmptyString => 0
              | String c _ =>
                  let k := nat_of_ascii c in
                  if ((n =? 225)%nat && (m =? 154)%nat && (k =? 128)%nat)
                     || ((n =? 226)%nat && (m =? 128)%nat
                         && (((128 <=? k)%nat && (k <=? 138)%nat)
                             || (k =? 168)%nat || (k =? 169)%nat
                             || (k =? 175)%nat))
                     || ((n =? 226)%nat && (m =? 129)%nat && (k =? 159)%nat)
                     || ((n =? 227)%nat && (m =? 128)%nat && (k =? 128)%nat)
                     || ((n =? 239)%nat && (m =? 187)%nat && (k =? 191)%nat)
                  then 3
                  else 0
              end
        end
  end.

(** [String.prototype.trimStart]. *)
Fixpoint trim_start (s : string) : string :=
  match s with
  | EmptyString => EmptyString
  | String _ s1 =>
      match space_width s with
      | 1%nat => trim_start s1
      | 2%nat =>
          match s1 with
          | String _ s2 => trim_start s2
          | EmptyString => s
          end
      | 3%nat =>
          match s1 with
          | String _ (String _ s3) => trim_start s3
          | _ => s
          end
      | _ => s
      end
  end.

(** [String.prototype.trimEnd]: the text up to the point from which only
    white space follows. *)
Fixpoint trim_end (s : string) : string :=
  match s with
  | EmptyString => EmptyString
  | String a s1 =>
      if String.eqb (trim_start s) EmptyString then EmptyString
      else String a (trim_end s1)
  end.

Definition trim (s : string) : string := trim_end (trim_start s).

(** [Array.prototype.join]. *)
Definition join (sep : string) (l : list string) : string :=
  String.concat sep l.

End Js.

(** ** Exceptions *)

(** The NestJS exceptions the service throws, and [JsError] for every
    other thrown value ([Error], [TypeError], [RangeError], a storage
    error, an error of the transport client). *)
Inductive Exn : Type :=
| UnauthorizedException (msg : string)
| BadRequestException (msg : string)
| InternalServerErrorException (msg : string)
| JsError (msg : string).

(** [error instanceof Error ? error.message : String(error)]. *)
Definition error_message (e : Exn) : string :=
  match e with
  | UnauthorizedException m => m
  | BadRequestException m => m
  | InternalServerErrorException m => m
  | JsError m => m
  end.

(** [error instanceof HttpException]. *)
Definition isHttpException (e : Exn) : bool :=
  match e with
  | JsError _ => false
  | _ => true
  end.

(** The taxonomy of the specification: InvalidRequest is a
    [BadRequestException], Unauthorized an [UnauthorizedException]. *)
Definition isInvalidRequest (e : Exn) : bool :=
  match e with BadRequestException _ => true | _ => false end.

Definition isUnauthorized (e : Exn) : bool :=
  match e with UnauthorizedException _ => true | _ => false end.

(** A computation that may throw. *)
Definition Result (A : Type) : Type := (Exn + A)%type.

(** ** Sync gateway: provider tags and header validation *)

Inductive CalendarProvider : Type := GOOGLE | MICROSOFT.

Definition provider_tag (p : CalendarProvider) : string :=
  match p with
  | GOOGLE => "google"
  | MICROSOFT => "microsoft"
  end.

(** [Object.values(CalendarProvider)]. *)
Definition CalendarProvider_values : list CalendarProvider := [GOOGLE; MICROSOFT].

(** The member of the enum whose value is [s], if any:
    [Object.values(CalendarProvider).includes(s)] holds exactly when this
    is [Some _]. *)
Definition provider_of_tag (s : string) : option CalendarProvider :=
  find (fun p => String.eqb (provider_tag p) s) CalendarProvider_values.

Record ValidatedHeaders : Type := {
  vh_accessToken : string;
  vh_provider : CalendarProvider
}.


(** ** Dates *)

(** A [Date] holds a time value in milliseconds since the epoch, or is an
    Invalid Date ([None], whose [getTime()] is [NaN]). *)
Definition JsDate : Type := option Z.

Definition maxTime : Z := 8640000000000000.

Definition validTime (t : Z) : bool := Z.abs t <=? maxTime.

(** [new Date(n)] for a number [n]: ECMAScript's TimeClip. *)
Definition timeClip (t : Z) : JsDate :=
  if validTime t then Some t else None.

(** The date functions the service takes from the platform and from
    date-fns.  They are an interface here: every result below holds for any
    implementation that renders a valid time value to a text that
    [new Date] reads back, which ECMAScript guarantees for
    [Date.prototype.toISOString]. *)
Class DateLib : Type := {
  (** [new Date(s)] for a string [s]. *)
  Date_parse : string -> JsDate;
  (** date-fns [parseISO]. *)
  parseISO : string -> JsDate;
  (** [Date.prototype.toISOString] on a valid time value. *)
  toISOString : Z -> string;
  Date_parse_toISOString :
    forall t, validTime t = true -> Date_parse (toISOString t) = Some t
}.

(** date-fns [differenceInMinutes(end, start)]: the number of full
    minutes between the two dates, rounded towards zero. *)
Definition differenceInMinutes (e s : Z) : Z := Z.quot (e - s) 60000.

(** ** Data model *)

(** [MeetingLocationType] (types/meeting-location.type.ts).

    Modelled from the spec: the declaration of the enum is not among the
    sources; the adapters name its members [IN_PERSON], [GOOGLE_MEET] and
    [TEAMS], and the specification speaks of the location kinds
    "in-person / provider-native video / teams / other".  [OtherLocation]
    stands for every further member, by its tag. *)
Inductive MeetingLocationType : Type :=
| IN_PERSON
| GOOGLE_MEET
| TEAMS
| OtherLocation (tag : string).

Definition locationType_eqb (a b : MeetingLocationType) : bool :=
  match a, b with
  | IN_PERSON, IN_PERSON => true
  | GOOGLE_MEET, GOOGLE_MEET => true
  | TEAMS, TEAMS => true
  | OtherLocation x, OtherLocation y => String.eqb x y
  | _, _ => false
  end.

(** [CalendarEventAttendee] of the schema. *)
Record Attendee : Type := {
  at_email : string;
  at_name : option string;
  at_status : option string
}.

(** [responseRequired?: boolean | 'REQUIRED' | 'OPTIONAL'] *)
Inductive ResponseRequired : Type :=
| RRBool (b : bool)
| RRString (s : string).

(** [UpdateAttendeeDto]; the create request carries the same shape. *)
Record AttendeeDto : Type := {
  ad_email : string;
  ad_name : option string;
  ad_responseRequired : option ResponseRequired
}.

(** [attendee.responseRequired === true || attendee.responseRequired === 'REQUIRED'] *)
Definition responseIsRequired (a : AttendeeDto) : bool :=
  match ad_responseRequired a with
  | Some (RRBool true) => true
  | Some (RRString s) => String.eqb s "REQUIRED"
  | _ => false
  end.

(** [CreateEventDto], by the fields the adapters read. *)
Record CreateEventDto : Type := {
  ce_title : option string;
  ce_description : option string;
  ce_startTime : string;
  ce_endTime : string;
  ce_timeZone : option string;
  ce_isAllDay : option bool;
  ce_locationType : option MeetingLocationType;
  ce_locationDetails : option string;
  ce_attendees : option (list AttendeeDto);
  ce_organizer : option string;
  ce_leadId : option string;
  ce_outcome : option string
}.

(** [UpdateEventDto]: every field is optional. *)
Record UpdateEventDto : Type := {
  ue_title : option string;
  ue_leadId : option string;
  ue_description : option string;
  ue_startTime : option string;
  ue_endTime : option string;
  ue_timeZone : option string;
  ue_isAllDay : option bool;
  ue_locationType : option MeetingLocationType;
  ue_locationDetails : option string;
  ue_attendees : option (list AttendeeDto);
  ue_organizer : option string;
  ue_organizerName : option string;
  ue_outcome : option string
}.

(** A document of the [CalendarEvent] collection.  Times are valid time
    values: the store casts them to [Date] and refuses an Invalid Date. *)
Record CalendarEvent : Type := {
  ev_externalId : string;
  ev_provider : string;
  ev_userId : option string;
  ev_leadId : option string;
  ev_title : option string;
  ev_description : option string;
  ev_startTime : Z;
  ev_endTime : Z;
  ev_timeZone : option string;
  ev_isAllDay : bool;
  ev_locationType : option MeetingLocationType;
  ev_locationDetails : option string;
  ev_attendees : list Attendee;
  ev_organizer : option string;
  ev_organizerName : option string;
  ev_meetingLink : option string;
  ev_isOnlineMeeting : bool;
  ev_onlineMeetingProvider : option string;
  ev_isActive : bool;
  ev_outcome : option string
}.

(** [Partial<CalendarEvent>] as the adapters build it: [Some v] when the
    key is assigned, [None] when it is absent from the update. *)
Record CalendarEventPatch : Type := {
  pt_title : option (option string);
  pt_description : option (option string);
  pt_startTime : option JsDate;
  pt_endTime : option JsDate;
  pt_timeZone : option (option string);
  pt_isAllDay : option (option bool);
  pt_locationType : option MeetingLocationType;
  pt_locationDetails : option (option string);
  pt_leadId : option string;
  pt_attendees : option (list Attendee);
  pt_organizer : option (option string);
  pt_organizerName : option (option string);
  pt_meetingLink : option string;
  pt_isOnlineMeeting : option bool;
  pt_onlineMeetingProvider : option string;
  pt_outcome : option string;
  pt_isActive : option bool
}.

Definition emptyPatch : CalendarEventPatch :=
  {| pt_title := None; pt_description := None; pt_startTime := None;
     pt_endTime := None; pt_timeZone := None; pt_isAllDay := None;
     pt_locationType := None; pt_locationDetails := None; pt_leadId := None;
     pt_attendees := None; pt_organizer := None; pt_organizerName := None;
     pt_meetingLink := None; pt_isOnlineMeeting := None;
     pt_onlineMeetingProvider := None; pt_outcome := None;
     pt_isActive := None |}.

Inductive MeetingType : Type := VIRTUAL | MT_IN_PERSON | PHONE.

Inductive VirtualMeetingProvider : Type :=
| VMP_TEAMS | VMP_GOOGLE_MEET | VMP_ZOOM | VMP_OTHER.

Inductive MeetingOutcome : Type :=
| FOLLOW_UP_REQUIRED | NO_RESPONSE | NO_SHOW_UP | RESCHEDULED
| CANCELLED | SCHEDULED | COMPLETED | SUCCESSFUL.

Record Participant : Type := {
  pa_email : string;
  pa_name : option string;
  pa_isExternal : bool
}.

(** A document of the [LoggedMeeting] collection. *)
Record LoggedMeeting : Type := {
  lm_id : string;
  lm_title : string;
  lm_meetingType : MeetingType;
  lm_virtualMeetingProvider : option VirtualMeetingProvider;
  lm_meetingDateTime : Z;
  lm_duration : option Z;
  lm_summary : string;
  lm_outcome : MeetingOutcome;
  lm_participants : list Participant;
  lm_location : option string;
  lm_leadId : string;
  lm_loggedBy : string;
  lm_organizationId : string;
  lm_activityId : option string;
  lm_taskId : option string;
  lm_attachment : option string;
  lm_loggedAt : Z;
  lm_isActive : bool;
  lm_isLoggedMeeting : bool
}.

(** ** Provider wire schemas *)

(** [start] / [end] of a [GoogleCalendarEvent]. *)
Record GoogleTime : Type := {
  gt_dateTime : option string;
  gt_date : option string;
  gt_timeZone : option string
}.

Record GoogleAttendee : Type := {
  ga_email : string;
  ga_displayName : option string;
  ga_name : option string;
  ga_responseStatus : option string
}.

Record GoogleOrganizer : Type := {
  go_email : option string;
  go_displayName : option string;
  go_name : option string
}.

Record CreateRequest : Type := {
  cr_requestId : string;
  cr_conferenceSolutionKey : string
}.

Record ConferenceData : Type := {
  cd_createRequest : option CreateRequest;
  cd_entryPoints : list (string * string)
}.

Record GoogleCalendarEvent : Type := {
  ge_id : string;
  ge_summary : option string;
  ge_description : option string;
  ge_start : GoogleTime;
  ge_end : GoogleTime;
  ge_location : option string;
  ge_locationDetails : option string;
  ge_attendees : option (list GoogleAttendee);
  ge_organizer : option GoogleOrganizer;
  ge_hangoutLink : option string;
  ge_conferenceData : option ConferenceData;
  ge_isOnlineMeeting : option bool;
  ge_onlineMeetingProvider : option string;
  ge_outcome : option string;
  ge_leadId : option string
}.

(** The body of a Google create or patch request: the literal of
    [createEvent] and the [Partial<GoogleCalendarEvent>] of [updateEvent].
    A [None] field is absent from the JSON sent. *)
Record GoogleEventPayload : Type := {
  gp_summary : option string;
  gp_description : option string;
  gp_start : option GoogleTime;
  gp_end : option GoogleTime;
  gp_attendees : option (list GoogleAttendee);
  gp_location : option string;
  gp_conferenceData : option ConferenceData
}.

Record GoogleUserProfile : Type := {
  gu_name : option string;
  gu_email : option string;
  gu_given_name : option string;
  gu_family_name : option string
}.

(** [{ name?: string; email?: string }], the result of [getUserProfile]. *)
Record UserProfile : Type := {
  up_name : option string;
  up_email : option string
}.

Record GraphTime : Type := {
  mt_dateTime : string;
  mt_timeZone : option string
}.

Record GraphEmailAddress : Type := {
  ea_address : string;
  ea_name : option string
}.

Record GraphAttendee : Type := {
  gra_emailAddress : GraphEmailAddress;
  gra_status : option string;
  gra_type : option string
}.

(** [MicrosoftGraphEvent], without the recurrence the service never reads. *)
Record MicrosoftGraphEvent : Type := {
  me_id : string;
  me_subject : option string;
  me_body_content : option string;
  me_start : GraphTime;
  me_end : GraphTime;
  me_location_displayName : option string;
  me_attendees : option (list GraphAttendee);
  me_organizer : option GraphEmailAddress;
  me_isAllDay : option bool;
  me_isOnlineMeeting : option bool;
  me_onlineMeetingProvider : option string;
  me_joinUrl : option string
}.

(** The body of a Graph create or patch request. *)
Record GraphEventPayload : Type := {
  mp_subject : option string;
  mp_body : option (string * string);
  mp_start : option GraphTime;
  mp_end : option GraphTime;
  mp_attendees : option (list GraphAttendee);
  mp_isAllDay : option bool;
  mp_organizer : option (option string);
  mp_location : option string;
  mp_isOnlineMeeting : option bool;
  mp_onlineMeetingProvider : option string
}.

(** ** The transport client *)

Inductive HttpMethod : Type := GET | POST | PATCH | DELETE.

Inductive HttpBody : Type :=
| NoBody
| GoogleBody (p : GoogleEventPayload)
| GraphBody (p : GraphEventPayload).

(** One call of [httpService.request]: method, URL, bearer token, data. *)
Record HttpCall : Type := {
  hc_method : HttpMethod;
  hc_url : string;
  hc_token : string;
  hc_body : HttpBody
}.

(** [response.data], read at the type the caller asserts with [as T]. *)
Inductive HttpData : Type :=
| NoData
| GoogleEventData (e : GoogleCalendarEvent)
| GoogleProfileData (p : GoogleUserProfile)
| GraphEventData (e : MicrosoftGraphEvent).

(** [error.code] of a provider error body: a number for Google, a string
    for Microsoft Graph. *)
Inductive ErrorCode : Type :=
| CodeNumber (n : Z)
| CodeString (s : string)
| CodeAbsent.

Record ApiErrorBody : Type := {
  ae_code : ErrorCode;
  ae_message : option string
}.

(** What the transport client throws: [response.status],
    [response.statusText], [response.data.error], [code], [message]. *)
Record HttpError : Type := {
  he_status : option Z;
  he_statusText : option string;
  he_error : option ApiErrorBody;
  he_code : option string;
  he_message : option string
}.

(** ** Collaborators *)

Inductive ActivityType : Type :=
| TASK_CREATED | TASK_UPDATED | TASK_DELETED | TASK_STATUS_CHANGED
| LEAD_CREATED | LEAD_UPDATED | LEAD_DELETED
| CALENDAR_EVENT_CREATED | CALENDAR_EVENT_UPDATED | CALENDAR_EVENT_DELETED.

(** The payload of [logActivity]; of the metadata the model keeps the
    identifier of the event or meeting, the rest is carried along
    unchanged and read by nobody here. *)
Record ActivityPayload : Type := {
  ap_leadId : option string;
  ap_activityType : ActivityType;
  ap_description : string;
  ap_performedBy : string;
  ap_subjectId : option string
}.

Record TaskPayload : Type := {
  tp_title : string;
  tp_leadId : string;
  tp_dueDate : string;
  tp_priority : string;
  tp_description : option string;
  tp_organizationId : string
}.

(** Calls on the two Mongoose models. *)
Inductive DbCall : Type :=
| EventSave (externalId : string)
| EventFind
| EventFindOne (externalId : string)
| EventFindOneAndUpdate (externalId : string)
| EventDeleteOne (externalId : string)
| MeetingSave
| MeetingFind
| MeetingFindByIdAndUpdate (id : string)
| MeetingDeleteOne (id : string).

(** ** The world and the monad *)

(** What the outside answers.  Each answer may depend on the calls made so
    far, so that a provider may change its mind between two calls. *)
Record Env : Type := {
  (** the provider behind [httpService.request] *)
  transport : list HttpCall -> HttpCall -> HttpError + HttpData;
  (** the POST of [ActivityClientService.logActivity]: [None] when it
      fails, else the [_id] of the record returned *)
  activityPost : list ActivityPayload -> ActivityPayload -> option (option string);
  (** [TaskClientService.createTask]: the [id] of the task, or an error *)
  taskService : list TaskPayload -> TaskPayload -> Result (option string);
  (** successive readings of [new Date()] *)
  clock : nat -> Z;
  (** successive values of [Math.random().toString(36).substring(7)] *)
  random : nat -> string;
  (** the [_id] the store gives to the n-th document it creates *)
  objectId : nat -> string
}.

Record World : Type := {
  calendarEvents : list CalendarEvent;
  loggedMeetings : list LoggedMeeting;
  httpLog : list HttpCall;
  dbLog : list DbCall;
  activityLog : list ActivityPayload;
  taskLog : list TaskPayload;
  clockReads : nat;
  randomDraws : nat;
  created : nat
}.

Definition M (A : Type) : Type := Env -> World -> Result A * World.

Definition ret {A} (a : A) : M A := fun _ w => (inr a, w).

Definition throw {A} (e : Exn) : M A := fun _ w => (inl e, w).

Definition bind {A B} (c : M A) (k : A -> M B) : M B :=
  fun env w =>
    match c env w with
    | (inl e, w') => (inl e, w')
    | (inr a, w') => k a env w'
    end.

(** [try { c } catch (error) { handler error }] *)
Definition try_catch {A} (c : M A) (handler : Exn -> M A) : M A :=
  fun env w =>
    match c env w with
    | (inl e, w') => handler e env w'
    | (inr a, w') => (inr a, w')
    end.

(** A pure computation that may throw, run in [M]. *)
Definition lift {A} (r : Result A) : M A := fun _ w => (r, w).

Declare Scope m_scope.
Delimit Scope m_scope with M.
Notation "x <- c ;; k" := (bind c (fun x => k))
  (at level 61, c at next level, right associativity) : m_scope.
Notation "c ;; k" := (bind c (fun _ => k))
  (at level 61, right associativity) : m_scope.
Local Open Scope m_scope.

Definition when (b : bool) (c : M unit) : M unit :=
  if b then c else ret tt.

(** *** Primitive effects *)

(** [new Date()] *)
Definition now : M Z :=
  fun env w =>
    (inr (clock env (clockReads w)),
     {| calendarEvents := calendarEvents w; loggedMeetings := loggedMeetings w;
        httpLog := httpLog w; dbLog := dbLog w; activityLog := activityLog w;
        taskLog := taskLog w; clockReads := S (clockReads w);
        randomDraws := randomDraws w; created := created w |}).

(** [Math.random().toString(36).substring(7)] *)
Definition randomId : M string :=
  fun env w =>
    (inr (random env (randomDraws w)),
     {| calendarEvents := calendarEvents w; loggedMeetings := loggedMeetings w;
        httpLog := httpLog w; dbLog := dbLog w; activityLog := activityLog w;
        taskLog := taskLog w; clockReads := clockReads w;
        randomDraws := S (randomDraws w); created := created w |}).

(** [httpService.request(call)]: the call is recorded, the provider
    answers with data or with an error. *)
Definition request (call : HttpCall) : M (HttpError + HttpData) :=
  fun env w =>
    (inr (transport env (httpLog w) call),
     {| calendarEvents := calendarEvents w; loggedMeetings := loggedMeetings w;
        httpLog := httpLog w ++ [call]; dbLog := dbLog w;
        activityLog := activityLog w; taskLog := taskLog w;
        clockReads := clockReads w; randomDraws := randomDraws w;
        created := created w |}).

(** [ActivityClientService.logActivity]: whatever goes wrong is rethrown
    as the one [InternalServerErrorException]. *)
Definition logActivity (payload : ActivityPayload) : M (option string) :=
  fun env w =>
    let w' :=
      {| calendarEvents := calendarEvents w; loggedMeetings := loggedMeetings w;
         httpLog := httpLog w; dbLog := dbLog w;
         activityLog := activityLog w ++ [payload]; taskLog := taskLog w;
         clockReads := clockReads w; randomDraws := randomDraws w;
         created := created w |} in
    match activityPost env (activityLog w) payload with
    | Some id => (inr id, w')
    | None => (inl (InternalServerErrorException "Failed to log activity"), w')
    end.

(** [TaskClientService.createTask] *)
Definition createTask (payload : TaskPayload) : M (option string) :=
  fun env w =>
    (taskService env (taskLog w) payload,
     {| calendarEvents := calendarEvents w; loggedMeetings := loggedMeetings w;
        httpLog := httpLog w; dbLog := dbLog w; activityLog := activityLog w;
        taskLog := taskLog w ++ [payload]; clockReads := clockReads w;
        randomDraws := randomDraws w; created := created w |}).

(** *** The event store *)

(** Record a call on a model and replace the two collections. *)
Definition db_step (call : DbCall) (evs : list CalendarEvent)
  (ms : list LoggedMeeting) (w : World) : World :=
  {| calendarEvents := evs; loggedMeetings := ms;
     httpLog := httpLog w; dbLog := dbLog w ++ [call];
     activityLog := activityLog w; taskLog := taskLog w;
     clockReads := clockReads w; randomDraws := randomDraws w;
     created := created w |}.

Definition hasExternalId (id : string) (e : CalendarEvent) : bool :=
  String.eqb (ev_externalId e) id.

Definition hasMeetingId (id : string) (m : LoggedMeeting) : bool :=
  String.eqb (lm_id m) id.

(** Replace the first element that satisfies [p] by its image under [f]. *)
Fixpoint update_first {A} (p : A -> bool) (f : A -> A) (l : list A) : list A :=
  match l with
  | [] => []
  | x :: l' => if p x then f x :: l' else x :: update_first p f l'
  end.

(** Remove the first element that satisfies [p]. *)
Fixpoint delete_first {A} (p : A -> bool) (l : list A) : list A :=
  match l with
  | [] => []
  | x :: l' => if p x then l' else x :: delete_first p l'
  end.

Definition over {A} (o : option A) (old : A) : A :=
  match o with Some v => v | None => old end.

(** A patch whose dates are all valid, applied to a document: a key of
    the patch overwrites the field, an absent key leaves it alone. *)
Definition applyPatch (p : CalendarEventPatch) (e : CalendarEvent) : CalendarEvent :=
  {| ev_externalId := ev_externalId e;
     ev_provider := ev_provider e;
     ev_userId := ev_userId e;
     ev_leadId := match pt_leadId p with Some l => Some l | None => ev_leadId e end;
     ev_title := over (pt_title p) (ev_title e);
     ev_description := over (pt_description p) (ev_description e);
     ev_startTime := match pt_startTime p with Some (Some t) => t | _ => ev_startTime e end;
     ev_endTime := match pt_endTime p with Some (Some t) => t | _ => ev_endTime e end;
     ev_timeZone := over (pt_timeZone p) (ev_timeZone e);
     ev_isAllDay := match pt_isAllDay p with Some (Some b) => b | _ => ev_isAllDay e end;
     ev_locationType :=
       match pt_locationType p with Some k => Some k | None => ev_locationType e end;
     ev_locationDetails := over (pt_locationDetails p) (ev_locationDetails e);
     ev_attendees := over (pt_attendees p) (ev_attendees e);
     ev_organizer := over (pt_organizer p) (ev_organizer e);
     ev_organizerName := over (pt_organizerName p) (ev_organizerName e);
     ev_meetingLink :=
       match pt_meetingLink p with Some l => Some l | None => ev_meetingLink e end;
     ev_isOnlineMeeting := over (pt_isOnlineMeeting p) (ev_isOnlineMeeting e);
     ev_onlineMeetingProvider :=
       match pt_onlineMeetingProvider p with
       | Some s => Some s
       | None => ev_onlineMeetingProvider e
       end;
     ev_isActive := over (pt_isActive p) (ev_isActive e);
     ev_outcome := match pt_outcome p with Some o => Some o | None => ev_outcome e end |}.

(** The store casts the values of an update; an Invalid Date does not
    cast. *)
Definition patchCasts (p : CalendarEventPatch) : bool :=
  match pt_startTime p, pt_endTime p with
  | Some None, _ => false
  | _, Some None => false
  | _, _ => true
  end.

(** The store answers: an operation fails on what it is given (a document
    that does not validate, a value that does not cast) and not on its
    own.  A query that the database rejects is outside the model; the
    results about the store describe the runs in which it answers. *)
Module EventModel.

(** [calendarEventModel.findOneAndUpdate({ externalId }, patch)] *)
Definition findOneAndUpdate (externalId : string) (p : CalendarEventPatch)
  : M (option CalendarEvent) :=
  fun _ w =>
    if patchCasts p then
      (inr (find (hasExternalId externalId) (calendarEvents w)),
       db_step (EventFindOneAndUpdate externalId)
         (update_first (hasExternalId externalId) (applyPatch p) (calendarEvents w))
         (loggedMeetings w) w)
    else
      (inl (JsError "Cast to date failed for value Invalid Date"),
       db_step (EventFindOneAndUpdate externalId)
         (calendarEvents w) (loggedMeetings w) w).

(** [calendarEventModel.findOne({ externalId })] *)
Definition findOne (externalId : string) : M (option CalendarEvent) :=
  fun _ w =>
    (inr (find (hasExternalId externalId) (calendarEvents w)),
     db_step (EventFindOne externalId) (calendarEvents w) (loggedMeetings w) w).

(** [calendarEventModel.find(query).exec()] *)
Definition find_ (query : CalendarEvent -> bool) : M (list CalendarEvent) :=
  fun _ w =>
    (inr (filter query (calendarEvents w)),
     db_step EventFind (calendarEvents w) (loggedMeetings w) w).

(** [calendarEventModel.deleteOne({ externalId })]: the [deletedCount]. *)
Definition deleteOne (externalId : string) : M Z :=
  fun _ w =>
    ((if existsb (hasExternalId externalId) (calendarEvents w)
      then inr 1 else inr 0),
     db_step (EventDeleteOne externalId)
       (delete_first (hasExternalId externalId) (calendarEvents w))
       (loggedMeetings w) w).

(** The fields the schema marks [required]: those of the event, and the
    [email] of each of its attendees.  (The two dates are required too;
    [save] below reads them.) *)
Definition requiredPresent (e : CalendarEvent) : bool :=
  Js.truthy (Some (ev_externalId e)) && Js.truthy (Some (ev_provider e))
  && Js.truthy (ev_userId e) && Js.truthy (ev_leadId e)
  && Js.truthy (ev_title e)
  && match ev_locationType e with Some _ => true | None => false end
  && Js.truthy (ev_organizer e)
  && forallb (fun a => Js.truthy (Some (at_email a))) (ev_attendees e).

(** [new calendarEventModel(doc).save()], for a document whose two
    dates are [startTime] and [endTime]: it is validated, then
    appended to the collection. *)
Definition save (startTime endTime : JsDate) (doc : Z -> Z -> CalendarEvent)
  : M CalendarEvent :=
  fun _ w =>
    match startTime, endTime with
    | Some s, Some e =>
        if requiredPresent (doc s e) then
          (inr (doc s e),
           db_step (EventSave (ev_externalId (doc s e)))
             (calendarEvents w ++ [doc s e]) (loggedMeetings w) w)
        else
          (inl (JsError "CalendarEvent validation failed"),
           db_step (EventSave (ev_externalId (doc s e)))
             (calendarEvents w) (loggedMeetings w) w)
    | _, _ =>
        (inl (JsError "CalendarEvent validation failed"),
         db_step (EventSave (ev_externalId (doc 0 0)))
           (calendarEvents w) (loggedMeetings w) w)
    end.

End EventModel.

(** ** Responses of the adapters *)

(** One element of [CalendarResponse.data]. *)
Record CalendarItem : Type := {
  ci_id : string;
  ci_title : option string;
  ci_leadId : option string;
  ci_startTime : string;
  ci_endTime : string;
  ci_meetingLink : option string;
  ci_attendees : list Attendee;
  ci_location : option string;
  ci_organizer : option string;
  ci_organizerName : option string;
  ci_description : option string;
  ci_isOnlineMeeting : option bool;
  ci_onlineMeetingProvider : option string;
  ci_outcome : option string
}.

(** [{ success: true, data: [...] }] *)
Record CalendarResponse : Type := {
  cr_success : bool;
  cr_data : list CalendarItem
}.

(** [{ success: true, data: { message, eventId }, statusCode: 200 }] *)
Record DeleteEventResponse : Type := {
  dr_success : bool;
  dr_message : string;
  dr_eventId : string;
  dr_statusCode : Z
}.

(** A value inside a template literal. *)
Definition show (s : option string) : string :=
  match s with Some v => v | None => "undefined" end.

Definition showZ (n : Z) : string := NilZero.string_of_int (Z.to_int n).

(** [accessToken && accessToken.trim() !== ''] *)
Definition usableToken (accessToken : string) : bool :=
  Js.truthy (Some accessToken) && negb (String.eqb (Js.trim accessToken) EmptyString).

Definition emptyProfile : UserProfile := {| up_name := None; up_email := None |}.

(** ** Provider adapter: Google *)

Module Google.
Section Adapter.

Context {DL : DateLib}.

Definition googleApiUrl : string := "https://www.googleapis.com/calendar/v3".

(** The [catchError] of [makeGoogleApiCall]: the exception thrown for an
    error of the transport client. *)
Definition classifyError (e : HttpError) : Exn :=
  match he_error e with
  | Some googleError =>
      match ae_code googleError with
      | CodeNumber 401 =>
          UnauthorizedException
            ("Google Calendar API authentication failed: "
             ++ Js.or_default (ae_message googleError) "Invalid access token")
      | CodeNumber 403 =>
          UnauthorizedException
            ("Google Calendar API permission denied: "
             ++ Js.or_default (ae_message googleError) "Insufficient permissions")
      | CodeNumber 404 =>
          BadRequestException
            ("Google Calendar API resource not found: "
             ++ Js.or_default (ae_message googleError) "Resource does not exist")
      | CodeNumber 429 =>
          BadRequestException
            ("Google Calendar API rate limit exceeded: "
             ++ Js.or_default (ae_message googleError) "Too many requests")
      | _ =>
          BadRequestException
            ("Google Calendar API error: "
             ++ Js.or_default (ae_message googleError) "Unknown error occurred")
      end
  | None =>
      match he_status e with
      | Some status =>
          if status =? 0 then
            BadRequestException
              ("Google Calendar API error: "
               ++ Js.or_default (he_message e) "Network error occurred")
          else
            BadRequestException
              ("Google Calendar API HTTP error " ++ showZ status ++ ": "
               ++ Js.or_default (he_statusText e) "Unknown error")
      | None =>
          BadRequestException
            ("Google Calendar API error: "
             ++ Js.or_default (he_message e) "Network error occurred")
      end
  end.

(** [makeGoogleApiCall(accessToken, endpoint, method, data, baseUrl)] *)
Definition makeGoogleApiCall (accessToken endpoint : string)
  (method : HttpMethod) (data : HttpBody) (baseUrl : option string)
  : M HttpData :=
  r <- request {| hc_method := method;
                  hc_url := Js.or_default baseUrl googleApiUrl ++ endpoint;
                  hc_token := accessToken;
                  hc_body := data |} ;;
  match r with
  | inl e => throw (classifyError e)
  | inr d => ret d
  end.

(** [response.data as GoogleCalendarEvent]: the provider is taken to
    answer an event request with an event; any other answer is a
    [TypeError] where the event is read. *)
Definition asEvent (d : HttpData) : M GoogleCalendarEvent :=
  match d with
  | GoogleEventData e => ret e
  | _ => throw (JsError "TypeError: Cannot read properties of undefined")
  end.

(** [validateTimeLogic(startTime, endTime)]: comparisons with an Invalid
    Date are false, so an unreadable time passes. *)
Definition validateTimeLogic (startTime endTime : string) : Result unit :=
  match parseISO startTime, parseISO endTime with
  | Some s, Some e =>
      if s >=? e then
        inl (BadRequestException "Start time must be before end time")
      else if differenceInMinutes e s >? 1440 then
        inl (BadRequestException "Event duration cannot exceed 24 hours")
      else inr tt
  | _, _ => inr tt
  end.

(** [getUserProfile(accessToken)]: never throws. *)
Definition getUserProfile (accessToken : string) : M UserProfile :=
  try_catch
    (d <- makeGoogleApiCall accessToken "/userinfo" GET NoBody
            (Some "https://www.googleapis.com/oauth2/v2") ;;
     match d with
     | GoogleProfileData p =>
         ret {| up_name :=
                  Js.or_else (gu_name p)
                    (Some (show (gu_given_name p) ++ " " ++ show (gu_family_name p)));
                up_email := gu_email p |}
     | _ => throw (JsError "TypeError: Cannot read properties of undefined")
     end)
    (fun _ => ret emptyProfile).

Definition attendeeToGoogle (a : AttendeeDto) : GoogleAttendee :=
  {| ga_email := ad_email a;
     ga_displayName := Js.or_else (ad_name a) None;
     ga_name := None;
     ga_responseStatus :=
       Some (if responseIsRequired a then "accepted" else "needsAction") |}.

Definition attendeeOfGoogle (a : GoogleAttendee) : Attendee :=
  {| at_email := ga_email a;
     at_name := ga_displayName a;
     at_status := ga_responseStatus a |}.

Definition attendeesOfGoogle (l : option (list GoogleAttendee)) : list Attendee :=
  match l with Some l' => map attendeeOfGoogle l' | None => [] end.

Definition organizerEmail (e : GoogleCalendarEvent) : option string :=
  match ge_organizer e with Some o => go_email o | None => None end.

Definition organizerDisplayName (e : GoogleCalendarEvent) : option string :=
  match ge_organizer e with Some o => go_displayName o | None => None end.

Definition organizerName (e : GoogleCalendarEvent) : option string :=
  match ge_organizer e with Some o => go_name o | None => None end.

Definition isSome {A} (o : option A) : bool :=
  match o with Some _ => true | None => false end.

(** [t.dateTime || t.date] *)
Definition timeText (t : GoogleTime) : option string :=
  Js.or_else (gt_dateTime t) (gt_date t).

(** [new Date(t.dateTime || t.date || new Date())] *)
Definition dateOfTime (t : GoogleTime) : M JsDate :=
  if Js.truthy (timeText t) then ret (Date_parse (show (timeText t)))
  else (n <- now ;; ret (timeClip n)).

(** [s ? new Date(s) : new Date()] *)
Definition dateOrNow (s : string) : M JsDate :=
  if Js.truthy (Some s) then ret (Date_parse s)
  else (n <- now ;; ret (timeClip n)).

Definition conferenceRequest (requestId : string) : ConferenceData :=
  {| cd_createRequest :=
       Some {| cr_requestId := requestId;
               cr_conferenceSolutionKey := "hangoutsMeet" |};
     cd_entryPoints := [] |}.

Definition isKind (k : MeetingLocationType) (o : option MeetingLocationType) : bool :=
  match o with Some k' => locationType_eqb k' k | None => false end.

(** The event literal [googleEvent] of [createEvent]. *)
Definition createPayload (eventData : CreateEventDto) (requestId : option string)
  : GoogleEventPayload :=
  {| gp_summary := ce_title eventData;
     gp_description := ce_description eventData;
     gp_start :=
       Some {| gt_dateTime := Some (ce_startTime eventData); gt_date := None;
               gt_timeZone := Some (Js.or_default (ce_timeZone eventData) "UTC") |};
     gp_end :=
       Some {| gt_dateTime := Some (ce_endTime eventData); gt_date := None;
               gt_timeZone := Some (Js.or_default (ce_timeZone eventData) "UTC") |};
     gp_attendees :=
       Some (match ce_attendees eventData with
             | Some l => map attendeeToGoogle l
             | None => []
             end);
     gp_location :=
       if isKind IN_PERSON (ce_locationType eventData)
       then ce_locationDetails eventData else None;
     gp_conferenceData :=
       match requestId with
       | Some r => Some (conferenceRequest r)
       | None => None
       end |}.

(** The organizer name stored with a created event. *)
Definition createdOrganizerName (userProfile : UserProfile)
  (createdEvent : GoogleCalendarEvent) : string :=
  Js.or_default
    (Js.or_else (up_name userProfile)
       (Js.or_else (organizerDisplayName createdEvent)
          (Js.or_else (organizerName createdEvent) (organizerEmail createdEvent))))
    "user".

(** [createEvent(accessToken, eventData)] *)
Definition createEvent (accessToken : string) (eventData : CreateEventDto)
  : M CalendarResponse :=
  try_catch
    (when (negb (Js.truthy (Some accessToken)))
       (throw (UnauthorizedException "Access token is required")) ;;
     lift (validateTimeLogic (ce_startTime eventData) (ce_endTime eventData)) ;;
     requestId <- (if isKind GOOGLE_MEET (ce_locationType eventData)
                   then (r <- randomId ;; ret (Some r)) else ret None) ;;
     d <- makeGoogleApiCall accessToken
            "/calendars/primary/events?conferenceDataVersion=1" POST
            (GoogleBody (createPayload eventData requestId)) None ;;
     match d with
     | GoogleEventData createdEvent =>
         userProfile <- try_catch (getUserProfile accessToken)
                          (fun _ => ret emptyProfile) ;;
         startTime <- dateOrNow (ce_startTime eventData) ;;
         endTime <- dateOrNow (ce_endTime eventData) ;;
         EventModel.save startTime endTime
           (fun s e =>
              {| ev_externalId := ge_id createdEvent;
                 ev_provider := "google";
                 ev_userId := organizerEmail createdEvent;
                 ev_leadId := ce_leadId eventData;
                 ev_title := ge_summary createdEvent;
                 ev_description := ge_description createdEvent;
                 ev_startTime := s;
                 ev_endTime := e;
                 ev_timeZone := gt_timeZone (ge_start createdEvent);
                 ev_isAllDay := negb (Js.truthy (gt_dateTime (ge_start createdEvent)));
                 ev_locationType := ce_locationType eventData;
                 ev_locationDetails := ge_location createdEvent;
                 ev_attendees := attendeesOfGoogle (ge_attendees createdEvent);
                 ev_organizer := organizerEmail createdEvent;
                 ev_organizerName := Some (createdOrganizerName userProfile createdEvent);
                 ev_meetingLink := ge_hangoutLink createdEvent;
                 ev_isOnlineMeeting := isSome (ge_conferenceData createdEvent);
                 ev_onlineMeetingProvider :=
                   if isSome (ge_conferenceData createdEvent)
                   then Some "google_meet" else None;
                 ev_isActive := true;
                 ev_outcome := ce_outcome eventData |}) ;;
         try_catch
           (when (Js.truthy (ce_leadId eventData))
              (_ <- getUserProfile accessToken ;;
               _ <- logActivity
                      {| ap_leadId := ce_leadId eventData;
                         ap_activityType := CALENDAR_EVENT_CREATED;
                         ap_description :=
                           "Calendar event '" ++ show (ge_summary createdEvent)
                           ++ "' created by "
                           ++ Js.or_default
                                (Js.or_else (organizerName createdEvent)
                                   (Js.or_else (organizerDisplayName createdEvent)
                                      (organizerEmail createdEvent)))
                                "user";
                         ap_performedBy :=
                           Js.or_default (organizerEmail createdEvent) "system";
                         ap_subjectId := Some (ge_id createdEvent) |} ;;
               ret tt))
           (fun _ => ret tt) ;;
         ret {| cr_success := true;
                cr_data :=
                  [ {| ci_id := ge_id createdEvent;
                       ci_title := ge_summary createdEvent;
                       ci_leadId := ce_leadId eventData;
                       ci_startTime :=
                         Js.or_default (timeText (ge_start createdEvent)) EmptyString;
                       ci_endTime :=
                         Js.or_default (timeText (ge_end createdEvent)) EmptyString;
                       ci_meetingLink := ge_hangoutLink createdEvent;
                       ci_attendees := attendeesOfGoogle (ge_attendees createdEvent);
                       ci_location := ge_location createdEvent;
                       ci_organizer :=
                         Some (Js.or_default (organizerEmail createdEvent) EmptyString);
                       ci_organizerName :=
                         Some (Js.or_default (organizerDisplayName createdEvent)
                                 EmptyString);
                       ci_description := ge_description createdEvent;
                       ci_isOnlineMeeting :=
                         Some (isSome (ge_conferenceData createdEvent));
                       ci_onlineMeetingProvider :=
                         if isSome (ge_conferenceData createdEvent)
                         then Some "google_meet" else None;
                       ci_outcome := ce_outcome eventData |} ] |}
     | NoData =>
         throw (BadRequestException
                  "Failed to create event: No response from Google Calendar API")
     | _ => throw (JsError "TypeError: Cannot read properties of undefined")
     end)
    (fun error =>
       if isHttpException error then throw error
       else throw (BadRequestException
                     (Js.or_default (Some (error_message error))
                        "Failed to create calendar event"))).

(** The update that marks a document deleted: [{ isActive: false }]. *)
Definition deactivate : CalendarEventPatch :=
  {| pt_title := None; pt_description := None; pt_startTime := None;
     pt_endTime := None; pt_timeZone := None; pt_isAllDay := None;
     pt_locationType := None; pt_locationDetails := None; pt_leadId := None;
     pt_attendees := None; pt_organizer := None; pt_organizerName := None;
     pt_meetingLink := None; pt_isOnlineMeeting := None;
     pt_onlineMeetingProvider := None; pt_outcome := None;
     pt_isActive := Some false |}.

Definition deletedResponse (eventId : string) : DeleteEventResponse :=
  {| dr_success := true;
     dr_message := "Event deleted successfully";
     dr_eventId := eventId;
     dr_statusCode := 200 |}.

(** [deleteEvent(accessToken, eventId)] *)
Definition deleteEvent (accessToken eventId : string) : M DeleteEventResponse :=
  try_catch
    (when (usableToken accessToken)
       (try_catch
          (_ <- makeGoogleApiCall accessToken
                  ("/calendars/primary/events/" ++ eventId) DELETE NoBody None ;;
           ret tt)
          (fun _ => ret tt)) ;;
     _ <- EventModel.findOneAndUpdate eventId deactivate ;;
     try_catch
       (eventDetails <- EventModel.findOne eventId ;;
        match eventDetails with
        | Some ev =>
            when (Js.truthy (ev_leadId ev))
              (_ <- logActivity
                      {| ap_leadId := ev_leadId ev;
                         ap_activityType := CALENDAR_EVENT_DELETED;
                         ap_description :=
                           "Calendar event '" ++ show (ev_title ev)
                           ++ "' deleted by user";
                         ap_performedBy := "system";
                         ap_subjectId := Some eventId |} ;;
               ret tt)
        | None => ret tt
        end)
       (fun _ => ret tt) ;;
     ret (deletedResponse eventId))
    (fun error =>
       throw (BadRequestException
                ("Failed to delete calendar event: " ++ error_message error))).

(** The two time fields of the patch sent to Google by [updateEvent]. *)
Definition updateTimes (existingEvent : GoogleCalendarEvent)
  (eventData : UpdateEventDto) : M (option GoogleTime * option GoogleTime) :=
  afterStart <-
    (if Js.truthy (ue_startTime eventData) then
       let start :=
         {| gt_dateTime := ue_startTime eventData; gt_date := None;
            gt_timeZone := Js.or_else (ue_timeZone eventData)
                             (gt_timeZone (ge_start existingEvent)) |} in
       if negb (Js.truthy (ue_endTime eventData)) then
         existingStart <- dateOfTime (ge_start existingEvent) ;;
         existingEnd <- dateOfTime (ge_end existingEvent) ;;
         match existingStart, existingEnd, Date_parse (show (ue_startTime eventData)) with
         | Some os, Some oe, Some ns =>
             match timeClip (ns + (oe - os)) with
             | Some newEnd =>
                 ret (Some start,
                      Some {| gt_dateTime := Some (toISOString newEnd);
                              gt_date := None;
                              gt_timeZone :=
                                Js.or_else (ue_timeZone eventData)
                                  (gt_timeZone (ge_end existingEvent)) |})
             | None => throw (JsError "RangeError: Invalid time value")
             end
         | _, _, _ => throw (JsError "RangeError: Invalid time value")
         end
       else ret (Some start, None)
     else ret (None, None)) ;;
  if Js.truthy (ue_endTime eventData) then
    let end_ :=
      {| gt_dateTime := ue_endTime eventData; gt_date := None;
         gt_timeZone := Js.or_else (ue_timeZone eventData)
                          (gt_timeZone (ge_end existingEvent)) |} in
    if negb (Js.truthy (ue_startTime eventData)) then
      ret (Some {| gt_dateTime :=
                     Some (Js.or_default (timeText (ge_start existingEvent))
                             EmptyString);
                   gt_date := None;
                   gt_timeZone := Js.or_else (ue_timeZone eventData)
                                    (gt_timeZone (ge_start existingEvent)) |},
           Some end_)
    else ret (fst afterStart, Some end_)
  else ret afterStart.

(** The patch [googleEvent] sent to Google by [updateEvent]. *)
Definition updatePayload (existingEvent : GoogleCalendarEvent)
  (eventData : UpdateEventDto) : M GoogleEventPayload :=
  times <- updateTimes existingEvent eventData ;;
  conference <-
    (if isKind GOOGLE_MEET (ue_locationType eventData)
     then (r <- randomId ;; ret (Some (conferenceRequest r)))
     else ret None) ;;
  ret {| gp_summary := Js.or_else (ue_title eventData) None;
         gp_description := Js.or_else (ue_description eventData) None;
         gp_start := fst times;
         gp_end := snd times;
         gp_attendees :=
           match ue_attendees eventData with
           | Some l => Some (map attendeeToGoogle l)
           | None => None
           end;
         gp_location :=
           if Js.truthy (ue_locationDetails eventData)
           then ue_locationDetails eventData
           else if isKind IN_PERSON (ue_locationType eventData)
                then ue_locationDetails eventData else None;
         gp_conferenceData := conference |}.

Definition guard {A} (b : bool) (v : A) : option A :=
  if b then Some v else None.

(** The second half of [updateEvent]: the local mirror, the activity log
    and the response, from the event the provider returned. *)
Definition mirrorUpdate (accessToken eventId : string) (eventData : UpdateEventDto)
  (updatedEvent : GoogleCalendarEvent) : M CalendarResponse :=
  newStart <- (if Js.truthy (ue_startTime eventData)
               then (t <- dateOfTime (ge_start updatedEvent) ;; ret (Some t))
               else ret None) ;;
  newEnd <- (if Js.truthy (ue_endTime eventData)
             then (t <- dateOfTime (ge_end updatedEvent) ;; ret (Some t))
             else ret None) ;;
  resolvedName <-
    (if negb (Js.truthy (Js.or_else (organizerName updatedEvent)
                           (organizerDisplayName updatedEvent)))
        && Js.truthy (organizerEmail updatedEvent)
     then
       try_catch
         (userProfile <- getUserProfile accessToken ;;
          match up_email userProfile, organizerEmail updatedEvent with
          | Some pe, Some oe =>
              if String.eqb pe oe
              then ret (Js.or_default (up_name userProfile) EmptyString)
              else ret EmptyString
          | _, _ => ret EmptyString
          end)
         (fun _ => ret EmptyString)
     else ret (Js.or_default
                 (Js.or_else (organizerName updatedEvent)
                    (organizerDisplayName updatedEvent)) EmptyString)) ;;
  let updateData :=
    {| pt_title := guard (Js.truthy (ue_title eventData)) (ge_summary updatedEvent);
       pt_description :=
         guard (Js.truthy (ue_description eventData)) (ge_description updatedEvent);
       pt_startTime := newStart;
       pt_endTime := newEnd;
       pt_timeZone :=
         guard (Js.truthy (ue_timeZone eventData)) (gt_timeZone (ge_start updatedEvent));
       pt_isAllDay :=
         match ue_isAllDay eventData with Some b => Some (Some b) | None => None end;
       pt_locationType := ue_locationType eventData;
       pt_locationDetails :=
         guard (Js.truthy (ue_locationDetails eventData)) (ge_location updatedEvent);
       pt_leadId :=
         if Js.truthy (ue_leadId eventData) then ue_leadId eventData else None;
       pt_attendees :=
         match ue_attendees eventData with
         | Some _ => Some (attendeesOfGoogle (ge_attendees updatedEvent))
         | None => None
         end;
       pt_organizer :=
         guard (Js.truthy (ue_organizer eventData))
           (Some (Js.or_default (organizerEmail updatedEvent) EmptyString));
       pt_organizerName :=
         guard (Js.truthy (Some resolvedName)) (Some resolvedName);
       pt_meetingLink :=
         if Js.truthy (ge_hangoutLink updatedEvent)
         then ge_hangoutLink updatedEvent else None;
       pt_isOnlineMeeting :=
         guard (isSome (ge_conferenceData updatedEvent)) true;
       pt_onlineMeetingProvider :=
         guard (isSome (ge_conferenceData updatedEvent)) "google_meet";
       pt_outcome :=
         if Js.truthy (ue_outcome eventData) then ue_outcome eventData else None;
       pt_isActive := None |} in
  _ <- EventModel.findOneAndUpdate eventId updateData ;;
  try_catch
    (_ <- logActivity
            {| ap_leadId := ue_leadId eventData;
               ap_activityType := CALENDAR_EVENT_UPDATED;
               ap_description :=
                 "Calendar event '" ++ show (ge_summary updatedEvent) ++ "' updated";
               ap_performedBy :=
                 Js.or_default (organizerEmail updatedEvent) "system";
               ap_subjectId := Some (ge_id updatedEvent) |} ;;
     ret tt)
    (fun _ => ret tt) ;;
  ret {| cr_success := true;
         cr_data :=
           [ {| ci_id := ge_id updatedEvent;
                ci_title := ge_summary updatedEvent;
                ci_leadId := ue_leadId eventData;
                ci_startTime :=
                  Js.or_default (timeText (ge_start updatedEvent)) EmptyString;
                ci_endTime :=
                  Js.or_default (timeText (ge_end updatedEvent)) EmptyString;
                ci_meetingLink := ge_hangoutLink updatedEvent;
                ci_attendees := attendeesOfGoogle (ge_attendees updatedEvent);
                ci_location := ge_location updatedEvent;
                ci_organizer :=
                  Some (Js.or_default (organizerEmail updatedEvent) EmptyString);
                ci_organizerName := Some resolvedName;
                ci_description := ge_description updatedEvent;
                ci_isOnlineMeeting := Some (isSome (ge_conferenceData updatedEvent));
                ci_onlineMeetingProvider :=
                  if isSome (ge_conferenceData updatedEvent)
                  then Some "google_meet" else None;
                ci_outcome := ue_outcome eventData |} ] |}.

(** [updateEvent(accessToken, eventId, eventData)] *)
Definition updateEvent (accessToken eventId : string) (eventData : UpdateEventDto)
  : M CalendarResponse :=
  try_catch
    (d <- makeGoogleApiCall accessToken
            ("/calendars/primary/events/" ++ eventId) GET NoBody None ;;
     existingEvent <- asEvent d ;;
     when (Js.truthy (ue_startTime eventData) && Js.truthy (ue_endTime eventData))
       (lift (validateTimeLogic (show (ue_startTime eventData))
                (show (ue_endTime eventData)))) ;;
     googleEvent <- updatePayload existingEvent eventData ;;
     d' <- makeGoogleApiCall accessToken
             ("/calendars/primary/events/" ++ eventId) PATCH
             (GoogleBody googleEvent) None ;;
     updatedEvent <- asEvent d' ;;
     mirrorUpdate accessToken eventId eventData updatedEvent)
    (fun error =>
       throw (BadRequestException
                ("Failed to update calendar event: " ++ error_message error))).

(** [ContactWithDetails] *)
Record ContactWithDetails : Type := {
  cw_id : string;
  cw_name : string;
  cw_email : string;
  cw_phone : string;
  cw_organization : string;
  cw_title : string
}.

(** A [Map<string, V>] in insertion order. *)
Definition has {V} (key : string) (m : list (string * V)) : bool :=
  existsb (fun kv => String.eqb (fst kv) key) m.

(** [if (!m.has(key)) m.set(key, v)] *)
Definition setIfAbsent {V} (key : string) (v : V) (m : list (string * V))
  : list (string * V) :=
  if has key m then m else m ++ [(key, v)].

(** [removeDuplicateContacts(contacts)] *)
Definition removeDuplicateContacts (contacts : list ContactWithDetails)
  : list ContactWithDetails :=
  let uniqueContacts :=
    fold_left
      (fun m contact => setIfAbsent (Js.toLowerCase (cw_email contact)) contact m)
      contacts [] in
  map snd uniqueContacts.

End Adapter.
End Google.

(** ** Provider adapter: Microsoft *)

Module Microsoft.
Section Adapter.

Context {DL : DateLib}.

Definition graphApiUrl : string := "https://graph.microsoft.com/v1.0/".

Definition codeIs (c : ErrorCode) (s : string) : bool :=
  match c with CodeString s' => String.eqb s' s | _ => false end.

(** The [catchError] of [makeGraphApiCall]. *)
Definition classifyError (e : HttpError) : Exn :=
  if match he_code e with Some c => String.eqb c "ECONNREFUSED" | None => false end
  then JsError "Could not connect to Microsoft Graph API"
  else
    match he_error e with
    | Some graphError =>
        if codeIs (ae_code graphError) "InvalidAuthenticationToken"
           || codeIs (ae_code graphError) "AuthenticationFailed"
        then UnauthorizedException "Authentication failed"
        else if codeIs (ae_code graphError) "ErrorAccessDenied"
        then UnauthorizedException "Access denied to calendar"
        else if codeIs (ae_code graphError) "ResourceNotFound"
        then BadRequestException "Calendar or event not found"
        else if codeIs (ae_code graphError) "InvalidRequest"
        then BadRequestException
               (Js.or_default (ae_message graphError) "Invalid request to calendar API")
        else
          match he_status e with
          | Some 401 =>
              UnauthorizedException
                "Microsoft Graph access not authorized or token expired"
          | Some 403 =>
              UnauthorizedException "Insufficient permissions to access calendar"
          | _ =>
              BadRequestException
                (Js.or_default (ae_message graphError) "Microsoft Graph API error")
          end
    | None => JsError (show (he_message e))
    end.

(** [makeGraphApiCall(accessToken, endpoint, method, data)] *)
Definition makeGraphApiCall (accessToken endpoint : string)
  (method : HttpMethod) (data : HttpBody) : M HttpData :=
  r <- request {| hc_method := method;
                  hc_url := graphApiUrl ++ endpoint;
                  hc_token := accessToken;
                  hc_body := data |} ;;
  match r with
  | inl e => throw (classifyError e)
  | inr d => ret d
  end.

(** [response.data as MicrosoftGraphEvent] *)
Definition asEvent (d : HttpData) : M MicrosoftGraphEvent :=
  match d with
  | GraphEventData e => ret e
  | _ => throw (JsError "TypeError: Cannot read properties of undefined")
  end.

(** [validateTimeLogic(startTime, endTime)], which reads the clock. *)
Definition validateTimeLogic (startTime endTime : string) : M unit :=
  n <- now ;;
  match parseISO startTime, parseISO endTime with
  | Some s, Some e =>
      if s <? n then
        throw (BadRequestException "Start time cannot be in the past")
      else if e <=? s then
        throw (BadRequestException "End time must be after start time")
      else if differenceInMinutes e s >? 24 * 60 then
        throw (BadRequestException "Event duration cannot exceed 24 hours")
      else ret tt
  | _, _ =>
      throw (BadRequestException
               "Invalid date format. Please use ISO 8601 format.")
  end.

(** [validateCalendarAccess(accessToken)]: a probe of the calendar. *)
Definition validateCalendarAccess (accessToken : string) : M unit :=
  try_catch
    (_ <- makeGraphApiCall accessToken "me/calendar" GET NoBody ;; ret tt)
    (fun _ =>
       throw (UnauthorizedException
                "Calendar access not authorized. Please connect and authorize your calendar.")).

(** [email.split('@')[0]] *)
Fixpoint localPart (s : string) : string :=
  match s with
  | EmptyString => EmptyString
  | String c s' => if Ascii.eqb c "@"%char then EmptyString else String c (localPart s')
  end.

Definition isDigit (c : ascii) : bool :=
  let n := nat_of_ascii c in (48 <=? n)%nat && (n <=? 57)%nat.

(** [s.match(/[+-][0-9]{2}:[0-9]{2}$/)] *)
Definition endsWithOffset (s : string) : bool :=
  match list_ascii_of_string (Js.drop (String.length s - 6) s) with
  | [sg; d1; d2; c; d3; d4] =>
      (Ascii.eqb sg "+"%char || Ascii.eqb sg "-"%char)
      && isDigit d1 && isDigit d2 && Ascii.eqb c ":"%char
      && isDigit d3 && isDigit d4
  | _ => false
  end.

(** The text given to [new Date] for the local mirror: a time without
    zone designator is read as UTC. *)
Definition asUtc (s : string) : string :=
  if Js.includes "Z" s || endsWithOffset s then s else s ++ "Z".

Definition attendeeOfGraph (a : GraphAttendee) : Attendee :=
  {| at_email := ea_address (gra_emailAddress a);
     at_name := ea_name (gra_emailAddress a);
     at_status := Some (Js.or_default (gra_status a) "none") |}.

Definition organizerAddress (e : MicrosoftGraphEvent) : option string :=
  match me_organizer e with Some o => Some (ea_address o) | None => None end.

Definition organizerName (e : MicrosoftGraphEvent) : option string :=
  match me_organizer e with Some o => ea_name o | None => None end.

(** The online-meeting fields of a create request, by location kind. *)
Definition createPayload (eventData : CreateEventDto)
  (attendees : list GraphAttendee) : GraphEventPayload :=
  let tz := Some (Js.or_default (ce_timeZone eventData) "UTC") in
  let inPerson := Google.isKind IN_PERSON (ce_locationType eventData) in
  {| mp_subject := ce_title eventData;
     mp_body := Some ("HTML", Js.or_default (ce_description eventData) EmptyString);
     mp_start := Some {| mt_dateTime := ce_startTime eventData; mt_timeZone := tz |};
     mp_end := Some {| mt_dateTime := ce_endTime eventData; mt_timeZone := tz |};
     mp_attendees := Some attendees;
     mp_isAllDay :=
       Some (match ce_isAllDay eventData with Some b => b | None => false end);
     mp_organizer := Some (ce_organizer eventData);
     mp_location :=
       if inPerson
       then Some (Js.or_default (ce_locationDetails eventData) "In Person Meeting")
       else None;
     mp_isOnlineMeeting := if inPerson then None else Some true;
     mp_onlineMeetingProvider :=
       if inPerson then None else Some "teamsForBusiness" |}.

Definition createAttendee (a : AttendeeDto) : GraphAttendee :=
  {| gra_emailAddress :=
       {| ea_address := ad_email a;
          ea_name := Some (Js.or_default (ad_name a) (localPart (ad_email a))) |};
     gra_status := None;
     gra_type := Some (if responseIsRequired a then "required" else "optional") |}.

(** [createEvent(accessToken, eventData)] *)
Definition createEvent (accessToken : string) (eventData : CreateEventDto)
  : M CalendarResponse :=
  try_catch
    (validateCalendarAccess accessToken ;;
     validateTimeLogic (ce_startTime eventData) (ce_endTime eventData) ;;
     attendees <-
       match ce_attendees eventData with
       | Some l => ret (map createAttendee l)
       | None => throw (JsError "TypeError: Cannot read properties of undefined")
       end ;;
     d <- makeGraphApiCall accessToken "me/events" POST
            (GraphBody (createPayload eventData attendees)) ;;
     createdEvent <- asEvent d ;;
     try_catch
       (_ <- EventModel.save
               (Date_parse (asUtc (ce_startTime eventData)))
               (Date_parse (asUtc (ce_endTime eventData)))
               (fun s e =>
                  {| ev_externalId := me_id createdEvent;
                     ev_provider := "microsoft";
                     ev_userId := organizerAddress createdEvent;
                     ev_leadId := ce_leadId eventData;
                     ev_title := me_subject createdEvent;
                     ev_description := me_body_content createdEvent;
                     ev_startTime := s;
                     ev_endTime := e;
                     ev_timeZone := mt_timeZone (me_start createdEvent);
                     ev_isAllDay :=
                       match me_isAllDay createdEvent with Some b => b | None => false end;
                     ev_locationType := ce_locationType eventData;
                     ev_locationDetails := me_location_displayName createdEvent;
                     ev_attendees :=
                       match me_attendees createdEvent with
                       | Some l => map attendeeOfGraph l
                       | None => []
                       end;
                     ev_organizer := organizerAddress createdEvent;
                     ev_organizerName := organizerName createdEvent;
                     ev_meetingLink := Js.or_else (me_joinUrl createdEvent) None;
                     ev_isOnlineMeeting :=
                       match me_isOnlineMeeting createdEvent with
                       | Some b => b
                       | None => false
                       end;
                     ev_onlineMeetingProvider := me_onlineMeetingProvider createdEvent;
                     ev_isActive := true;
                     ev_outcome := ce_outcome eventData |}) ;;
        try_catch
          (when (Js.truthy (ce_leadId eventData))
             (_ <- logActivity
                     {| ap_leadId := ce_leadId eventData;
                        ap_activityType := CALENDAR_EVENT_CREATED;
                        ap_description :=
                          "Calendar event '" ++ show (me_subject createdEvent)
                          ++ "' created by "
                          ++ show (Js.or_else (organizerName createdEvent)
                                     (organizerAddress createdEvent));
                        ap_performedBy := show (organizerAddress createdEvent);
                        ap_subjectId := Some (me_id createdEvent) |} ;;
              ret tt))
          (fun _ => ret tt))
       (fun error =>
          throw (BadRequestException
                   ("Failed to save calendar event: " ++ error_message error))) ;;
     ret {| cr_success := true;
            cr_data :=
              [ {| ci_id := me_id createdEvent;
                   ci_title := me_subject createdEvent;
                   ci_leadId := ce_leadId eventData;
                   ci_startTime := mt_dateTime (me_start createdEvent);
                   ci_endTime := mt_dateTime (me_end createdEvent);
                   ci_meetingLink := Js.or_else (me_joinUrl createdEvent) None;
                   ci_attendees :=
                     match me_attendees createdEvent with
                     | Some l => map attendeeOfGraph l
                     | None => []
                     end;
                   ci_location := me_location_displayName createdEvent;
                   ci_organizer := organizerAddress createdEvent;
                   ci_organizerName := organizerName createdEvent;
                   ci_description := me_body_content createdEvent;
                   ci_isOnlineMeeting := me_isOnlineMeeting createdEvent;
                   ci_onlineMeetingProvider := me_onlineMeetingProvider createdEvent;
                   ci_outcome := ce_outcome eventData |} ] |})
    (fun error =>
       throw (BadRequestException
                ("Failed to create calendar event: " ++ error_message error))).

(** [deleteEvent(accessToken, eventId)] *)
Definition deleteEvent (accessToken eventId : string) : M DeleteEventResponse :=
  try_catch
    (when (usableToken accessToken)
       (try_catch
          (_ <- makeGraphApiCall accessToken ("me/events/" ++ eventId) DELETE NoBody ;;
           ret tt)
          (fun _ => ret tt)) ;;
     _ <- EventModel.findOneAndUpdate eventId Google.deactivate ;;
     try_catch
       (eventDetails <- EventModel.findOne eventId ;;
        match eventDetails with
        | Some ev =>
            when (Js.truthy (ev_leadId ev))
              (_ <- logActivity
                      {| ap_leadId := ev_leadId ev;
                         ap_activityType := CALENDAR_EVENT_DELETED;
                         ap_description :=
                           "Calendar event '" ++ show (ev_title ev)
                           ++ "' deleted by user";
                         ap_performedBy := "system";
                         ap_subjectId := Some eventId |} ;;
               ret tt)
        | None => ret tt
        end)
       (fun _ => ret tt) ;;
     ret (Google.deletedResponse eventId))
    (fun error =>
       throw (BadRequestException
                ("Failed to delete calendar event: " ++ error_message error))).

(** [eventData.timeZone || existing.timeZone || 'UTC'] *)
Definition zoneOf (eventData : UpdateEventDto) (existing : GraphTime) : option string :=
  Some (Js.or_default (Js.or_else (ue_timeZone eventData) (mt_timeZone existing)) "UTC").

(** The two time fields of the patch sent to Graph by [updateEvent]. *)
Definition updateTimes (existingEvent : MicrosoftGraphEvent)
  (eventData : UpdateEventDto) : Result (option GraphTime * option GraphTime) :=
  let afterStart : Result (option GraphTime * option GraphTime) :=
    if Js.truthy (ue_startTime eventData) then
      let start :=
        {| mt_dateTime := show (ue_startTime eventData);
           mt_timeZone := zoneOf eventData (me_start existingEvent) |} in
      if negb (Js.truthy (ue_endTime eventData)) then
        match Date_parse (mt_dateTime (me_start existingEvent)),
              Date_parse (mt_dateTime (me_end existingEvent)),
              Date_parse (show (ue_startTime eventData)) with
        | Some os, Some oe, Some ns =>
            match timeClip (ns + (oe - os)) with
            | Some newEnd =>
                inr (Some start,
                     Some {| mt_dateTime := toISOString newEnd;
                             mt_timeZone := zoneOf eventData (me_end existingEvent) |})
            | None => inl (JsError "RangeError: Invalid time value")
            end
        | _, _, _ => inl (JsError "RangeError: Invalid time value")
        end
      else inr (Some start, None)
    else inr (None, None) in
  match afterStart with
  | inl e => inl e
  | inr times =>
      if Js.truthy (ue_endTime eventData) then
        let end_ :=
          {| mt_dateTime := show (ue_endTime eventData);
             mt_timeZone := zoneOf eventData (me_end existingEvent) |} in
        if negb (Js.truthy (ue_startTime eventData)) then
          inr (Some {| mt_dateTime := mt_dateTime (me_start existingEvent);
                       mt_timeZone := zoneOf eventData (me_start existingEvent) |},
               Some end_)
        else inr (fst times, Some end_)
      else inr times
  end.

Definition updateAttendee (a : AttendeeDto) : GraphAttendee :=
  {| gra_emailAddress :=
       {| ea_address := ad_email a;
          ea_name := Some (Js.or_default (ad_name a) (localPart (ad_email a))) |};
     gra_status := Some "notResponded";
     gra_type := Some "required" |}.

(** The patch [updatePayload] sent to Graph by [updateEvent]. *)
Definition updatePayload (existingEvent : MicrosoftGraphEvent)
  (eventData : UpdateEventDto) : Result GraphEventPayload :=
  match updateTimes existingEvent eventData with
  | inl e => inl e
  | inr times =>
      inr {| mp_subject := Js.or_else (ue_title eventData) None;
             mp_body :=
               if Js.truthy (ue_description eventData)
               then Some ("HTML", show (ue_description eventData)) else None;
             mp_start := fst times;
             mp_end := snd times;
             mp_attendees :=
               match ue_attendees eventData with
               | Some l => Some (map updateAttendee l)
               | None => None
               end;
             mp_isAllDay := ue_isAllDay eventData;
             mp_organizer := None;
             mp_location := Js.or_else (ue_locationDetails eventData) None;
             mp_isOnlineMeeting :=
               match ue_locationType eventData with
               | Some IN_PERSON => Some false
               | Some TEAMS => Some true
               | Some _ => Some true
               | None => None
               end;
             mp_onlineMeetingProvider :=
               match ue_locationType eventData with
               | Some IN_PERSON => None
               | Some TEAMS => Some "teamsForBusiness"
               | Some _ => Some "teamsForBusiness"
               | None => None
               end |}
  end.

(** [Object.keys(updateData).length] *)
Definition patchKeys (p : CalendarEventPatch) : nat :=
  let count {A} (o : option A) : nat := if Google.isSome o then 1%nat else 0%nat in
  (count (pt_title p) + count (pt_description p) + count (pt_startTime p)
   + count (pt_endTime p) + count (pt_timeZone p) + count (pt_isAllDay p)
   + count (pt_locationType p) + count (pt_locationDetails p)
   + count (pt_leadId p) + count (pt_attendees p) + count (pt_organizer p)
   + count (pt_organizerName p) + count (pt_meetingLink p)
   + count (pt_isOnlineMeeting p) + count (pt_onlineMeetingProvider p)
   + count (pt_outcome p) + count (pt_isActive p))%nat.

(** The update [updateData] of the local mirror. *)
Definition mirrorPatch (updatedEvent : MicrosoftGraphEvent)
  (eventData : UpdateEventDto) : CalendarEventPatch :=
  {| pt_title := Google.guard (Js.truthy (ue_title eventData)) (me_subject updatedEvent);
     pt_description :=
       Google.guard (Js.truthy (ue_description eventData)) (me_body_content updatedEvent);
     pt_startTime :=
       Google.guard (Js.truthy (ue_startTime eventData))
         (Date_parse (asUtc (show (ue_startTime eventData))));
     pt_endTime :=
       Google.guard (Js.truthy (ue_endTime eventData))
         (Date_parse (asUtc (show (ue_endTime eventData))));
     pt_timeZone :=
       Google.guard (Js.truthy (ue_timeZone eventData))
         (mt_timeZone (me_start updatedEvent));
     pt_isAllDay :=
       match ue_isAllDay eventData with
       | Some _ => Some (me_isAllDay updatedEvent)
       | None => None
       end;
     pt_locationType := ue_locationType eventData;
     pt_locationDetails :=
       Google.guard (Js.truthy (ue_locationDetails eventData))
         (me_location_displayName updatedEvent);
     pt_leadId := if Js.truthy (ue_leadId eventData) then ue_leadId eventData else None;
     pt_attendees :=
       match ue_attendees eventData with
       | Some _ =>
           Some (match me_attendees updatedEvent with
                 | Some l => map attendeeOfGraph l
                 | None => []
                 end)
       | None => None
       end;
     pt_organizer :=
       Google.guard (Js.truthy (ue_organizer eventData)) (organizerAddress updatedEvent);
     pt_organizerName :=
       Google.guard (Js.truthy (ue_organizerName eventData)) (organizerName updatedEvent);
     pt_meetingLink :=
       if Js.truthy (me_joinUrl updatedEvent) then me_joinUrl updatedEvent else None;
     pt_isOnlineMeeting := me_isOnlineMeeting updatedEvent;
     pt_onlineMeetingProvider :=
       if Js.truthy (me_onlineMeetingProvider updatedEvent)
       then me_onlineMeetingProvider updatedEvent else None;
     pt_outcome :=
       if Js.truthy (ue_outcome eventData) then ue_outcome eventData else None;
     pt_isActive := None |}.

(** The second half of [updateEvent]: the local mirror, the activity log
    and the response, from the event the provider returned. *)
Definition mirrorUpdate (eventId : string) (eventData : UpdateEventDto)
  (updatedEvent : MicrosoftGraphEvent) : M CalendarResponse :=
  let updateData := mirrorPatch updatedEvent eventData in
  when (0 <? patchKeys updateData)%nat
    (_ <- EventModel.findOneAndUpdate eventId updateData ;; ret tt) ;;
  leadId <-
    (if Js.truthy (ue_leadId eventData) then ret (ue_leadId eventData)
     else
       (existing <- EventModel.findOne eventId ;;
        ret (match existing with Some ev => ev_leadId ev | None => None end))) ;;
  when (Js.truthy leadId)
    (_ <- logActivity
            {| ap_leadId := leadId;
               ap_activityType := CALENDAR_EVENT_UPDATED;
               ap_description :=
                 "Calendar event '" ++ show (me_subject updatedEvent)
                 ++ "' updated by "
                 ++ Js.or_default
                      (Js.or_else (organizerName updatedEvent)
                         (organizerAddress updatedEvent)) "user";
               ap_performedBy :=
                 Js.or_default (organizerAddress updatedEvent) "system";
               ap_subjectId := Some (me_id updatedEvent) |} ;;
     ret tt) ;;
  ret {| cr_success := true;
         cr_data :=
           [ {| ci_id := me_id updatedEvent;
                ci_title := me_subject updatedEvent;
                ci_leadId := Some (Js.or_default (ue_leadId eventData) EmptyString);
                ci_startTime := mt_dateTime (me_start updatedEvent);
                ci_endTime := mt_dateTime (me_end updatedEvent);
                ci_meetingLink := None;
                ci_attendees :=
                  match me_attendees updatedEvent with
                  | Some l => map attendeeOfGraph l
                  | None => []
                  end;
                ci_location := me_location_displayName updatedEvent;
                ci_organizer :=
                  Some (Js.or_default (organizerAddress updatedEvent) "system");
                ci_organizerName := organizerName updatedEvent;
                ci_description := me_body_content updatedEvent;
                ci_isOnlineMeeting := me_isOnlineMeeting updatedEvent;
                ci_onlineMeetingProvider := me_onlineMeetingProvider updatedEvent;
                ci_outcome := None |} ] |}.

(** [updateEvent(accessToken, eventId, eventData)] *)
Definition updateEvent (accessToken eventId : string) (eventData : UpdateEventDto)
  : M CalendarResponse :=
  validateCalendarAccess accessToken ;;
  try_catch
    (d <- makeGraphApiCall accessToken ("me/events/" ++ eventId) GET NoBody ;;
     existingEvent <- asEvent d ;;
     when (Js.truthy (ue_startTime eventData) && Js.truthy (ue_endTime eventData))
       (validateTimeLogic (show (ue_startTime eventData))
          (show (ue_endTime eventData))) ;;
     updatePayload_ <- lift (updatePayload existingEvent eventData) ;;
     d' <- makeGraphApiCall accessToken ("me/events/" ++ eventId) PATCH
             (GraphBody updatePayload_) ;;
     updatedEvent <- asEvent d' ;;
     mirrorUpdate eventId eventData updatedEvent)
    (fun error =>
       throw (BadRequestException
                ("Failed to update calendar event: " ++ error_message error))).

(** A contact as [getContacts] formats it. *)
Record GraphEmail : Type := {
  em_address : string;
  em_name : option string;
  em_type : option string
}.

Record FormattedContact : Type := {
  fc_id : string;
  fc_displayName : option string;
  fc_emailAddresses : option (list GraphEmail);
  fc_businessPhones : list string;
  fc_mobilePhone : option string;
  fc_jobTitle : option string;
  fc_companyName : option string;
  fc_department : option string;
  fc_officeLocation : option string;
  fc_source : string
}.

(** [removeDuplicateContacts(contacts)]: every address of every contact
    is a key. *)
Definition removeDuplicateContacts (contacts : list FormattedContact)
  : list FormattedContact :=
  let emailMap :=
    fold_left
      (fun m contact =>
         match fc_emailAddresses contact with
         | Some emails =>
             fold_left
               (fun m' email =>
                  Google.setIfAbsent (Js.toLowerCase (em_address email)) contact m')
               emails m
         | None => m
         end)
      contacts [] in
  map snd emailMap.

End Adapter.
End Microsoft.

(** ** The logged-meeting store *)

Record MeetingParticipantDto : Type := {
  mpd_email : string;
  mpd_name : option string;
  mpd_isExternal : option bool
}.

Record FollowUpTaskDto : Type := {
  fu_title : string;
  fu_description : option string;
  fu_dueDate : string;
  fu_priority : option string
}.

Record LogMeetingDto : Type := {
  lg_leadId : string;
  lg_title : string;
  lg_meetingType : MeetingType;
  lg_virtualMeetingProvider : option VirtualMeetingProvider;
  lg_meetingDateTime : string;
  lg_participants : list MeetingParticipantDto;
  lg_summary : string;
  lg_outcome : MeetingOutcome;
  lg_createFollowUpTask : option bool;
  lg_followUpTask : option FollowUpTaskDto;
  lg_attachment : option string;
  lg_duration : option Z;
  lg_location : option string
}.

Record LogMeetingResponseDto : Type := {
  lr_success : bool;
  lr_meetingId : string;
  lr_activityId : option string;
  lr_taskId : option string;
  lr_message : string
}.

Definition set_created (n : nat) (w : World) : World :=
  {| calendarEvents := calendarEvents w; loggedMeetings := loggedMeetings w;
     httpLog := httpLog w; dbLog := dbLog w; activityLog := activityLog w;
     taskLog := taskLog w; clockReads := clockReads w;
     randomDraws := randomDraws w; created := n |}.

(** *** The ids of the store *)

Definition isHexDigit (c : ascii) : bool :=
  let n := nat_of_ascii c in
  ((48 <=? n)%nat && (n <=? 57)%nat)
  || ((65 <=? n)%nat && (n <=? 70)%nat)
  || ((97 <=? n)%nat && (n <=? 102)%nat).

(** A text of 24 hexadecimal digits. *)
Definition hex24 (s : string) : bool :=
  (String.length s =? 24)%nat && forallb isHexDigit (list_ascii_of_string s).

(** The cast of a text to an [ObjectId], which the store applies to the
    [_id] of a query ([logged-meeting.schema.ts] declares no [_id], so
    it is an [ObjectId]).  [castObjectId s] is the id the driver reads
    from the text [s], given by its own text ([toString()]: 24
    hexadecimal digits in lower case), and [None] when the driver
    refuses [s]; the query then fails with a [CastError] before it
    reaches the collection.  The cast is an interface here, for it is
    the driver's: every version reads a text of 24 hexadecimal digits as
    the id of that text and refuses a text of fewer than 12 bytes (older
    versions read a text of 12 bytes as an id too). *)
Class ObjectIdLib : Type := {
  castObjectId : string -> option string;
  castObjectId_hex :
    forall s, hex24 s = true -> castObjectId s = Some (Js.toLowerCase s);
  castObjectId_short :
    forall s, (String.length s < 12)%nat -> castObjectId s = None
}.

(** The text of a value between double quotes, as the messages of the
    store show it. *)
Definition quoted (s : string) : string :=
  String "034"%char (s ++ String "034"%char EmptyString).

Module MeetingModel.

(** The [CastError] of a query on the [_id] of a logged meeting. *)
Definition castError (value : string) : Exn :=
  JsError ("Cast to ObjectId failed for value " ++ quoted value
           ++ " (type string) at path " ++ quoted "_id"
           ++ " for model " ++ quoted "LoggedMeeting").

(** The fields the schema marks [required]. *)
Definition requiredPresent (m : LoggedMeeting) : bool :=
  Js.truthy (Some (lm_title m)) && Js.truthy (Some (lm_summary m))
  && Js.truthy (Some (lm_leadId m)) && Js.truthy (Some (lm_loggedBy m))
  && Js.truthy (Some (lm_organizationId m))
  && forallb (fun p => Js.truthy (Some (pa_email p))) (lm_participants m).

(** [new loggedMeetingModel(doc).save()]: the document gets its [_id],
    is validated, then appended to the collection. *)
Definition save (meetingDateTime : JsDate) (doc : string -> Z -> LoggedMeeting)
  : M LoggedMeeting :=
  fun env w =>
    let id := objectId env (created w) in
    match meetingDateTime with
    | Some t =>
        if requiredPresent (doc id t) then
          (inr (doc id t),
           set_created (S (created w))
             (db_step MeetingSave (calendarEvents w)
                (loggedMeetings w ++ [doc id t]) w))
        else
          (inl (JsError "LoggedMeeting validation failed"),
           set_created (S (created w))
             (db_step MeetingSave (calendarEvents w) (loggedMeetings w) w))
    | None =>
        (inl (JsError "LoggedMeeting validation failed"),
         set_created (S (created w))
           (db_step MeetingSave (calendarEvents w) (loggedMeetings w) w))
    end.

(** [loggedMeetingModel.find(query).exec()] *)
Definition find_ (query : LoggedMeeting -> bool) : M (list LoggedMeeting) :=
  fun _ w =>
    (inr (filter query (loggedMeetings w)),
     db_step MeetingFind (calendarEvents w) (loggedMeetings w) w).

(** [loggedMeetingModel.deleteOne({ _id: id })] for a text [id]: the
    text is cast to an [ObjectId]; the answer is the [deletedCount]. *)
Definition deleteOne {IL : ObjectIdLib} (id : string) : M Z :=
  fun _ w =>
    match castObjectId id with
    | Some oid =>
        ((if existsb (hasMeetingId oid) (loggedMeetings w) then inr 1 else inr 0),
         db_step (MeetingDeleteOne id) (calendarEvents w)
           (delete_first (hasMeetingId oid) (loggedMeetings w)) w)
    | None =>
        (inl (castError id),
         db_step (MeetingDeleteOne id) (calendarEvents w) (loggedMeetings w) w)
    end.

Definition setIds (activityId taskId : option string) (m : LoggedMeeting)
  : LoggedMeeting :=
  {| lm_id := lm_id m; lm_title := lm_title m;
     lm_meetingType := lm_meetingType m;
     lm_virtualMeetingProvider := lm_virtualMeetingProvider m;
     lm_meetingDateTime := lm_meetingDateTime m;
     lm_duration := lm_duration m; lm_summary := lm_summary m;
     lm_outcome := lm_outcome m; lm_participants := lm_participants m;
     lm_location := lm_location m; lm_leadId := lm_leadId m;
     lm_loggedBy := lm_loggedBy m; lm_organizationId := lm_organizationId m;
     lm_activityId :=
       match activityId with Some a => Some a | None => lm_activityId m end;
     lm_taskId := match taskId with Some t => Some t | None => lm_taskId m end;
     lm_attachment := lm_attachment m; lm_loggedAt := lm_loggedAt m;
     lm_isActive := lm_isActive m;
     lm_isLoggedMeeting := lm_isLoggedMeeting m |}.

(** [loggedMeetingModel.findByIdAndUpdate(id, { activityId, taskId })] *)
Definition findByIdAndUpdate (id : string) (activityId taskId : option string)
  : M unit :=
  fun _ w =>
    (inr tt,
     db_step (MeetingFindByIdAndUpdate id) (calendarEvents w)
       (update_first (hasMeetingId id) (setIds activityId taskId)
          (loggedMeetings w)) w).

End MeetingModel.

(** ** Unified feed *)

Inductive FeedSource : Type := calendar_event | logged_meeting.

Inductive FeedAttendees : Type :=
| EventAttendees (l : list Attendee)
| MeetingParticipants (l : list Participant).

(** One element of the unified local feed. *)
Record FeedItem : Type := {
  fi_id : string;
  fi_title : option string;
  fi_startTime : string;
  fi_endTime : string;
  fi_meetingLink : option string;
  fi_attendees : FeedAttendees;
  fi_location : option string;
  fi_organizer : option string;
  fi_organizerName : option string;
  fi_description : option string;
  fi_isOnlineMeeting : bool;
  fi_onlineMeetingProvider : option string;
  fi_leadId : option string;
  fi_outcome : option string;
  fi_timeZone : option string;
  fi_source : FeedSource;
  fi_loggedAt : option string;
  fi_activityId : option string;
  fi_taskId : option string;
  fi_attachment : option string;
  fi_isLoggedMeeting : bool;
  fi_duration : option Z
}.

(** [Array.prototype.sort(compareFn)].  ECMAScript specifies the sort to
    be stable, so for a consistent comparison function the result is the
    one ordering that puts [a] before [b] when [compareFn(a, b) < 0] and
    keeps the input order otherwise; insertion computes it. *)
Fixpoint sort_insert {A} (compareFn : A -> A -> Z) (x : A) (l : list A) : list A :=
  match l with
  | [] => [x]
  | y :: l' =>
      if 0 <? compareFn x y then y :: sort_insert compareFn x l'
      else x :: y :: l'
  end.

Fixpoint sort {A} (compareFn : A -> A -> Z) (l : list A) : list A :=
  match l with
  | [] => []
  | x :: l' => sort_insert compareFn x (sort compareFn l')
  end.

Fixpoint mapM {A B} (f : A -> M B) (l : list A) : M (list B) :=
  match l with
  | [] => ret []
  | x :: l' => y <- f x ;; ys <- mapM f l' ;; ret (y :: ys)
  end.

Definition option_string_eqb (a b : option string) : bool :=
  match a, b with
  | Some x, Some y => String.eqb x y
  | None, None => true
  | _, _ => false
  end.

Definition outcome_tag (o : MeetingOutcome) : string :=
  match o with
  | FOLLOW_UP_REQUIRED => "FOLLOW_UP_REQUIRED"
  | NO_RESPONSE => "NO_RESPONSE"
  | NO_SHOW_UP => "NO_SHOW_UP"
  | RESCHEDULED => "RESCHEDULED"
  | CANCELLED => "CANCELLED"
  | SCHEDULED => "SCHEDULED"
  | COMPLETED => "COMPLETED"
  | SUCCESSFUL => "SUCCESSFUL"
  end.

Definition virtualProvider_tag (p : VirtualMeetingProvider) : string :=
  match p with
  | VMP_TEAMS => "TEAMS"
  | VMP_GOOGLE_MEET => "GOOGLE_MEET"
  | VMP_ZOOM => "ZOOM"
  | VMP_OTHER => "OTHER"
  end.

(** ** Sync gateway, unified feed builder and meeting logger *)

Module Controller.
Section Gateway.

Context {DL : DateLib}.


(** [CalenderSyncController.validateHeaders]. *)
Definition validateHeaders (authHeader provider : option string)
  : Result ValidatedHeaders :=
  if negb (Js.truthy authHeader) then
    inl (UnauthorizedException "Authorization header is required")
  else if negb (Js.truthy provider) then
    inl (BadRequestException "X-Calendar-Provider header is required")
  else
    let normalizedProvider := Js.toLowerCase (Js.or_default provider EmptyString) in
    match provider_of_tag normalizedProvider with
    | None =>
        inl (BadRequestException
               ("Invalid calendar provider. Must be one of: "
                ++ Js.join ", " (map provider_tag CalendarProvider_values)))
    | Some p =>
        let accessToken := Js.remove_first "Bearer " (Js.or_default authHeader EmptyString) in
        if negb (Js.truthy (Some accessToken)) then
          inl (UnauthorizedException
                 "Invalid authorization header format. Must be Bearer token")
        else
          inr {| vh_accessToken := accessToken; vh_provider := p |}
    end.


(** [deleteEvent(eventId, authHeader, provider)] *)
Definition deleteEvent {IL : ObjectIdLib} (eventId : string)
  (authHeader provider : option string) : M DeleteEventResponse :=
  if negb (Js.truthy authHeader) || negb (Js.truthy provider) then
    deletedFromCalendar <- EventModel.deleteOne eventId ;;
    deletedFromLogged <- MeetingModel.deleteOne eventId ;;
    let deleted := deletedFromCalendar + deletedFromLogged in
    if 0 <? deleted then
      ret {| dr_success := true;
             dr_message := "Event deleted from local database";
             dr_eventId := eventId;
             dr_statusCode := 200 |}
    else throw (BadRequestException "Event not found in local database")
  else
    validated <- lift (validateHeaders authHeader provider) ;;
    match vh_provider validated with
    | GOOGLE => Google.deleteEvent (vh_accessToken validated) eventId
    | MICROSOFT => Microsoft.deleteEvent (vh_accessToken validated) eventId
    end.

(** The query on calendar events of [getLocalEvents]. *)
Definition calendarQuery (provider userId leadId : option string)
  (e : CalendarEvent) : bool :=
  ev_isActive e
  && (if Js.truthy provider
      then String.eqb (ev_provider e) (Js.toLowerCase (show provider)) else true)
  && (if Js.truthy userId then option_string_eqb (ev_userId e) userId else true)
  && (if Js.truthy leadId then option_string_eqb (ev_leadId e) leadId else true).

(** The query on logged meetings of [getLocalEvents]. *)
Definition loggedMeetingsQuery (leadId : option string) (m : LoggedMeeting) : bool :=
  lm_isActive m
  && (if Js.truthy leadId then String.eqb (lm_leadId m) (show leadId) else true).

(** The feed item of a calendar event. *)
Definition mapCalendarEvent (userProfile : UserProfile) (event : CalendarEvent)
  : FeedItem :=
  let organizerName :=
    if negb (Js.truthy (ev_organizerName event))
       && Js.truthy (up_name userProfile)
       && option_string_eqb (ev_organizer event) (up_email userProfile)
    then up_name userProfile
    else ev_organizerName event in
  let organizerName :=
    if negb (Js.truthy organizerName)
    then Some (Js.or_default (ev_organizer event) "user")
    else organizerName in
  {| fi_id := ev_externalId event;
     fi_title := ev_title event;
     fi_startTime := toISOString (ev_startTime event);
     fi_endTime := toISOString (ev_endTime event);
     fi_meetingLink := ev_meetingLink event;
     fi_attendees := EventAttendees (ev_attendees event);
     fi_location := ev_locationDetails event;
     fi_organizer := ev_organizer event;
     fi_organizerName := organizerName;
     fi_description := ev_description event;
     fi_isOnlineMeeting := ev_isOnlineMeeting event;
     fi_onlineMeetingProvider := ev_onlineMeetingProvider event;
     fi_leadId := ev_leadId event;
     fi_outcome := ev_outcome event;
     fi_timeZone := ev_timeZone event;
     fi_source := calendar_event;
     fi_loggedAt := None;
     fi_activityId := None;
     fi_taskId := None;
     fi_attachment := None;
     fi_isLoggedMeeting := false;
     fi_duration := None |}.

(** The feed item of a logged meeting, logged at the clock reading
    [loggedAt]. *)
Definition loggedMeetingItem (loggedAt : Z) (meeting : LoggedMeeting) : FeedItem :=
  {| fi_id := lm_id meeting;
     fi_title := Some (lm_title meeting);
     fi_startTime := toISOString (lm_meetingDateTime meeting);
     fi_endTime := toISOString (lm_meetingDateTime meeting);
     fi_meetingLink := None;
     fi_attendees := MeetingParticipants (lm_participants meeting);
     fi_location := lm_location meeting;
     fi_organizer := Some (lm_loggedBy meeting);
     fi_organizerName := Some (lm_loggedBy meeting);
     fi_description := Some (lm_summary meeting);
     fi_isOnlineMeeting :=
       match lm_meetingType meeting with VIRTUAL => true | _ => false end;
     fi_onlineMeetingProvider :=
       option_map virtualProvider_tag (lm_virtualMeetingProvider meeting);
     fi_leadId := Some (lm_leadId meeting);
     fi_outcome := Some (outcome_tag (lm_outcome meeting));
     fi_timeZone := None;
     fi_source := logged_meeting;
     fi_loggedAt := Some (toISOString loggedAt);
     fi_activityId := lm_activityId meeting;
     fi_taskId := lm_taskId meeting;
     fi_attachment := lm_attachment meeting;
     fi_isLoggedMeeting := true;
     fi_duration := lm_duration meeting |}.

Definition mapLoggedMeeting (meeting : LoggedMeeting) : M FeedItem :=
  n <- now ;; ret (loggedMeetingItem n meeting).

(** [new Date(b.startTime).getTime() - new Date(a.startTime).getTime()];
    a [NaN] result counts as [+0] for the sort. *)
Definition byStartTimeDesc (a b : FeedItem) : Z :=
  match Date_parse (fi_startTime b), Date_parse (fi_startTime a) with
  | Some tb, Some ta => tb - ta
  | _, _ => 0
  end.

(** The merge and sort of [getLocalEvents]. *)
Definition buildFeed (mappedCalendarEvents mappedLoggedMeetings : list FeedItem)
  : list FeedItem :=
  sort byStartTimeDesc (mappedCalendarEvents ++ mappedLoggedMeetings).

(** [getLocalEvents(provider, userId, leadId, authHeader, calendarProvider)] *)
Definition getLocalEvents (provider userId leadId authHeader calendarProvider
                           : option string) : M (list FeedItem) :=
  try_catch
    (calendarEvents <- EventModel.find_ (calendarQuery provider userId leadId) ;;
     loggedMeetings <- MeetingModel.find_ (loggedMeetingsQuery leadId) ;;
     userProfile <-
       (if option_string_eqb calendarProvider (Some (provider_tag GOOGLE))
           && Js.truthy authHeader
        then
          try_catch
            (Google.getUserProfile (Js.remove_first "Bearer " (show authHeader)))
            (fun _ => ret emptyProfile)
        else ret emptyProfile) ;;
     let mappedCalendarEvents := map (mapCalendarEvent userProfile) calendarEvents in
     mappedLoggedMeetings <- mapM mapLoggedMeeting loggedMeetings ;;
     ret (buildFeed mappedCalendarEvents mappedLoggedMeetings))
    (fun error =>
       throw (BadRequestException
                ("Failed to fetch local events: " ++ error_message error))).

(** [logMeeting(logMeetingDto, organizationId)] *)
Definition logMeeting (logMeetingDto : LogMeetingDto) (organizationId : option string)
  : M LogMeetingResponseDto :=
  try_catch
    (when (negb (Js.truthy organizationId))
       (throw (BadRequestException "X-Organization-ID header is required")) ;;
     when (match lg_meetingType logMeetingDto with VIRTUAL => true | _ => false end
           && negb (Google.isSome (lg_virtualMeetingProvider logMeetingDto)))
       (throw (BadRequestException
                 "Virtual meeting provider is required for virtual meetings")) ;;
     when (match lg_createFollowUpTask logMeetingDto with
           | Some true => true
           | _ => false
           end
           && negb (Google.isSome (lg_followUpTask logMeetingDto)))
       (throw (BadRequestException
                 "Follow-up task details are required when createFollowUpTask is true")) ;;
     loggedAt <- now ;;
     savedMeeting <-
       MeetingModel.save (Date_parse (lg_meetingDateTime logMeetingDto))
         (fun id t =>
            {| lm_id := id;
               lm_title := lg_title logMeetingDto;
               lm_meetingType := lg_meetingType logMeetingDto;
               lm_virtualMeetingProvider := lg_virtualMeetingProvider logMeetingDto;
               lm_meetingDateTime := t;
               lm_duration := lg_duration logMeetingDto;
               lm_summary := lg_summary logMeetingDto;
               lm_outcome := lg_outcome logMeetingDto;
               lm_participants :=
                 map (fun p =>
                        {| pa_email := mpd_email p;
                           pa_name := mpd_name p;
                           pa_isExternal :=
                             match mpd_isExternal p with Some b => b | None => false end |})
                   (lg_participants logMeetingDto);
               lm_location := lg_location logMeetingDto;
               lm_leadId := lg_leadId logMeetingDto;
               lm_loggedBy := "system";
               lm_organizationId := show organizationId;
               lm_activityId := None;
               lm_taskId := None;
               lm_attachment := lg_attachment logMeetingDto;
               lm_loggedAt := loggedAt;
               lm_isActive := true;
               lm_isLoggedMeeting := true |}) ;;
     activityId <-
       try_catch
         (logActivity
            {| ap_leadId := Some (lg_leadId logMeetingDto);
               ap_activityType := CALENDAR_EVENT_CREATED;
               ap_description := "Meeting logged: " ++ lg_title logMeetingDto;
               ap_performedBy := "system";
               ap_subjectId := Some (lm_id savedMeeting) |})
         (fun _ => ret None) ;;
     taskId <-
       match lg_createFollowUpTask logMeetingDto, lg_followUpTask logMeetingDto with
       | Some true, Some followUpTask =>
           createTask
             {| tp_title := fu_title followUpTask;
                tp_leadId := lg_leadId logMeetingDto;
                tp_dueDate := fu_dueDate followUpTask;
                tp_priority := Js.or_default (fu_priority followUpTask) "Medium";
                tp_description := fu_description followUpTask;
                tp_organizationId := show organizationId |}
       | _, _ => ret None
       end ;;
     when (Js.truthy activityId || Js.truthy taskId)
       (MeetingModel.findByIdAndUpdate (lm_id savedMeeting) activityId taskId) ;;
     ret {| lr_success := true;
            lr_meetingId := lm_id savedMeeting;
            lr_activityId := activityId;
            lr_taskId := taskId;
            lr_message := "Meeting logged successfully" |})
    (fun error =>
       throw (BadRequestException
                ("Failed to log meeting: " ++ error_message error))).

End Gateway.
End Controller.

(** ** Relations between the world before and after a computation *)

(** Every run of [c] relates the world it starts from to the world it
    leaves, by [R]. *)
Definition steps (R : World -> World -> Prop) {A} (c : M A) : Prop :=
  forall env w, R w (snd (c env w)).

(** The log of transport calls only grows. *)
Definition logGrows (w w' : World) : Prop :=
  exists rest, httpLog w' = (httpLog w ++ rest)%list.

(** The field [f] of every stored calendar event is as it was. *)
Definition keepsEvents {B} (f : CalendarEvent -> B) (w w' : World) : Prop :=
  map f (calendarEvents w') = map f (calendarEvents w).

(** A preorder on worlds that holds whenever the calendar events are
    untouched and the transport log has only grown. *)
Record Calm (R : World -> World -> Prop) : Prop := {
  calm_refl : forall w, R w w;
  calm_trans : forall a b c, R a b -> R b c -> R a c;
  calm_outside :
    forall w w',
      calendarEvents w' = calendarEvents w -> logGrows w w' -> R w w'
}.

(** ** The calls the adapters send *)

Definition googleDeleteCall (accessToken eventId : string) : HttpCall :=
  {| hc_method := DELETE;
     hc_url := Google.googleApiUrl ++ "/calendars/primary/events/" ++ eventId;
     hc_token := accessToken;
     hc_body := NoBody |}.

Definition googleGetCall (accessToken eventId : string) : HttpCall :=
  {| hc_method := GET;
     hc_url := Google.googleApiUrl ++ "/calendars/primary/events/" ++ eventId;
     hc_token := accessToken;
     hc_body := NoBody |}.

Definition googlePatchCall (accessToken eventId : string)
  (payload : GoogleEventPayload) : HttpCall :=
  {| hc_method := PATCH;
     hc_url := Google.googleApiUrl ++ "/calendars/primary/events/" ++ eventId;
     hc_token := accessToken;
     hc_body := GoogleBody payload |}.

Definition graphDeleteCall (accessToken eventId : string) : HttpCall :=
  {| hc_method := DELETE;
     hc_url := Microsoft.graphApiUrl ++ "me/events/" ++ eventId;
     hc_token := accessToken;
     hc_body := NoBody |}.

Definition graphProbeCall (accessToken : string) : HttpCall :=
  {| hc_method := GET;
     hc_url := Microsoft.graphApiUrl ++ "me/calendar";
     hc_token := accessToken;
     hc_body := NoBody |}.

Definition graphGetCall (accessToken eventId : string) : HttpCall :=
  {| hc_method := GET;
     hc_url := Microsoft.graphApiUrl ++ "me/events/" ++ eventId;
     hc_token := accessToken;
     hc_body := NoBody |}.

Definition graphPatchCall (accessToken eventId : string)
  (payload : GraphEventPayload) : HttpCall :=
  {| hc_method := PATCH;
     hc_url := Microsoft.graphApiUrl ++ "me/events/" ++ eventId;
     hc_token := accessToken;
     hc_body := GraphBody payload |}.

(** What a delete leaves in the local mirror. *)
Definition softDeleted (eventId : string) (events : list CalendarEvent)
  : list CalendarEvent :=
  update_first (hasExternalId eventId) (applyPatch Google.deactivate) events.


(** ** Partial updates of the times *)

(** The request supplies the start time [s] and no end time. *)
Definition startOnly (d : UpdateEventDto) (s : string) : Prop :=
  ue_startTime d = Some s /\ Js.truthy (Some s) = true
  /\ Js.truthy (ue_endTime d) = false.

(** The request supplies the end time [e] and no start time. *)
Definition endOnly (d : UpdateEventDto) (e : string) : Prop :=
  ue_endTime d = Some e /\ Js.truthy (Some e) = true
  /\ Js.truthy (ue_startTime d) = false.

(** The time [t] of a Google event carries a text that reads as the
    instant [ms]. *)
Definition googleTimeIs {DL : DateLib} (t : GoogleTime) (ms : Z) : Prop :=
  exists txt,
    Google.timeText t = Some txt /\ Js.truthy (Some txt) = true
    /\ Date_parse txt = Some ms.

(** ** The order of the unified feed *)

(** What identifies an item of the feed and places it: its id, its source
    and its start time as the feed shows it. *)
Definition orderKey (it : FeedItem) : string * FeedSource * string :=
  (fi_id it, fi_source it, fi_startTime it).

(** The instant at which an item of the feed starts. *)
Definition startOf {DL : DateLib} (it : FeedItem) : JsDate :=
  Date_parse (fi_startTime it).

Definition startsAt {DL : DateLib} (t : Z) (it : FeedItem) : bool :=
  match startOf it with
  | Some t' => t' =? t
  | None => false
  end.

(** The comparison of [getLocalEvents], on order keys. *)
Definition byStartTextDesc {DL : DateLib} (a b : string * FeedSource * string) : Z :=
  match Date_parse (snd b), Date_parse (snd a) with
  | Some tb, Some ta => tb - ta
  | _, _ => 0
  end.

(** The order keys of the stored events and meetings, in store order. *)
Definition eventKeys {DL : DateLib} (events : list CalendarEvent)
  : list (string * FeedSource * string) :=
  map (fun e => (ev_externalId e, calendar_event, toISOString (ev_startTime e))) events.

Definition meetingKeys {DL : DateLib} (meetings : list LoggedMeeting)
  : list (string * FeedSource * string) :=
  map (fun m => (lm_id m, logged_meeting, toISOString (lm_meetingDateTime m)))
    meetings.

(** The stored times are valid time values. *)
Definition validStore (w : World) : Prop :=
  Forall (fun e => validTime (ev_startTime e) = true) (calendarEvents w)
  /\ Forall (fun m => validTime (lm_meetingDateTime m) = true) (loggedMeetings w).

(** ** Requests that differ in one field *)



(** The update request that supplies the given times and nothing else. *)
Definition timesOnly (startTime endTime : option string) : UpdateEventDto :=
  {| ue_title := None; ue_leadId := None; ue_description := None;
     ue_startTime := startTime; ue_endTime := endTime; ue_timeZone := None;
     ue_isAllDay := None; ue_locationType := None; ue_locationDetails := None;
     ue_attendees := None; ue_organizer := None; ue_organizerName := None;
     ue_outcome := None |}.

(** ** Sample data *)

Module Sample.

Definition msContact (id : string) (addresses : list string)
  : Microsoft.FormattedContact :=
  {| Microsoft.fc_id := id;
     Microsoft.fc_displayName := None;
     Microsoft.fc_emailAddresses :=
       Some (map (fun a => {| Microsoft.em_address := a;
                              Microsoft.em_name := None;
                              Microsoft.em_type := None |}) addresses);
     Microsoft.fc_businessPhones := [];
     Microsoft.fc_mobilePhone := None;
     Microsoft.fc_jobTitle := None;
     Microsoft.fc_companyName := None;
     Microsoft.fc_department := None;
     Microsoft.fc_officeLocation := None;
     Microsoft.fc_source := "contacts" |}.

Definition ann : Microsoft.FormattedContact :=
  msContact "1" ["ann@example.com"].

Definition ann_again : Microsoft.FormattedContact :=
  msContact "2" ["ANN@EXAMPLE.COM"; "ann@work.example"].

Definition bob : Microsoft.FormattedContact :=
  msContact "3" ["bob@example.com"; "bob@work.example"].

Definition bob_again : Microsoft.FormattedContact :=
  msContact "4" ["Bob@Example.com"].

Definition graphEvent (id startTime endTime : string) : MicrosoftGraphEvent :=
  {| me_id := id; me_subject := Some "Review"; me_body_content := None;
     me_start := {| mt_dateTime := startTime; mt_timeZone := Some "UTC" |};
     me_end := {| mt_dateTime := endTime; mt_timeZone := Some "UTC" |};
     me_location_displayName := None; me_attendees := None;
     me_organizer := Some {| ea_address := "ann@example.com"; ea_name := Some "Ann" |};
     me_isAllDay := Some false; me_isOnlineMeeting := None;
     me_onlineMeetingProvider := None; me_joinUrl := None |}.

Definition googleEvent (id startTime endTime : string) : GoogleCalendarEvent :=
  {| ge_id := id; ge_summary := Some "Review"; ge_description := None;
     ge_start := {| gt_dateTime := Some startTime; gt_date := None;
                    gt_timeZone := Some "UTC" |};
     ge_end := {| gt_dateTime := Some endTime; gt_date := None;
                  gt_timeZone := Some "UTC" |};
     ge_location := None; ge_locationDetails := None; ge_attendees := None;
     ge_organizer := Some {| go_email := Some "ann@example.com";
                             go_displayName := Some "Ann"; go_name := None |};
     ge_hangoutLink := None; ge_conferenceData := None;
     ge_isOnlineMeeting := None; ge_onlineMeetingProvider := None;
     ge_outcome := None; ge_leadId := None |}.

(** A create request for the given times and location kind. *)
Definition createRequest (startTime endTime : string)
  (kind : option MeetingLocationType) : CreateEventDto :=
  {| ce_title := Some "Review"; ce_description := None;
     ce_startTime := startTime; ce_endTime := endTime;
     ce_timeZone := None; ce_isAllDay := None;
     ce_locationType := kind; ce_locationDetails := None;
     ce_attendees := Some []; ce_organizer := Some "ann@example.com";
     ce_leadId := Some "lead-1"; ce_outcome := None |}.

(** A mirrored event with the given external id and times. *)
Definition storedEvent (id : string) (startTime endTime : Z) : CalendarEvent :=
  {| ev_externalId := id; ev_provider := "google";
     ev_userId := Some "ann@example.com"; ev_leadId := Some "lead-1";
     ev_title := Some "Review"; ev_description := None;
     ev_startTime := startTime; ev_endTime := endTime;
     ev_timeZone := Some "UTC"; ev_isAllDay := false;
     ev_locationType := Some GOOGLE_MEET; ev_locationDetails := None;
     ev_attendees := []; ev_organizer := Some "ann@example.com";
     ev_organizerName := Some "Ann"; ev_meetingLink := None;
     ev_isOnlineMeeting := true; ev_onlineMeetingProvider := Some "google_meet";
     ev_isActive := true; ev_outcome := None |}.

(** A world holding the given events and meetings, before any call. *)
Definition world (events : list CalendarEvent) (meetings : list LoggedMeeting)
  : World :=
  {| calendarEvents := events; loggedMeetings := meetings; httpLog := [];
     dbLog := []; activityLog := []; taskLog := []; clockReads := 0;
     randomDraws := 0; created := 0 |}.

(** An outside whose provider answers every call with [answer], whose
    other services work, and whose clock stands at [time]. *)
Definition outside (answer : HttpCall -> HttpError + HttpData) (time : Z) : Env :=
  {| transport := fun _ call => answer call;
     activityPost := fun _ _ => Some (Some "activity-1");
     taskService := fun _ _ => inr (Some "task-1");
     clock := fun _ => time;
     random := fun _ => "r4nd0m";
     objectId := fun n => "meeting-" ++ showZ (Z.of_nat n) |}.

Definition networkDown : HttpError :=
  {| he_status := None; he_statusText := None; he_error := None;
     he_code := Some "ETIMEDOUT"; he_message := Some "timeout of 5000ms exceeded" |}.

(** An otherwise valid log-meeting request. *)
Definition meetingDto (kind : MeetingType)
  (virtualProvider : option VirtualMeetingProvider) : LogMeetingDto :=
  {| lg_leadId := "lead-1"; lg_title := "Kick-off";
     lg_meetingType := kind; lg_virtualMeetingProvider := virtualProvider;
     lg_meetingDateTime := "1000Z";
     lg_participants :=
       [ {| mpd_email := "bob@example.com"; mpd_name := Some "Bob";
            mpd_isExternal := Some true |} ];
     lg_summary := "Agreed on the scope"; lg_outcome := SUCCESSFUL;
     lg_createFollowUpTask := None; lg_followUpTask := None;
     lg_attachment := None; lg_duration := Some 30; lg_location := None |}.

(** A provider that answers nothing useful; no call is expected. *)
Definition silent (call : HttpCall) : HttpError + HttpData := inr NoData.

(** A Graph provider that grants calendar access and answers every event
    request with [ev]. *)
Definition graph (ev : MicrosoftGraphEvent) (call : HttpCall)
  : HttpError + HttpData :=
  match hc_method call with
  | GET =>
      if String.eqb (hc_url call) (Microsoft.graphApiUrl ++ "me/calendar")
      then inr NoData else inr (GraphEventData ev)
  | POST => inr (GraphEventData ev)
  | PATCH => inr (GraphEventData ev)
  | DELETE => inr NoData
  end.

(** A Google provider that answers every event request with [ev] and has
    no profile to give. *)
Definition google (ev : GoogleCalendarEvent) (call : HttpCall)
  : HttpError + HttpData :=
  match hc_method call with
  | GET =>
      if String.eqb (hc_url call) "https://www.googleapis.com/oauth2/v2/userinfo"
      then inl networkDown else inr (GoogleEventData ev)
  | POST => inr (GoogleEventData ev)
  | PATCH => inr (GoogleEventData ev)
  | DELETE => inr NoData
  end.

(** A Google provider that holds the event [before] and answers a patch
    with [after]. *)
Definition googleUpdating (before after : GoogleCalendarEvent) (call : HttpCall)
  : HttpError + HttpData :=
  match hc_method call with
  | GET =>
      if String.eqb (hc_url call) "https://www.googleapis.com/oauth2/v2/userinfo"
      then inl networkDown else inr (GoogleEventData before)
  | PATCH => inr (GoogleEventData after)
  | POST => inr (GoogleEventData after)
  | DELETE => inr NoData
  end.

(** A Graph provider that grants calendar access, holds the event
    [before] and answers a patch with [after]. *)
Definition graphUpdating (before after : MicrosoftGraphEvent) (call : HttpCall)
  : HttpError + HttpData :=
  match hc_method call with
  | GET =>
      if String.eqb (hc_url call) (Microsoft.graphApiUrl ++ "me/calendar")
      then inr NoData else inr (GraphEventData before)
  | PATCH => inr (GraphEventData after)
  | POST => inr (GraphEventData after)
  | DELETE => inr NoData
  end.

(** A logged meeting with the given id and time. *)
Definition storedMeeting (id : string) (time : Z) : LoggedMeeting :=
  {| lm_id := id; lm_title := "Kick-off"; lm_meetingType := PHONE;
     lm_virtualMeetingProvider := None; lm_meetingDateTime := time;
     lm_duration := Some 30; lm_summary := "Agreed on the scope";
     lm_outcome := SUCCESSFUL; lm_participants := []; lm_location := None;
     lm_leadId := "lead-1"; lm_loggedBy := "system";
     lm_organizationId := "org-1"; lm_activityId := None; lm_taskId := None;
     lm_attachment := None; lm_loggedAt := 0; lm_isActive := true;
     lm_isLoggedMeeting := true |}.

(** Two mirrored events and two logged meetings; the event "e1" and the
    meeting "m1" start at the same instant. *)
Definition feedWorld : World :=
  world [storedEvent "e1" 3000 4000; storedEvent "e2" 1000 2000]
        [storedMeeting "m1" 3000; storedMeeting "m2" 5000].

End Sample.

(** ** A reference implementation of the date interface

    Times are written as their millisecond count in decimal, followed by
    [Z].  The instance shows that the interface can be implemented, and
    lets the model run on concrete requests. *)

Module Reference.

Definition render (t : Z) : string :=
  NilZero.string_of_int (Z.to_int t) ++ "Z".

(** Drop a final [Z]. *)
Fixpoint stripZ (s : string) : string :=
  match s with
  | EmptyString => EmptyString
  | String c s' =>
      match s' with
      | EmptyString => if Ascii.eqb c "Z"%char then EmptyString else s
      | String _ _ => String c (stripZ s')
      end
  end.

Definition read (s : string) : JsDate :=
  match NilZero.int_of_string (stripZ s) with
  | Some d => timeClip (Z.of_int d)
  | None => None
  end.

(** The cast of the current driver: the texts of 24 hexadecimal digits,
    and no other. *)
Definition readObjectId (s : string) : option string :=
  if hex24 s then Some (Js.toLowerCase s) else None.

End Reference.

(** ** Sync gateway: the create route *)

Module Routes.
Section Gateway.

Context {DL : DateLib}.

(** [createEvent(eventData, authHeader, provider)] of the controller. *)
Definition createEvent (eventData : CreateEventDto)
  (authHeader provider : option string) : M CalendarResponse :=
  validated <- lift (Controller.validateHeaders authHeader provider) ;;
  match vh_provider validated with
  | GOOGLE => Google.createEvent (vh_accessToken validated) eventData
  | MICROSOFT => Microsoft.createEvent (vh_accessToken validated) eventData
  end.

End Gateway.
End Routes.

(** ** Text in the ASCII range *)

(** Every byte of the text is below 128: the text has ASCII characters
    only.  On such a text [Js.toLowerCase], which folds the letters A to
    Z, is [String.prototype.toLowerCase]; on other text the platform
    folds further letters. *)
Definition asciiText (s : string) : bool :=
  forallb (fun c => (nat_of_ascii c <? 128)%nat) (list_ascii_of_string s).

(** ** Google contacts *)

Module GoogleContacts.

(** The [Contact] of the People API, by the fields [processContacts]
    reads. *)
Record ContactName : Type := {
  cn_displayName : option string;
  cn_givenName : option string;
  cn_familyName : option string
}.

Record ContactEmail : Type := {
  cem_value : string;
  cem_displayName : option string;
  cem_type : option string
}.

Record ContactPhone : Type := {
  cp_value : string;
  cp_type : option string
}.

Record ContactOrganization : Type := {
  co_name : option string;
  co_title : option string
}.

Record Contact : Type := {
  ct_resourceName : string;
  ct_names : option (list ContactName);
  ct_emailAddresses : option (list ContactEmail);
  ct_phoneNumbers : option (list ContactPhone);
  ct_organizations : option (list ContactOrganization)
}.

(** [xs?.[0]?.field] *)
Definition first_of {A} (xs : option (list A)) (field : A -> option string)
  : option string :=
  match xs with
  | Some (x :: _) => field x
  | _ => None
  end.

(** The entry [processContacts] builds for one contact. *)
Definition details (contact : Contact) : Google.ContactWithDetails :=
  {| Google.cw_id := ct_resourceName contact;
     Google.cw_name :=
       Js.or_default
         (Js.or_else (first_of (ct_names contact) cn_displayName)
            (first_of (ct_names contact) cn_givenName))
         "Unknown";
     Google.cw_email :=
       Js.or_default
         (first_of (ct_emailAddresses contact) (fun e => Some (cem_value e)))
         EmptyString;
     Google.cw_phone :=
       Js.or_default
         (first_of (ct_phoneNumbers contact) (fun p => Some (cp_value p)))
         EmptyString;
     Google.cw_organization :=
       Js.or_default (first_of (ct_organizations contact) co_name) EmptyString;
     Google.cw_title :=
       Js.or_default (first_of (ct_organizations contact) co_title) EmptyString |}.

(** [processContacts(contacts)]: the contacts that carry an email, each
    once per email. *)
Definition processContacts (contacts : list Contact)
  : list Google.ContactWithDetails :=
  let processedContacts :=
    fold_left
      (fun processed contact =>
         if Js.truthy (Some (Google.cw_email (details contact)))
         then (processed ++ [details contact])%list
         else processed)
      contacts [] in
  Google.removeDuplicateContacts processedContacts.

(** The key [removeDuplicateContacts] files a contact under. *)
Definition emailKey (contact : Google.ContactWithDetails) : string :=
  Js.toLowerCase (Google.cw_email contact).

End GoogleContacts.

(** ** Microsoft contacts *)

Module MicrosoftContacts.

(** [MicrosoftGraphContact] and [MicrosoftGraphUser]: the two have the
    same fields. *)
Record MicrosoftGraphContact : Type := {
  gc_id : string;
  gc_displayName : option string;
  gc_emailAddresses : option (list Microsoft.GraphEmail);
  gc_businessPhones : option (list string);
  gc_mobilePhone : option string;
  gc_jobTitle : option string;
  gc_companyName : option string;
  gc_department : option string;
  gc_officeLocation : option string
}.

(** The entry [getContacts] builds for a contact ([source] is
    ['contacts']) or a person (['people']). *)
Definition format (source : string) (contact : MicrosoftGraphContact)
  : Microsoft.FormattedContact :=
  {| Microsoft.fc_id := gc_id contact;
     Microsoft.fc_displayName := gc_displayName contact;
     Microsoft.fc_emailAddresses :=
       Some (match gc_emailAddresses contact with
             | Some emails =>
                 map (fun email =>
                        {| Microsoft.em_address := Microsoft.em_address email;
                           Microsoft.em_name := Microsoft.em_name email;
                           Microsoft.em_type := Microsoft.em_type email |})
                   emails
             | None => []
             end);
     Microsoft.fc_businessPhones :=
       match gc_businessPhones contact with Some l => l | None => [] end;
     Microsoft.fc_mobilePhone := gc_mobilePhone contact;
     Microsoft.fc_jobTitle := gc_jobTitle contact;
     Microsoft.fc_companyName := gc_companyName contact;
     Microsoft.fc_department := gc_department contact;
     Microsoft.fc_officeLocation := gc_officeLocation contact;
     Microsoft.fc_source := source |}.

(** [uniqueContacts] of [getContacts], from the [value] of the two
    answers ([me/contacts], then [me/people]). *)
Definition uniqueContacts (contacts people : option (list MicrosoftGraphContact))
  : list Microsoft.FormattedContact :=
  let formattedContacts :=
    match contacts with Some l => map (format "contacts") l | None => [] end in
  let formattedPeople :=
    match people with Some l => map (format "people") l | None => [] end in
  let allContacts := (formattedContacts ++ formattedPeople)%list in
  Microsoft.removeDuplicateContacts allContacts.

(** The keys [removeDuplicateContacts] files a contact under: its
    addresses in lower case. *)
Definition addresses (contact : Microsoft.FormattedContact) : list string :=
  match Microsoft.fc_emailAddresses contact with
  | Some emails => map (fun email => Js.toLowerCase (Microsoft.em_address email)) emails
  | None => []
  end.

(** The addresses of the contact are ASCII text. *)
Definition asciiAddresses (contact : Microsoft.FormattedContact) : bool :=
  match Microsoft.fc_emailAddresses contact with
  | Some emails => forallb (fun email => asciiText (Microsoft.em_address email)) emails
  | None => true
  end.

(** The contact carries the address with the key [key]. *)
Definition carries (key : string) (contact : Microsoft.FormattedContact) : bool :=
  existsb (fun address => String.eqb address key) (addresses contact).

End MicrosoftContacts.

(** ** The create calls *)

(** The request id drawn for a Google Meet conference, if the request
    asks for one. *)
Definition requestIdOf (env : Env) (w : World) (eventData : CreateEventDto)
  : option string :=
  if Google.isKind GOOGLE_MEET (ce_locationType eventData)
  then Some (random env (randomDraws w)) else None.

Definition googleCreateCall (accessToken : string) (eventData : CreateEventDto)
  (requestId : option string) : HttpCall :=
  {| hc_method := POST;
     hc_url := Google.googleApiUrl ++ "/calendars/primary/events?conferenceDataVersion=1";
     hc_token := accessToken;
     hc_body := GoogleBody (Google.createPayload eventData requestId) |}.

Definition graphCreateCall (accessToken : string) (eventData : CreateEventDto)
  (attendees : list AttendeeDto) : HttpCall :=
  {| hc_method := POST;
     hc_url := Microsoft.graphApiUrl ++ "me/events";
     hc_token := accessToken;
     hc_body :=
       GraphBody (Microsoft.createPayload eventData
                    (map Microsoft.createAttendee attendees)) |}.

Definition googleProfileCall (accessToken : string) : HttpCall :=
  {| hc_method := GET;
     hc_url := "https://www.googleapis.com/oauth2/v2/userinfo";
     hc_token := accessToken;
     hc_body := NoBody |}.

(** ** Further sample data *)

Module Scenario.

(** A create request that names no lead. *)
Definition requestWithoutLead (startTime endTime : string) : CreateEventDto :=
  {| ce_title := Some "Review"; ce_description := None;
     ce_startTime := startTime; ce_endTime := endTime;
     ce_timeZone := None; ce_isAllDay := None;
     ce_locationType := Some IN_PERSON; ce_locationDetails := Some "Room 4";
     ce_attendees := Some []; ce_organizer := Some "ann@example.com";
     ce_leadId := None; ce_outcome := None |}.

(** A contact of the People API with the given emails. *)
Definition googleContact (id : string) (emails : list string)
  : GoogleContacts.Contact :=
  {| GoogleContacts.ct_resourceName := id;
     GoogleContacts.ct_names := None;
     GoogleContacts.ct_emailAddresses :=
       Some (map (fun e => {| GoogleContacts.cem_value := e;
                              GoogleContacts.cem_displayName := None;
                              GoogleContacts.cem_type := None |}) emails);
     GoogleContacts.ct_phoneNumbers := None;
     GoogleContacts.ct_organizations := None |}.

(** An answer of Google to an event request, with two attendees. *)
Definition googleEventWithAttendees (id startTime endTime : string)
  : GoogleCalendarEvent :=
  {| ge_id := id; ge_summary := Some "Review"; ge_description := None;
     ge_start := {| gt_dateTime := Some startTime; gt_date := None;
                    gt_timeZone := Some "UTC" |};
     ge_end := {| gt_dateTime := Some endTime; gt_date := None;
                  gt_timeZone := Some "UTC" |};
     ge_location := None; ge_locationDetails := None;
     ge_attendees :=
       Some [ {| ga_email := "bob@example.com"; ga_displayName := Some "Bob";
                 ga_name := None; ga_responseStatus := Some "needsAction" |};
              {| ga_email := "eve@example.com"; ga_displayName := None;
                 ga_name := None; ga_responseStatus := None |} ];
     ge_organizer := Some {| go_email := Some "ann@example.com";
                             go_displayName := Some "Ann"; go_name := None |};
     ge_hangoutLink := None; ge_conferenceData := None;
     ge_isOnlineMeeting := None; ge_onlineMeetingProvider := None;
     ge_outcome := None; ge_leadId := None |}.

(** An answer of Microsoft Graph to an event request, with two
    attendees. *)
Definition graphEventWithAttendees (id startTime endTime : string)
  : MicrosoftGraphEvent :=
  {| me_id := id; me_subject := Some "Review"; me_body_content := None;
     me_start := {| mt_dateTime := startTime; mt_timeZone := Some "UTC" |};
     me_end := {| mt_dateTime := endTime; mt_timeZone := Some "UTC" |};
     me_location_displayName := None;
     me_attendees :=
       Some [ {| gra_emailAddress :=
                   {| ea_address := "bob@example.com"; ea_name := Some "Bob" |};
                 gra_status := Some "none"; gra_type := Some "required" |};
              {| gra_emailAddress :=
                   {| ea_address := "eve@example.com"; ea_name := None |};
                 gra_status := None; gra_type := None |} ];
     me_organizer := Some {| ea_address := "ann@example.com"; ea_name := Some "Ann" |};
     me_isAllDay := Some false; me_isOnlineMeeting := None;
     me_onlineMeetingProvider := None; me_joinUrl := None |}.

End Scenario.

(** ** Updates in place *)

(** The fields that identify a mirrored record, and its active flag. *)
Definition identity (e : CalendarEvent) : string * string * option string * bool :=
  (ev_externalId e, ev_provider e, ev_userId e, ev_isActive e).

(** The world [w'] differs from [w], in its calendar events, at most in
    the first record of the event [eventId], which has kept its identity. *)
Definition updatesInPlace (eventId : string) (w w' : World) : Prop :=
  exists g : CalendarEvent -> CalendarEvent,
    (forall e, identity (g e) = identity e)
    /\ calendarEvents w'
       = update_first (hasExternalId eventId) g (calendarEvents w).

(** ** The activity service seen from an operation *)

(** The same outside, with another activity service. *)
Definition withActivityPost
  (post : list ActivityPayload -> ActivityPayload -> option (option string))
  (env : Env) : Env :=
  {| transport := transport env;
     activityPost := post;
     taskService := taskService env;
     clock := clock env;
     random := random env;
     objectId := objectId env |}.

(** The computation runs the same way, to the same result and the same
    world, whatever the activity service answers. *)
Definition ignoresActivityService {A} (c : M A) : Prop :=
  forall post env w, c (withActivityPost post env) w = c env w.

(** The computation leaves the same world whatever the activity service
    answers; its result may differ. *)
Definition sameWorldWithoutActivityService {A} (c : M A) : Prop :=
  forall post env w, snd (c (withActivityPost post env) w) = snd (c env w).

(** ** The calls an operation sends *)

(** From [w] to [w'] the transport log has grown by calls that all carry
    the token [token] and go to a URL under [base]. *)
Definition callsCarry (token base : string) (w w' : World) : Prop :=
  exists rest,
    httpLog w' = (httpLog w ++ rest)%list
    /\ Forall (fun call => hc_token call = token /\ prefix base (hc_url call) = true)
         rest.

(** A preorder on worlds that holds whenever the transport log is
    untouched. *)
Record Quiet (R : World -> World -> Prop) : Prop := {
  quiet_refl : forall w, R w w;
  quiet_trans : forall a b c, R a b -> R b c -> R a c;
  quiet_silent : forall w w', httpLog w' = httpLog w -> R w w'
}.

(** * Properties *)

(** ** The reference implementation obeys the law of the date interface *)

Lemma stripZ_app_Z (s : string) : Reference.stripZ (s ++ "Z") = s.
Proof.
  induction s as [|c s IH]; [reflexivity|].
  simpl. destruct s as [|c' s']; [reflexivity|].
  simpl in IH |- *. now rewrite IH.
Qed.

Lemma to_int_not_nil (t : Z) :
  Z.to_int t <> Decimal.Pos Decimal.Nil /\ Z.to_int t <> Decimal.Neg Decimal.Nil.
Proof.
  destruct t as [|p|p]; simpl; split; try discriminate;
    intros H; injection H as H; now apply (DecimalPos.Unsigned.to_uint_nonnil p).
Qed.

Lemma read_render (t : Z) :
  validTime t = true -> Reference.read (Reference.render t) = Some t.
Proof.
  intros Hv. unfold Reference.read, Reference.render.
  rewrite stripZ_app_Z.
  destruct (to_int_not_nil t) as [Hp Hn].
  rewrite (NilZero.isi (Z.to_int t) Hp Hn).
  rewrite DecimalZ.of_to. unfold timeClip. now rewrite Hv.
Qed.

(** The reference instance: all three functions use the decimal text. *)
#[local] Instance decimalDates : DateLib :=
  {| Date_parse := Reference.read;
     parseISO := Reference.read;
     toISOString := Reference.render;
     Date_parse_toISOString := read_render |}.

Lemma readObjectId_hex (s : string) :
  hex24 s = true -> Reference.readObjectId s = Some (Js.toLowerCase s).
Proof. intros H. unfold Reference.readObjectId. now rewrite H. Qed.

Lemma readObjectId_short (s : string) :
  (String.length s < 12)%nat -> Reference.readObjectId s = None.
Proof.
  intros H. unfold Reference.readObjectId, hex24.
  replace (String.length s =? 24)%nat with false; [reflexivity|].
  symmetry. apply Nat.eqb_neq. lia.
Qed.

(** The reference instance of the cast. *)
#[local] Instance hexIds : ObjectIdLib :=
  {| castObjectId := Reference.readObjectId;
     castObjectId_hex := readObjectId_hex;
     castObjectId_short := readObjectId_short |}.

(** ** Sync gateway: header validation *)

Example validateHeaders_ok :
  Controller.validateHeaders (Some "Bearer valid-token") (Some "Google")
  = inr {| vh_accessToken := "valid-token"; vh_provider := GOOGLE |}.
Proof. reflexivity. Qed.

Lemma toLowerCase_idempotent (s : string) :
  Js.toLowerCase (Js.toLowerCase s) = Js.toLowerCase s.
Proof.
  induction s as [|c s IH]; [reflexivity|]. simpl. rewrite IH. f_equal.
  unfold Js.lower_ascii.
  destruct (Js.is_upper c) eqn:Hu; [|now rewrite Hu].
  unfold Js.is_upper in *.
  apply andb_true_iff in Hu as [H1 H2].
  apply Nat.leb_le in H1, H2.
  rewrite nat_ascii_embedding by lia.
  replace ((65 <=? nat_of_ascii c + 32)%nat && (nat_of_ascii c + 32 <=? 90)%nat)
    with false; [reflexivity|].
  symmetry. apply andb_false_iff. right. apply Nat.leb_gt. lia.
Qed.

(** Without an authorization header the request is unauthorized. *)
Lemma validateHeaders_no_authorization (authHeader provider : option string) :
  Js.truthy authHeader = false ->
  Controller.validateHeaders authHeader provider
  = inl (UnauthorizedException "Authorization header is required").
Proof. intros H. unfold Controller.validateHeaders. now rewrite H. Qed.

(** The provider header is matched against the known tags whatever its
    letter case, and anything else is a bad request. *)
Lemma validateHeaders_provider (authHeader provider : option string) :
  Js.truthy authHeader = true ->
  Js.truthy provider = true ->
  match provider_of_tag (Js.toLowerCase (Js.or_default provider EmptyString)) with
  | None =>
      exists msg,
        Controller.validateHeaders authHeader provider = inl (BadRequestException msg)
  | Some p =>
      forall r,
        Controller.validateHeaders authHeader provider = inr r -> vh_provider r = p
  end.
Proof.
  intros Ha Hp. unfold Controller.validateHeaders. rewrite Ha, Hp. simpl.
  destruct (provider_of_tag _) as [p|]; [|eauto].
  intros r. destruct (negb _); [discriminate|]. intros H; injection H as <-.
  reflexivity.
Qed.

(** A bearer header with an empty token is unauthorized. *)
Lemma validateHeaders_empty_token (provider : option string) (p : CalendarProvider) :
  Js.truthy provider = true ->
  provider_of_tag (Js.toLowerCase (Js.or_default provider EmptyString)) = Some p ->
  Controller.validateHeaders (Some "Bearer ") provider
  = inl (UnauthorizedException
           "Invalid authorization header format. Must be Bearer token").
Proof.
  intros Hp Hk. unfold Controller.validateHeaders. rewrite Hp. simpl.
  now rewrite Hk.
Qed.

(** C5, at the input on which the code departs from it: an authorization
    header that is not a bearer token ("Basic abc") is not refused as
    unauthorized; it passes validation and the whole header value becomes
    the access token. *)
Theorem validateHeaders_accepts_non_bearer :
  Controller.validateHeaders (Some "Basic abc") (Some "google")
  = inr {| vh_accessToken := "Basic abc"; vh_provider := GOOGLE |}.
Proof. reflexivity. Qed.

(** A header made of the scheme alone is accepted in the same way. *)
Example validateHeaders_accepts_bare_scheme :
  Controller.validateHeaders (Some "Bearer") (Some "MICROSOFT")
  = inr {| vh_accessToken := "Bearer"; vh_provider := MICROSOFT |}.
Proof. reflexivity. Qed.

(** ** Contact de-duplication *)

Section FirstWins.

(** A map filled in input order under [if (!m.has(key)) m.set(key, c)],
    for contacts of any type [C] keyed by [key]. *)
Variables (C : Type) (key : C -> string).

Let step (m : list (string * C)) (c : C) := Google.setIfAbsent (key c) c m.

Let keyIs (k : string) (kv : string * C) : bool := String.eqb (fst kv) k.

Lemma has_false_filter (k : string) (m : list (string * C)) :
  Google.has k m = false -> filter (keyIs k) m = [].
Proof.
  unfold Google.has. induction m as [|kv m IH]; simpl; [reflexivity|].
  intros H. apply orb_false_iff in H as [H1 H2].
  unfold keyIs at 1. rewrite H1. now apply IH.
Qed.

Lemma has_app (k : string) (m1 m2 : list (string * C)) :
  Google.has k (m1 ++ m2) = Google.has k m1 || Google.has k m2.
Proof. unfold Google.has. apply existsb_app. Qed.

(** The entries of the map under a key [k], after the loop over [l]
    started from the map [m]. *)
Lemma fold_step_filter (l : list C) :
  forall (m : list (string * C)) (k : string),
    filter (keyIs k) (fold_left step l m)
    = if Google.has k m then filter (keyIs k) m
      else match find (fun c => String.eqb (key c) k) l with
           | Some c => [(key c, c)]
           | None => []
           end.
Proof.
  induction l as [|c l IH]; intros m k; simpl.
  - destruct (Google.has k m) eqn:Hk; [reflexivity|]. now apply has_false_filter.
  - rewrite IH. unfold step at 1 2, Google.setIfAbsent.
    destruct (Google.has (key c) m) eqn:Hc.
    + destruct (Google.has k m) eqn:Hk; [reflexivity|].
      destruct (String.eqb (key c) k) eqn:E; [|reflexivity].
      apply String.eqb_eq in E. congruence.
    + rewrite has_app, filter_app. simpl.
      change (keyIs k (key c, c)) with (String.eqb (key c) k).
      rewrite orb_false_r.
      destruct (Google.has k m) eqn:Hk; simpl.
      * destruct (String.eqb (key c) k) eqn:E; [|now rewrite app_nil_r].
        apply String.eqb_eq in E. congruence.
      * destruct (String.eqb (key c) k) eqn:E; [|reflexivity].
        now rewrite (has_false_filter _ _ Hk).
Qed.

Lemma fold_step_keys (l : list C) :
  forall m : list (string * C),
    Forall (fun kv => fst kv = key (snd kv)) m ->
    Forall (fun kv => fst kv = key (snd kv)) (fold_left step l m).
Proof.
  induction l as [|c l IH]; intros m Hm; simpl; [assumption|].
  apply IH. unfold step, Google.setIfAbsent.
  destruct (Google.has (key c) m); [assumption|].
  apply Forall_app. split; [assumption|]. now constructor.
Qed.

Lemma filter_map_snd (k : string) (m : list (string * C)) :
  Forall (fun kv => fst kv = key (snd kv)) m ->
  filter (fun c => String.eqb (key c) k) (map snd m) = map snd (filter (keyIs k) m).
Proof.
  induction 1 as [|kv m Hkv _ IH]; simpl; [reflexivity|].
  unfold keyIs at 1. rewrite Hkv.
  destruct (String.eqb (key (snd kv)) k); simpl; now rewrite IH.
Qed.

(** Under every key the values of the map hold exactly one contact: the
    first of the input with that key. *)
Lemma first_wins (contacts : list C) (k : string) :
  filter (fun c => String.eqb (key c) k)
    (map snd (fold_left (fun m c => Google.setIfAbsent (key c) c m) contacts []))
  = match find (fun c => String.eqb (key c) k) contacts with
    | Some c => [c]
    | None => []
    end.
Proof.
  change (filter (fun c => String.eqb (key c) k)
            (map snd (fold_left step contacts []))
          = match find (fun c => String.eqb (key c) k) contacts with
            | Some c => [c]
            | None => []
            end).
  rewrite filter_map_snd by (apply fold_step_keys; constructor).
  rewrite fold_step_filter. simpl.
  now destruct (find _ contacts).
Qed.

End FirstWins.

(** The Google routine keeps, for every lowercased email, exactly one
    contact: the first of the input that carries it. *)
Lemma google_removeDuplicateContacts_first
  (contacts : list Google.ContactWithDetails) (k : string) :
  filter (fun c => String.eqb (Js.toLowerCase (Google.cw_email c)) k)
    (Google.removeDuplicateContacts contacts)
  = match find (fun c => String.eqb (Js.toLowerCase (Google.cw_email c)) k) contacts with
    | Some c => [c]
    | None => []
    end.
Proof.
  unfold Google.removeDuplicateContacts.
  apply (first_wins (fun c => Js.toLowerCase (Google.cw_email c))).
Qed.

(** So does the Microsoft routine as long as every contact carries exactly
    one address. *)
Lemma microsoft_removeDuplicateContacts_single_address
  (contacts : list Microsoft.FormattedContact) (k : string) :
  Forall (fun c => exists e, Microsoft.fc_emailAddresses c = Some [e]) contacts ->
  let key c :=
    match Microsoft.fc_emailAddresses c with
    | Some (e :: _) => Js.toLowerCase (Microsoft.em_address e)
    | _ => EmptyString
    end in
  filter (fun c => String.eqb (key c) k) (Microsoft.removeDuplicateContacts contacts)
  = match find (fun c => String.eqb (key c) k) contacts with
    | Some c => [c]
    | None => []
    end.
Proof.
  intros Hsingle key. rewrite <- (first_wins key).
  unfold Microsoft.removeDuplicateContacts. do 2 f_equal.
  generalize (@nil (string * Microsoft.FormattedContact)).
  induction Hsingle as [|c l [e He] _ IH]; intros m; [reflexivity|].
  cbn [fold_left]. rewrite He. cbn [fold_left]. rewrite IH.
  replace (key c) with (Js.toLowerCase (Microsoft.em_address e));
    [reflexivity | subst key; cbv beta; now rewrite He].
Qed.

(** Of two Google contacts whose emails differ only in letter case, the
    later one is not in the output under that email: the one entry under
    it is the first contact of the input with that email. *)
Lemma google_duplicates_differing_in_case
  (before between after : list Google.ContactWithDetails)
  (a b : Google.ContactWithDetails) :
  Js.toLowerCase (Google.cw_email a) = Js.toLowerCase (Google.cw_email b) ->
  (forall c, In c before ->
             Js.toLowerCase (Google.cw_email c) <> Js.toLowerCase (Google.cw_email a)) ->
  filter (fun c => String.eqb (Js.toLowerCase (Google.cw_email c))
                     (Js.toLowerCase (Google.cw_email a)))
    (Google.removeDuplicateContacts (before ++ a :: between ++ b :: after))
  = [a].
Proof.
  intros Hab Hbefore. rewrite google_removeDuplicateContacts_first.
  assert (H : find (fun c => String.eqb (Js.toLowerCase (Google.cw_email c))
                               (Js.toLowerCase (Google.cw_email a)))
                (before ++ a :: between ++ b :: after) = Some a).
  { induction before as [|c before IH]; simpl.
    - now rewrite String.eqb_refl.
    - destruct (String.eqb _ _) eqn:E.
      + apply String.eqb_eq in E. exfalso. apply (Hbefore c); [now left|exact E].
      + apply IH. intros c' Hc'. apply Hbefore. now right. }
  now rewrite H.
Qed.

(** C8, at the input on which the code departs from it: two Microsoft
    contacts share an email address up to letter case, the second one
    carries a further address, and both are in the output; a contact with
    two addresses of its own is in the output twice while its
    case-variant duplicate is dropped. *)
Theorem microsoft_removeDuplicateContacts_keeps_duplicates :
  Microsoft.removeDuplicateContacts [Sample.ann; Sample.ann_again]
  = [Sample.ann; Sample.ann_again]
  /\ Microsoft.removeDuplicateContacts [Sample.bob; Sample.bob_again]
     = [Sample.bob; Sample.bob].
Proof. split; reflexivity. Qed.

(** ** Microsoft: location kinds *)




(** ** Meeting logger: validation comes first *)

(** C6.  [logMeeting] rejects a request with an InvalidRequest error when
    the organization id is empty, or the meeting is virtual without a
    virtual-provider tag, or a follow-up task is requested without its
    details; the world is left as it was, so no call reached the store
    and no logged meeting was created or saved. *)
Theorem logMeeting_validates_before_persisting
  {DL : DateLib} (env : Env) (w : World)
  (dto : LogMeetingDto) (organizationId : option string) :
  Js.truthy organizationId = false
  \/ (lg_meetingType dto = VIRTUAL /\ lg_virtualMeetingProvider dto = None)
  \/ (lg_createFollowUpTask dto = Some true /\ lg_followUpTask dto = None) ->
  exists msg,
    Controller.logMeeting dto organizationId env w = (inl (BadRequestException msg), w)
    /\ dbLog (snd (Controller.logMeeting dto organizationId env w)) = dbLog w
    /\ loggedMeetings (snd (Controller.logMeeting dto organizationId env w))
       = loggedMeetings w.
Proof.
  intros H.
  assert (E : exists msg,
             Controller.logMeeting dto organizationId env w
             = (inl (BadRequestException msg), w)).
  { unfold Controller.logMeeting, try_catch, bind, when, throw, ret.
    destruct (Js.truthy organizationId) eqn:Ho; simpl; [|eauto].
    destruct H as [H|[[H1 H2]|[H1 H2]]]; [discriminate| |].
    - rewrite H1, H2. simpl. eauto.
    - destruct (lg_meetingType dto), (lg_virtualMeetingProvider dto);
        simpl; eauto; rewrite H1, H2; simpl; eauto. }
  destruct E as [msg E]. exists msg. rewrite E. auto.
Qed.

(** An empty organization id on an otherwise valid request. *)
Lemma logMeeting_validates_witness :
  Js.truthy (Some EmptyString) = false
  /\ exists msg,
      Controller.logMeeting (Sample.meetingDto PHONE None) (Some EmptyString)
        (Sample.outside Sample.silent 0) (Sample.world [] [])
      = (inl (BadRequestException msg), Sample.world [] [])
      /\ dbLog (snd (Controller.logMeeting (Sample.meetingDto PHONE None)
                       (Some EmptyString)
                       (Sample.outside Sample.silent 0) (Sample.world [] [])))
         = dbLog (Sample.world [] [])
      /\ loggedMeetings
           (snd (Controller.logMeeting (Sample.meetingDto PHONE None)
                   (Some EmptyString)
                   (Sample.outside Sample.silent 0) (Sample.world [] [])))
         = loggedMeetings (Sample.world [] []).
Proof.
  split; [reflexivity|].
  apply (@logMeeting_validates_before_persisting decimalDates).
  left. reflexivity.
Defined.

(** The same request with an organization id is saved: the validation is
    what stopped it. *)
Example logMeeting_saves_valid_request :
  fst (Controller.logMeeting (Sample.meetingDto PHONE None) (Some "org-1")
         (Sample.outside Sample.silent 0) (Sample.world [] []))
  = inr {| lr_success := true; lr_meetingId := "meeting-0";
           lr_activityId := Some "activity-1"; lr_taskId := None;
           lr_message := "Meeting logged successfully" |}
  /\ dbLog (snd (Controller.logMeeting (Sample.meetingDto PHONE None) (Some "org-1")
                   (Sample.outside Sample.silent 0) (Sample.world [] [])))
     = [MeetingSave; MeetingFindByIdAndUpdate "meeting-0"].
Proof. split; vm_compute; reflexivity. Qed.

(** ** The event store: first-match update and removal *)



Lemma find_update_first {A} (p : A -> bool) (f : A -> A) (l : list A) (x : A) :
  find p l = Some x -> p (f x) = true ->
  find p (update_first p f l) = Some (f x).
Proof.
  induction l as [|y l IH]; simpl; [discriminate|].
  destruct (p y) eqn:E; simpl.
  - intros H Hf. injection H as ->. now rewrite Hf.
  - intros H Hf. rewrite E. now apply IH.
Qed.

Lemma find_update_first_none {A} (p : A -> bool) (f : A -> A) (l : list A) :
  (forall x, p (f x) = p x) ->
  find p l = None -> update_first p f l = l.
Proof.
  intros Hf. induction l as [|y l IH]; simpl; [reflexivity|].
  destruct (p y); [discriminate|]. intros H. now rewrite IH.
Qed.

Lemma map_update_first {A B} (p : A -> bool) (f : A -> A) (g : A -> B) (l : list A) :
  (forall x, g (f x) = g x) -> map g (update_first p f l) = map g l.
Proof.
  intros Hf. induction l as [|y l IH]; simpl; [reflexivity|].
  destruct (p y); simpl; [now rewrite Hf|now rewrite IH].
Qed.

(** ** Sync gateway: delete without headers *)




(** ** Delete: a provider failure is not fatal *)

Lemma softDeleted_inactive (eventId : string) (events : list CalendarEvent)
  (e : CalendarEvent) :
  find (hasExternalId eventId) events = Some e ->
  exists e',
    find (hasExternalId eventId) (softDeleted eventId events) = Some e'
    /\ ev_isActive e' = false
    /\ ev_externalId e' = ev_externalId e.
Proof.
  intros H. exists (applyPatch Google.deactivate e). repeat split.
  apply find_update_first; [assumption|].
  apply find_some in H as [_ H]. exact H.
Qed.

Lemma softDeleted_length (eventId : string) (events : list CalendarEvent) :
  List.length (softDeleted eventId events) = List.length events.
Proof.
  unfold softDeleted. induction events as [|x l IH]; simpl; [reflexivity|].
  destruct (hasExternalId eventId x); simpl; now rewrite ?IH.
Qed.

(** Symbolic execution of a computation in [M]: case analysis on the
    innermost value the control flow depends on. *)
Ltac case_innermost :=
  match goal with
  | |- context [match ?x with _ => _ end] =>
      lazymatch x with
      | context [match _ with _ => _ end] => fail
      | _ => destruct x eqn:?
      end
  end.

Ltac run_cases :=
  repeat (case_innermost; cbv beta iota zeta);
  cbn [fst snd db_step calendarEvents loggedMeetings httpLog dbLog activityLog
       taskLog clockReads randomDraws created].

(** Whatever the provider answers, the Google delete ends well. *)
Lemma google_deleteEvent_total
  {DL : DateLib} (env : Env) (w : World) (accessToken eventId : string) :
  fst (Google.deleteEvent accessToken eventId env w)
  = inr (Google.deletedResponse eventId)
  /\ calendarEvents (snd (Google.deleteEvent accessToken eventId env w))
     = softDeleted eventId (calendarEvents w).
Proof.
  cbv beta iota zeta delta
    [Google.deleteEvent try_catch bind when Google.makeGoogleApiCall request
     EventModel.findOneAndUpdate EventModel.findOne logActivity throw ret].
  change (patchCasts Google.deactivate) with true. cbv beta iota.
  run_cases; split; reflexivity.
Qed.

(** Whatever the provider answers, the Microsoft delete ends well. *)
Lemma microsoft_deleteEvent_total
  {DL : DateLib} (env : Env) (w : World) (accessToken eventId : string) :
  fst (Microsoft.deleteEvent accessToken eventId env w)
  = inr (Google.deletedResponse eventId)
  /\ calendarEvents (snd (Microsoft.deleteEvent accessToken eventId env w))
     = softDeleted eventId (calendarEvents w).
Proof.
  cbv beta iota zeta delta
    [Microsoft.deleteEvent try_catch bind when Microsoft.makeGraphApiCall request
     EventModel.findOneAndUpdate EventModel.findOne logActivity throw ret].
  change (patchCasts Google.deactivate) with true. cbv beta iota.
  run_cases; split; reflexivity.
Qed.

(** With a usable token the provider is asked first. *)
Lemma google_deleteEvent_asks_provider
  {DL : DateLib} (env : Env) (w : World) (accessToken eventId : string) :
  usableToken accessToken = true ->
  httpLog (snd (Google.deleteEvent accessToken eventId env w))
  = (httpLog w ++ [googleDeleteCall accessToken eventId])%list.
Proof.
  intros Hu.
  cbv beta iota zeta delta
    [Google.deleteEvent try_catch bind when Google.makeGoogleApiCall request
     EventModel.findOneAndUpdate EventModel.findOne logActivity throw ret].
  rewrite Hu.
  change (patchCasts Google.deactivate) with true. cbv beta iota.
  run_cases; reflexivity.
Qed.

Lemma microsoft_deleteEvent_asks_provider
  {DL : DateLib} (env : Env) (w : World) (accessToken eventId : string) :
  usableToken accessToken = true ->
  httpLog (snd (Microsoft.deleteEvent accessToken eventId env w))
  = (httpLog w ++ [graphDeleteCall accessToken eventId])%list.
Proof.
  intros Hu.
  cbv beta iota zeta delta
    [Microsoft.deleteEvent try_catch bind when Microsoft.makeGraphApiCall request
     EventModel.findOneAndUpdate EventModel.findOne logActivity throw ret].
  rewrite Hu.
  change (patchCasts Google.deactivate) with true. cbv beta iota.
  run_cases; reflexivity.
Qed.

(** C7.  With a usable token, when the provider's deletion call throws
    (the transport client answers the DELETE with an error), either
    adapter still soft-deletes the local mirror: the record with the
    external id stays in the store with its active flag cleared; and it
    returns the success response carrying the event id, the one it
    returns under any other behaviour of the provider. *)
Theorem deleteEvent_provider_failure_is_not_fatal
  {DL : DateLib} (env : Env) (w : World) (accessToken eventId : string) :
  usableToken accessToken = true ->
  (forall err,
      transport env (httpLog w) (googleDeleteCall accessToken eventId) = inl err ->
      let run := Google.deleteEvent accessToken eventId env w in
      fst run = inr (Google.deletedResponse eventId)
      /\ dr_eventId (Google.deletedResponse eventId) = eventId
      /\ httpLog (snd run) = (httpLog w ++ [googleDeleteCall accessToken eventId])%list
      /\ calendarEvents (snd run) = softDeleted eventId (calendarEvents w)
      /\ (forall e,
             find (hasExternalId eventId) (calendarEvents w) = Some e ->
             exists e',
               find (hasExternalId eventId) (calendarEvents (snd run)) = Some e'
               /\ ev_isActive e' = false /\ ev_externalId e' = ev_externalId e)
      /\ (forall env',
             fst (Google.deleteEvent accessToken eventId env' w) = fst run
             /\ calendarEvents (snd (Google.deleteEvent accessToken eventId env' w))
                = calendarEvents (snd run)))
  /\ (forall err,
         transport env (httpLog w) (graphDeleteCall accessToken eventId) = inl err ->
         let run := Microsoft.deleteEvent accessToken eventId env w in
         fst run = inr (Google.deletedResponse eventId)
         /\ dr_eventId (Google.deletedResponse eventId) = eventId
         /\ httpLog (snd run) = (httpLog w ++ [graphDeleteCall accessToken eventId])%list
         /\ calendarEvents (snd run) = softDeleted eventId (calendarEvents w)
         /\ (forall e,
                find (hasExternalId eventId) (calendarEvents w) = Some e ->
                exists e',
                  find (hasExternalId eventId) (calendarEvents (snd run)) = Some e'
                  /\ ev_isActive e' = false /\ ev_externalId e' = ev_externalId e)
         /\ (forall env',
                fst (Microsoft.deleteEvent accessToken eventId env' w) = fst run
                /\ calendarEvents (snd (Microsoft.deleteEvent accessToken eventId env' w))
                   = calendarEvents (snd run))).
Proof.
  intros Hu. split; intros err _ run; subst run.
  - destruct (google_deleteEvent_total env w accessToken eventId) as [Hr Hs].
    repeat split.
    + exact Hr.
    + now apply google_deleteEvent_asks_provider.
    + exact Hs.
    + intros e He. rewrite Hs. now apply softDeleted_inactive.
    + rewrite Hr. apply google_deleteEvent_total.
    + rewrite Hs. apply google_deleteEvent_total.
  - destruct (microsoft_deleteEvent_total env w accessToken eventId) as [Hr Hs].
    repeat split.
    + exact Hr.
    + now apply microsoft_deleteEvent_asks_provider.
    + exact Hs.
    + intros e He. rewrite Hs. now apply softDeleted_inactive.
    + rewrite Hr. apply microsoft_deleteEvent_total.
    + rewrite Hs. apply microsoft_deleteEvent_total.
Qed.

Lemma deleteEvent_provider_failure_witness :
  let env := Sample.outside (fun _ => inl Sample.networkDown) 0 in
  let w := Sample.world [Sample.storedEvent "e1" 1000 2000] [] in
  usableToken "token-1" = true
  /\ transport env (httpLog w) (googleDeleteCall "token-1" "e1")
     = inl Sample.networkDown
  /\ fst (Google.deleteEvent "token-1" "e1" env w)
     = inr (Google.deletedResponse "e1")
  /\ map ev_isActive (calendarEvents (snd (Google.deleteEvent "token-1" "e1" env w)))
     = [false]
  /\ fst (Microsoft.deleteEvent "token-1" "e1" env w)
     = inr (Google.deletedResponse "e1")
  /\ map ev_isActive (calendarEvents (snd (Microsoft.deleteEvent "token-1" "e1" env w)))
     = [false].
Proof.
  intros env w.
  destruct (@deleteEvent_provider_failure_is_not_fatal decimalDates env w
              "token-1" "e1" eq_refl) as [HG HM].
  destruct (HG Sample.networkDown eq_refl) as [G1 [_ [_ [G2 _]]]].
  destruct (HM Sample.networkDown eq_refl) as [M1 [_ [_ [M2 _]]]].
  split; [reflexivity|]. split; [reflexivity|].
  split; [exact G1|]. split; [rewrite G2; reflexivity|].
  split; [exact M1|]. rewrite M2. reflexivity.
Defined.

(** ** Time validation: the two adapters differ on past starts *)

(** The validation of the Google adapter, on times that read well. *)
Lemma google_validateTimeLogic_spec
  {DL : DateLib} (startTime endTime : string) (ts te : Z) :
  parseISO startTime = Some ts ->
  parseISO endTime = Some te ->
  Google.validateTimeLogic startTime endTime
  = if ts >=? te then
      inl (BadRequestException "Start time must be before end time")
    else if differenceInMinutes te ts >? 1440 then
      inl (BadRequestException "Event duration cannot exceed 24 hours")
    else inr tt.
Proof.
  intros Hs He. unfold Google.validateTimeLogic. now rewrite Hs, He.
Qed.

(** The validation of the Microsoft adapter, on times that read well. *)
Lemma microsoft_validateTimeLogic_spec
  {DL : DateLib} (env : Env) (w : World) (startTime endTime : string) (ts te : Z) :
  parseISO startTime = Some ts ->
  parseISO endTime = Some te ->
  fst (Microsoft.validateTimeLogic startTime endTime env w)
  = if ts <? clock env (clockReads w) then
      inl (BadRequestException "Start time cannot be in the past")
    else if te <=? ts then
      inl (BadRequestException "End time must be after start time")
    else if differenceInMinutes te ts >? 24 * 60 then
      inl (BadRequestException "Event duration cannot exceed 24 hours")
    else inr tt.
Proof.
  intros Hs He.
  cbv beta iota zeta delta [Microsoft.validateTimeLogic bind now throw ret].
  rewrite Hs, He.
  destruct (ts <? _); [reflexivity|].
  destruct (te <=? ts); [reflexivity|].
  destruct (_ >? _); reflexivity.
Qed.

(** C10.  For a request whose two times read well and whose start lies
    before the clock: the time validation of the Microsoft adapter rejects
    it with the InvalidRequest error "Start time cannot be in the past";
    so does [createEvent] once calendar access is granted, and so does
    [updateEvent] when the request supplies both times and the event was
    fetched; no create or patch call goes out.  The time validation of the
    Google adapter does not consult the clock: it accepts the request as
    soon as the end is after the start and at most 24 hours away, so the
    two adapters accept different requests. *)
Theorem microsoft_rejects_past_start_google_does_not
  {DL : DateLib} (env : Env) (w : World)
  (startTime endTime : string) (ts te : Z) :
  parseISO startTime = Some ts ->
  parseISO endTime = Some te ->
  ts < clock env (clockReads w) ->
  fst (Microsoft.validateTimeLogic startTime endTime env w)
  = inl (BadRequestException "Start time cannot be in the past")
  /\ (forall accessToken (d : CreateEventDto) granted,
         ce_startTime d = startTime ->
         ce_endTime d = endTime ->
         transport env (httpLog w) (graphProbeCall accessToken) = inr granted ->
         let run := Microsoft.createEvent accessToken d env w in
         fst run
         = inl (BadRequestException
                  "Failed to create calendar event: Start time cannot be in the past")
         /\ httpLog (snd run) = (httpLog w ++ [graphProbeCall accessToken])%list
         /\ calendarEvents (snd run) = calendarEvents w)
  /\ (forall accessToken eventId (d : UpdateEventDto) granted existing,
         ue_startTime d = Some startTime ->
         ue_endTime d = Some endTime ->
         Js.truthy (Some startTime) = true ->
         Js.truthy (Some endTime) = true ->
         transport env (httpLog w) (graphProbeCall accessToken) = inr granted ->
         transport env (httpLog w ++ [graphProbeCall accessToken])%list
           (graphGetCall accessToken eventId) = inr (GraphEventData existing) ->
         let run := Microsoft.updateEvent accessToken eventId d env w in
         fst run
         = inl (BadRequestException
                  "Failed to update calendar event: Start time cannot be in the past")
         /\ httpLog (snd run)
            = (httpLog w ++ [graphProbeCall accessToken;
                             graphGetCall accessToken eventId])%list
         /\ calendarEvents (snd run) = calendarEvents w)
  /\ (ts < te -> differenceInMinutes te ts <= 1440 ->
      Google.validateTimeLogic startTime endTime = inr tt).
Proof.
  intros Hs He Hpast.
  assert (Hlt : (ts <? clock env (clockReads w)) = true) by now apply Z.ltb_lt.
  split; [|split; [|split]].
  - rewrite (microsoft_validateTimeLogic_spec env w _ _ Hs He). now rewrite Hlt.
  - intros accessToken d granted Hds Hde Hprobe.
    cbv beta iota zeta delta
      [Microsoft.createEvent try_catch bind Microsoft.validateCalendarAccess
       Microsoft.makeGraphApiCall request Microsoft.validateTimeLogic now
       throw ret].
    unfold graphProbeCall in Hprobe.
    cbn [httpLog clockReads]. rewrite Hprobe. cbv beta iota.
    cbn [httpLog clockReads]. rewrite Hds, Hde, Hs, He, Hlt.
    cbn. repeat split.
  - intros accessToken eventId d granted existing Hds Hde Hts Hte Hprobe Hget.
    cbv beta iota zeta delta
      [Microsoft.updateEvent try_catch bind Microsoft.validateCalendarAccess
       Microsoft.makeGraphApiCall request Microsoft.validateTimeLogic now
       throw ret when Microsoft.asEvent].
    unfold graphProbeCall in Hprobe, Hget. unfold graphGetCall in Hget.
    cbn [httpLog clockReads]. rewrite Hprobe. cbv beta iota.
    cbn [httpLog clockReads]. rewrite Hget. cbv beta iota.
    rewrite Hds, Hde. cbn [show]. rewrite Hts, Hte. cbn [andb].
    cbn [httpLog clockReads]. rewrite Hs, He, Hlt.
    cbn. rewrite <- app_assoc. repeat split.
  - intros Hord Hdur.
    rewrite (google_validateTimeLogic_spec _ _ Hs He).
    replace (ts >=? te) with false
      by (symmetry; rewrite Z.geb_leb; apply Z.leb_gt; lia).
    replace (differenceInMinutes te ts >? 1440) with false; [reflexivity|].
    symmetry. rewrite Z.gtb_ltb. apply Z.ltb_ge. exact Hdur.
Qed.

Lemma microsoft_rejects_past_start_witness :
  let env := Sample.outside (Sample.graph (Sample.graphEvent "e1" "1000Z" "2000Z")) 5000 in
  let w := Sample.world [] [] in
  parseISO "1000Z" = Some 1000
  /\ parseISO "2000Z" = Some 2000
  /\ 1000 < clock env (clockReads w)
  /\ fst (Microsoft.createEvent "token-1"
            (Sample.createRequest "1000Z" "2000Z" (Some TEAMS)) env w)
     = inl (BadRequestException
              "Failed to create calendar event: Start time cannot be in the past")
  /\ fst (Microsoft.updateEvent "token-1" "e1"
            (timesOnly (Some "1000Z") (Some "2000Z")) env w)
     = inl (BadRequestException
              "Failed to update calendar event: Start time cannot be in the past")
  /\ Google.validateTimeLogic "1000Z" "2000Z" = inr tt.
Proof.
  intros env w.
  destruct (@microsoft_rejects_past_start_google_does_not decimalDates env w
              "1000Z" "2000Z" 1000 2000 eq_refl eq_refl eq_refl)
    as [_ [Hcreate [Hupdate Hgoogle]]].
  split; [reflexivity|]. split; [reflexivity|]. split; [reflexivity|].
  split.
  { apply (Hcreate "token-1" (Sample.createRequest "1000Z" "2000Z" (Some TEAMS))
             NoData eq_refl eq_refl eq_refl). }
  split.
  { apply (Hupdate "token-1" "e1" (timesOnly (Some "1000Z") (Some "2000Z"))
             NoData (Sample.graphEvent "e1" "1000Z" "2000Z")
             eq_refl eq_refl eq_refl eq_refl eq_refl eq_refl). }
  apply Hgoogle; [reflexivity|]. vm_compute. discriminate.
Defined.

(** ** Create: time validation and the calls around it *)

(** C2 as stated fails on both counts.  The Microsoft adapter has already
    probed the calendar through the transport client when it rejects a
    request whose end is before its start; and a request that lasts 24
    hours and 30 seconds is not rejected: the Google adapter sends it to
    the provider and stores the created event. *)
Lemma createEvent_validation_counterexample :
  (let run := Microsoft.createEvent "token-1"
                (Sample.createRequest "9000Z" "8000Z" (Some TEAMS))
                (Sample.outside (Sample.graph (Sample.graphEvent "e1" "9000Z" "8000Z")) 0)
                (Sample.world [] []) in
   isInvalidRequest
     (match fst run with inl e => e | inr _ => JsError EmptyString end) = true
   /\ httpLog (snd run) = [graphProbeCall "token-1"]
   /\ httpLog (snd run) <> httpLog (Sample.world [] []))
  /\ (let run := Google.createEvent "token-1"
                   (Sample.createRequest "0Z" "86430000Z" (Some IN_PERSON))
                   (Sample.outside
                      (Sample.google (Sample.googleEvent "e1" "0Z" "86430000Z")) 0)
                   (Sample.world [] []) in
      86430000 - 0 > 24 * 60 * 60 * 1000
      /\ (exists r, fst run = inr r)
      /\ map hc_method (httpLog (snd run)) = [POST; GET; GET]
      /\ map ev_externalId (calendarEvents (snd run)) = ["e1"]).
Proof.
  split.
  - vm_compute. repeat split. discriminate.
  - vm_compute. repeat split. eexists. reflexivity.
Qed.

(** C2, amended.  Take a create request whose two times read well and
    whose end is not after its start, or whose length in whole minutes
    exceeds 1440.  The Google adapter rejects it and leaves the world as
    it was: no call through the transport client, nothing stored; the
    error is an InvalidRequest when a token was given.  The Microsoft
    adapter rejects it with an InvalidRequest after one call through the
    transport client, the probe of calendar access; it sends no create
    call and stores nothing. *)
Theorem createEvent_rejects_bad_times
  {DL : DateLib} (env : Env) (w : World) (accessToken : string)
  (d : CreateEventDto) (ts te : Z) :
  parseISO (ce_startTime d) = Some ts ->
  parseISO (ce_endTime d) = Some te ->
  te <= ts \/ 1440 < differenceInMinutes te ts ->
  (exists e,
      Google.createEvent accessToken d env w = (inl e, w)
      /\ (Js.truthy (Some accessToken) = true -> isInvalidRequest e = true))
  /\ (let run := Microsoft.createEvent accessToken d env w in
      (exists msg, fst run = inl (BadRequestException msg))
      /\ httpLog (snd run) = (httpLog w ++ [graphProbeCall accessToken])%list
      /\ calendarEvents (snd run) = calendarEvents w
      /\ dbLog (snd run) = dbLog w).
Proof.
  intros Hs He Hbad. split.
  - cbv beta iota zeta delta [Google.createEvent try_catch bind when throw ret lift].
    destruct (Js.truthy (Some accessToken)) eqn:Ht; cbn [negb]; cbv beta iota.
    + rewrite (google_validateTimeLogic_spec _ _ Hs He).
      destruct (ts >=? te) eqn:Hge; cbn.
      * eexists. split; [reflexivity|]. reflexivity.
      * destruct (differenceInMinutes te ts >? 1440) eqn:Hd; cbn.
        -- eexists. split; [reflexivity|]. reflexivity.
        -- exfalso. rewrite Z.geb_leb in Hge. apply Z.leb_gt in Hge.
           rewrite Z.gtb_ltb in Hd. apply Z.ltb_ge in Hd. lia.
    + cbn. eexists. split; [reflexivity|]. discriminate.
  - cbv beta iota zeta delta
      [Microsoft.createEvent try_catch bind Microsoft.validateCalendarAccess
       Microsoft.makeGraphApiCall request Microsoft.validateTimeLogic now
       throw ret].
    cbn [httpLog clockReads].
    change {| hc_method := GET; hc_url := Microsoft.graphApiUrl ++ "me/calendar";
              hc_token := accessToken; hc_body := NoBody |}
      with (graphProbeCall accessToken).
    destruct (transport env (httpLog w) (graphProbeCall accessToken));
      cbv beta iota; cbn [httpLog clockReads].
    + cbn. repeat split. eauto.
    + rewrite Hs, He.
      destruct (ts <? _); [cbn; repeat split; eauto|].
      destruct (te <=? ts) eqn:Hle; [cbn; repeat split; eauto|].
      destruct (differenceInMinutes te ts >? 24 * 60) eqn:Hd;
        [cbn; repeat split; eauto|].
      exfalso. apply Z.leb_gt in Hle.
      rewrite Z.gtb_ltb in Hd. apply Z.ltb_ge in Hd. lia.
Qed.

(** ** What a computation leaves untouched *)

Lemma logGrows_calm : Calm logGrows.
Proof.
  split.
  - intros w. exists []. now rewrite app_nil_r.
  - intros a b c [r1 H1] [r2 H2]. exists (r1 ++ r2)%list.
    now rewrite H2, H1, app_assoc.
  - intros w w' _ H. exact H.
Qed.

Lemma keepsEvents_calm {B} (f : CalendarEvent -> B) : Calm (keepsEvents f).
Proof.
  split; unfold keepsEvents.
  - reflexivity.
  - intros a b c H1 H2. now rewrite H2.
  - intros w w' H _. now rewrite H.
Qed.

Section Steps.

Variable R : World -> World -> Prop.
Hypothesis HR : Calm R.

Lemma steps_ret {A} (a : A) : steps R (ret a).
Proof. intros env w. apply (calm_refl HR). Qed.

Lemma steps_throw {A} (e : Exn) : steps R (@throw A e).
Proof. intros env w. apply (calm_refl HR). Qed.

Lemma steps_lift {A} (r : Result A) : steps R (lift r).
Proof. intros env w. apply (calm_refl HR). Qed.

Lemma steps_bind {A B} (c : M A) (k : A -> M B) :
  steps R c -> (forall a, steps R (k a)) -> steps R (bind c k).
Proof.
  intros Hc Hk env w. unfold bind. specialize (Hc env w).
  destruct (c env w) as [[e|a] w']; cbn [snd] in *; [assumption|].
  eapply (calm_trans HR); [eassumption|apply Hk].
Qed.

(** A computation that starts by returning [a] continues as [k a]. *)
Lemma steps_bind_ret {A B} (a : A) (k : A -> M B) :
  steps R (k a) -> steps R (bind (ret a) k).
Proof. intros H env w. apply H. Qed.

Lemma steps_try_catch {A} (c : M A) (h : Exn -> M A) :
  steps R c -> (forall e, steps R (h e)) -> steps R (try_catch c h).
Proof.
  intros Hc Hh env w. unfold try_catch. specialize (Hc env w).
  destruct (c env w) as [[e|a] w']; cbn [snd] in *; [|assumption].
  eapply (calm_trans HR); [eassumption|apply Hh].
Qed.

Lemma steps_when (b : bool) (c : M unit) : steps R c -> steps R (when b c).
Proof. intros H. destruct b; [exact H|apply steps_ret]. Qed.

(** Effects that touch neither the calendar events nor, except by
    appending, the transport log. *)
Lemma steps_now : steps R now.
Proof.
  intros env w. apply (calm_outside HR); [reflexivity|].
  exists []. cbn. now rewrite app_nil_r.
Qed.

Lemma steps_randomId : steps R randomId.
Proof.
  intros env w. apply (calm_outside HR); [reflexivity|].
  exists []. cbn. now rewrite app_nil_r.
Qed.

Lemma steps_request (call : HttpCall) : steps R (request call).
Proof.
  intros env w. apply (calm_outside HR); [reflexivity|].
  exists [call]. reflexivity.
Qed.

Lemma steps_logActivity (payload : ActivityPayload) : steps R (logActivity payload).
Proof.
  intros env w. unfold logActivity.
  destruct (activityPost env (activityLog w) payload);
    (apply (calm_outside HR); [reflexivity|]; exists []; cbn;
     now rewrite app_nil_r).
Qed.

Lemma steps_findOne (externalId : string) : steps R (EventModel.findOne externalId).
Proof.
  intros env w. apply (calm_outside HR); [reflexivity|].
  exists []. cbn. now rewrite app_nil_r.
Qed.

End Steps.

(** An update of the first matching event keeps a field that the patch
    does not change. *)
Lemma steps_findOneAndUpdate_keeps {B} (f : CalendarEvent -> B)
  (externalId : string) (p : CalendarEventPatch) :
  (forall e, f (applyPatch p e) = f e) ->
  steps (keepsEvents f) (EventModel.findOneAndUpdate externalId p).
Proof.
  intros Hp env w. unfold EventModel.findOneAndUpdate, keepsEvents.
  destruct (patchCasts p); cbn; [|reflexivity].
  now apply map_update_first.
Qed.

Lemma steps_findOneAndUpdate_log (externalId : string) (p : CalendarEventPatch) :
  steps logGrows (EventModel.findOneAndUpdate externalId p).
Proof.
  intros env w. unfold EventModel.findOneAndUpdate.
  destruct (patchCasts p); exists []; cbn; now rewrite app_nil_r.
Qed.

(** Stepping through a computation, one construct at a time. *)
Ltac step HR :=
  first
    [ apply (steps_ret HR)
    | apply (steps_throw HR)
    | apply (steps_lift HR)
    | apply (steps_now HR)
    | apply (steps_randomId HR)
    | apply (steps_request HR)
    | apply (steps_logActivity HR)
    | apply (steps_findOne HR)
    | apply steps_bind_ret
    | apply (steps_bind HR); [|intro]
    | apply (steps_try_catch HR); [|intro]
    | apply (steps_when HR)
    | match goal with
      | |- steps _ (match ?x with _ => _ end) => destruct x
      end ].

Ltac stepping HR := repeat (step HR; cbv beta iota zeta).

Section AdapterSteps.

Context {DL : DateLib}.
Variable R : World -> World -> Prop.
Hypothesis HR : Calm R.

Lemma steps_makeGoogleApiCall accessToken endpoint method data baseUrl :
  steps R (Google.makeGoogleApiCall accessToken endpoint method data baseUrl).
Proof. unfold Google.makeGoogleApiCall. stepping HR. Qed.

Lemma steps_google_asEvent d : steps R (Google.asEvent d).
Proof. unfold Google.asEvent. stepping HR. Qed.

Lemma steps_getUserProfile accessToken : steps R (Google.getUserProfile accessToken).
Proof.
  unfold Google.getUserProfile.
  apply (steps_try_catch HR); [|intro; apply (steps_ret HR)].
  apply (steps_bind HR); [apply steps_makeGoogleApiCall|intro].
  stepping HR.
Qed.

Lemma steps_dateOfTime t : steps R (Google.dateOfTime t).
Proof. unfold Google.dateOfTime. stepping HR. Qed.

Lemma steps_google_updateTimes existing d : steps R (Google.updateTimes existing d).
Proof.
  unfold Google.updateTimes.
  apply (steps_bind HR).
  - destruct (Js.truthy (ue_startTime d)); [|apply (steps_ret HR)].
    destruct (negb (Js.truthy (ue_endTime d))); [|apply (steps_ret HR)].
    apply (steps_bind HR); [apply steps_dateOfTime|intro].
    apply (steps_bind HR); [apply steps_dateOfTime|intro].
    stepping HR.
  - intro. stepping HR.
Qed.

Lemma steps_google_updatePayload existing d :
  steps R (Google.updatePayload existing d).
Proof.
  unfold Google.updatePayload.
  apply (steps_bind HR); [apply steps_google_updateTimes|intro].
  stepping HR.
Qed.

Lemma steps_makeGraphApiCall accessToken endpoint method data :
  steps R (Microsoft.makeGraphApiCall accessToken endpoint method data).
Proof. unfold Microsoft.makeGraphApiCall. stepping HR. Qed.

Lemma steps_graph_asEvent d : steps R (Microsoft.asEvent d).
Proof. unfold Microsoft.asEvent. stepping HR. Qed.

Lemma steps_validateCalendarAccess accessToken :
  steps R (Microsoft.validateCalendarAccess accessToken).
Proof.
  unfold Microsoft.validateCalendarAccess.
  apply (steps_try_catch HR); [|intro; apply (steps_throw HR)].
  apply (steps_bind HR); [apply steps_makeGraphApiCall|intro].
  apply (steps_ret HR).
Qed.

Lemma steps_graph_validateTimeLogic startTime endTime :
  steps R (Microsoft.validateTimeLogic startTime endTime).
Proof. unfold Microsoft.validateTimeLogic. stepping HR. Qed.

End AdapterSteps.

(** Stepping through the adapters. *)
Ltac walk1 HR :=
  first
    [ apply (steps_makeGoogleApiCall HR)
    | apply (steps_google_asEvent HR)
    | apply (steps_getUserProfile HR)
    | apply (steps_dateOfTime HR)
    | apply (steps_google_updatePayload HR)
    | apply (steps_makeGraphApiCall HR)
    | apply (steps_graph_asEvent HR)
    | apply (steps_validateCalendarAccess HR)
    | apply (steps_graph_validateTimeLogic HR)
    | step HR ];
  cbv beta iota zeta.

Ltac walk HR := repeat walk1 HR.

(** *** The second half of an update *)

Lemma google_mirrorUpdate_log {DL : DateLib} accessToken eventId d updatedEvent :
  steps logGrows (Google.mirrorUpdate accessToken eventId d updatedEvent).
Proof.
  unfold Google.mirrorUpdate.
  repeat (first [ apply steps_findOneAndUpdate_log | progress walk logGrows_calm ]).
Qed.

Lemma google_mirrorUpdate_keeps_end {DL : DateLib} accessToken eventId d updatedEvent :
  Js.truthy (ue_endTime d) = false ->
  steps (keepsEvents ev_endTime)
    (Google.mirrorUpdate accessToken eventId d updatedEvent).
Proof.
  intros Hend. unfold Google.mirrorUpdate. rewrite Hend. cbv beta iota.
  repeat (first [ apply steps_findOneAndUpdate_keeps; intro; reflexivity
                | progress walk (keepsEvents_calm ev_endTime) ]).
Qed.

Lemma google_mirrorUpdate_keeps_start {DL : DateLib} accessToken eventId d updatedEvent :
  Js.truthy (ue_startTime d) = false ->
  steps (keepsEvents ev_startTime)
    (Google.mirrorUpdate accessToken eventId d updatedEvent).
Proof.
  intros Hstart. unfold Google.mirrorUpdate. rewrite Hstart. cbv beta iota.
  repeat (first [ apply steps_findOneAndUpdate_keeps; intro; reflexivity
                | progress walk (keepsEvents_calm ev_startTime) ]).
Qed.

Lemma microsoft_mirrorUpdate_log {DL : DateLib} eventId d updatedEvent :
  steps logGrows (Microsoft.mirrorUpdate eventId d updatedEvent).
Proof.
  unfold Microsoft.mirrorUpdate. cbv zeta.
  repeat (first [ apply steps_findOneAndUpdate_log | progress walk logGrows_calm ]).
Qed.

Lemma microsoft_mirrorUpdate_keeps_end {DL : DateLib} eventId d updatedEvent :
  Js.truthy (ue_endTime d) = false ->
  steps (keepsEvents ev_endTime) (Microsoft.mirrorUpdate eventId d updatedEvent).
Proof.
  intros Hend. unfold Microsoft.mirrorUpdate. cbv zeta.
  repeat (first [ apply steps_findOneAndUpdate_keeps; intro;
                  unfold Microsoft.mirrorPatch; rewrite Hend; reflexivity
                | progress walk (keepsEvents_calm ev_endTime) ]).
Qed.

Lemma microsoft_mirrorUpdate_keeps_start {DL : DateLib} eventId d updatedEvent :
  Js.truthy (ue_startTime d) = false ->
  steps (keepsEvents ev_startTime) (Microsoft.mirrorUpdate eventId d updatedEvent).
Proof.
  intros Hstart. unfold Microsoft.mirrorUpdate. cbv zeta.
  repeat (first [ apply steps_findOneAndUpdate_keeps; intro;
                  unfold Microsoft.mirrorPatch; rewrite Hstart; reflexivity
                | progress walk (keepsEvents_calm ev_startTime) ]).
Qed.

(** *** An update as a whole *)

Lemma google_updateEvent_keeps_end {DL : DateLib} accessToken eventId d :
  Js.truthy (ue_endTime d) = false ->
  steps (keepsEvents ev_endTime) (Google.updateEvent accessToken eventId d).
Proof.
  intros Hend. unfold Google.updateEvent.
  repeat (first [ apply google_mirrorUpdate_keeps_end; assumption
                | walk1 (keepsEvents_calm ev_endTime) ]).
Qed.

Lemma google_updateEvent_keeps_start {DL : DateLib} accessToken eventId d :
  Js.truthy (ue_startTime d) = false ->
  steps (keepsEvents ev_startTime) (Google.updateEvent accessToken eventId d).
Proof.
  intros Hstart. unfold Google.updateEvent.
  repeat (first [ apply google_mirrorUpdate_keeps_start; assumption
                | walk1 (keepsEvents_calm ev_startTime) ]).
Qed.

Lemma microsoft_updateEvent_keeps_end {DL : DateLib} accessToken eventId d :
  Js.truthy (ue_endTime d) = false ->
  steps (keepsEvents ev_endTime) (Microsoft.updateEvent accessToken eventId d).
Proof.
  intros Hend. unfold Microsoft.updateEvent.
  repeat (first [ apply microsoft_mirrorUpdate_keeps_end; assumption
                | walk1 (keepsEvents_calm ev_endTime) ]).
Qed.

Lemma microsoft_updateEvent_keeps_start {DL : DateLib} accessToken eventId d :
  Js.truthy (ue_startTime d) = false ->
  steps (keepsEvents ev_startTime) (Microsoft.updateEvent accessToken eventId d).
Proof.
  intros Hstart. unfold Microsoft.updateEvent.
  repeat (first [ apply microsoft_mirrorUpdate_keeps_start; assumption
                | walk1 (keepsEvents_calm ev_startTime) ]).
Qed.

(** *** The times of the patch sent to the provider *)

Lemma google_updateTimes_start_only {DL : DateLib} env w existing d s os oe ns :
  startOnly d s ->
  googleTimeIs (ge_start existing) os ->
  googleTimeIs (ge_end existing) oe ->
  Date_parse s = Some ns ->
  validTime (ns + (oe - os)) = true ->
  Google.updateTimes existing d env w
  = (inr (Some {| gt_dateTime := Some s; gt_date := None;
                  gt_timeZone := Js.or_else (ue_timeZone d)
                                   (gt_timeZone (ge_start existing)) |},
          Some {| gt_dateTime := Some (toISOString (ns + (oe - os)));
                  gt_date := None;
                  gt_timeZone := Js.or_else (ue_timeZone d)
                                   (gt_timeZone (ge_end existing)) |}), w).
Proof.
  intros [Hs [Hst Hne]] [ts [Hts [Htt Hps]]] [te [Hte [Hett Hpe]]] Hns Hv.
  unfold Google.updateTimes, Google.dateOfTime, bind, ret.
  rewrite Hs, Hst, Hne, Hts, Hte, Htt, Hett. cbn [negb show].
  rewrite Hps, Hpe, Hns. unfold timeClip. rewrite Hv. reflexivity.
Qed.

Lemma google_updateTimes_end_only {DL : DateLib} env w existing d e :
  endOnly d e ->
  Google.updateTimes existing d env w
  = (inr (Some {| gt_dateTime :=
                    Some (Js.or_default (Google.timeText (ge_start existing))
                            EmptyString);
                  gt_date := None;
                  gt_timeZone := Js.or_else (ue_timeZone d)
                                   (gt_timeZone (ge_start existing)) |},
          Some {| gt_dateTime := Some e; gt_date := None;
                  gt_timeZone := Js.or_else (ue_timeZone d)
                                   (gt_timeZone (ge_end existing)) |}), w).
Proof.
  intros [He [Het Hns]].
  unfold Google.updateTimes, bind, ret. rewrite He, Het, Hns. reflexivity.
Qed.

(** The patch carries the two times that [updateTimes] computed. *)
Lemma google_updatePayload_times {DL : DateLib} env w existing d times :
  Google.updateTimes existing d env w = (inr times, w) ->
  exists payload w',
    Google.updatePayload existing d env w = (inr payload, w')
    /\ httpLog w' = httpLog w
    /\ gp_start payload = fst times /\ gp_end payload = snd times.
Proof.
  intros H. unfold Google.updatePayload, bind at 1. rewrite H.
  destruct (Google.isKind GOOGLE_MEET (ue_locationType d));
    cbn; eexists; eexists; repeat split.
Qed.

(** After the event was fetched and the patch built, the patch is sent;
    whatever follows only appends to the transport log. *)
Lemma google_updateEvent_sends_patch {DL : DateLib} env w accessToken eventId d
  existing payload :
  transport env (httpLog w) (googleGetCall accessToken eventId)
  = inr (GoogleEventData existing) ->
  (Js.truthy (ue_startTime d) && Js.truthy (ue_endTime d) = false)%bool ->
  (forall w0, w0 = snd (request (googleGetCall accessToken eventId) env w) ->
              exists w1, Google.updatePayload existing d env w0 = (inr payload, w1)
                         /\ httpLog w1 = httpLog w0) ->
  exists rest,
    httpLog (snd (Google.updateEvent accessToken eventId d env w))
    = (httpLog w ++ [googleGetCall accessToken eventId;
                     googlePatchCall accessToken eventId payload] ++ rest)%list.
Proof.
  intros Hget Hboth Hpayload. unfold googleGetCall in Hget.
  unfold Google.updateEvent, try_catch, bind at 1.
  unfold Google.makeGoogleApiCall at 1, bind at 1, request at 1.
  cbn [Js.or_default]. rewrite Hget. cbv beta iota. unfold ret at 1.
  cbv beta iota. unfold bind at 1. unfold Google.asEvent at 1, ret at 1.
  cbv beta iota. unfold bind at 1. rewrite Hboth. unfold when at 1, ret at 1.
  cbv beta iota. unfold bind at 1.
  match goal with
  | |- context [Google.updatePayload existing d env ?w0] =>
      destruct (Hpayload w0 eq_refl) as [w1 [Hp Hlog]]; rewrite Hp
  end.
  cbv beta iota. unfold bind at 1.
  unfold Google.makeGoogleApiCall at 1, bind at 1, request at 1.
  cbn [Js.or_default].
  match goal with
  | |- context [transport env (httpLog w1) ?call] =>
      change call with (googlePatchCall accessToken eventId payload);
      destruct (transport env (httpLog w1)
                  (googlePatchCall accessToken eventId payload)) as [err|d']
  end; cbv beta iota.
  - unfold throw. cbn. rewrite Hlog. cbn. exists [].
    now rewrite <- app_assoc.
  - unfold ret at 1. cbv beta iota. unfold bind at 1.
    destruct d' as [|updatedEvent| |];
      try (unfold Google.asEvent, throw; cbn; rewrite Hlog; cbn; exists [];
           now rewrite <- app_assoc).
    unfold Google.asEvent, ret at 1. cbv beta iota.
    match goal with
    | |- context [Google.mirrorUpdate accessToken eventId d updatedEvent env ?w2] =>
        pose proof (google_mirrorUpdate_log accessToken eventId d updatedEvent
                      env w2) as [rest Hrest];
        destruct (Google.mirrorUpdate accessToken eventId d updatedEvent env w2)
          as [[e|r] w3]
    end; unfold throw; cbn [snd] in *; rewrite Hrest; cbn [httpLog];
      rewrite Hlog; cbn [httpLog]; exists rest;
      now rewrite <- !app_assoc.
Qed.

Lemma microsoft_updateTimes_start_only {DL : DateLib} existing d s os oe ns :
  startOnly d s ->
  Date_parse (mt_dateTime (me_start existing)) = Some os ->
  Date_parse (mt_dateTime (me_end existing)) = Some oe ->
  Date_parse s = Some ns ->
  validTime (ns + (oe - os)) = true ->
  Microsoft.updateTimes existing d
  = inr (Some {| mt_dateTime := s;
                 mt_timeZone := Microsoft.zoneOf d (me_start existing) |},
         Some {| mt_dateTime := toISOString (ns + (oe - os));
                 mt_timeZone := Microsoft.zoneOf d (me_end existing) |}).
Proof.
  intros [Hs [Hst Hne]] Hos Hoe Hns Hv.
  unfold Microsoft.updateTimes. rewrite Hs, Hst, Hne. cbn [negb show].
  rewrite Hos, Hoe, Hns. unfold timeClip. rewrite Hv. reflexivity.
Qed.

Lemma microsoft_updateTimes_end_only {DL : DateLib} existing d e :
  endOnly d e ->
  Microsoft.updateTimes existing d
  = inr (Some {| mt_dateTime := mt_dateTime (me_start existing);
                 mt_timeZone := Microsoft.zoneOf d (me_start existing) |},
         Some {| mt_dateTime := e;
                 mt_timeZone := Microsoft.zoneOf d (me_end existing) |}).
Proof.
  intros [He [Het Hns]].
  unfold Microsoft.updateTimes. rewrite He, Het, Hns. reflexivity.
Qed.

Lemma microsoft_updatePayload_times {DL : DateLib} existing d times :
  Microsoft.updateTimes existing d = inr times ->
  exists payload,
    Microsoft.updatePayload existing d = inr payload
    /\ mp_start payload = fst times /\ mp_end payload = snd times.
Proof.
  intros H. unfold Microsoft.updatePayload. rewrite H.
  eexists. repeat split.
Qed.

Lemma microsoft_updateEvent_sends_patch {DL : DateLib} env w accessToken eventId d
  granted existing payload :
  transport env (httpLog w) (graphProbeCall accessToken) = inr granted ->
  transport env (httpLog w ++ [graphProbeCall accessToken])%list
    (graphGetCall accessToken eventId) = inr (GraphEventData existing) ->
  (Js.truthy (ue_startTime d) && Js.truthy (ue_endTime d) = false)%bool ->
  Microsoft.updatePayload existing d = inr payload ->
  exists rest,
    httpLog (snd (Microsoft.updateEvent accessToken eventId d env w))
    = (httpLog w ++ [graphProbeCall accessToken;
                     graphGetCall accessToken eventId;
                     graphPatchCall accessToken eventId payload] ++ rest)%list.
Proof.
  intros Hprobe Hget Hboth Hpayload.
  unfold graphProbeCall in Hprobe, Hget. unfold graphGetCall in Hget.
  unfold Microsoft.updateEvent, bind at 1.
  unfold Microsoft.validateCalendarAccess, try_catch at 1, bind at 1.
  unfold Microsoft.makeGraphApiCall at 1, bind at 1, request at 1.
  rewrite Hprobe. cbv beta iota. unfold ret at 1 2. cbv beta iota.
  unfold try_catch, bind at 1.
  unfold Microsoft.makeGraphApiCall at 1, bind at 1, request at 1.
  cbn [httpLog]. rewrite Hget. cbv beta iota. unfold ret at 1.
  cbv beta iota. unfold bind at 1. unfold Microsoft.asEvent at 1, ret at 1.
  cbv beta iota. unfold bind at 1. rewrite Hboth. unfold when at 1, ret at 1.
  cbv beta iota. unfold bind at 1. rewrite Hpayload. unfold lift at 1.
  cbv beta iota. unfold bind at 1.
  unfold Microsoft.makeGraphApiCall at 1, bind at 1, request at 1.
  cbn [httpLog].
  match goal with
  | |- context [transport env ?log ?call] =>
      change call with (graphPatchCall accessToken eventId payload);
      destruct (transport env log (graphPatchCall accessToken eventId payload))
        as [err|d']
  end; cbv beta iota.
  - unfold throw. cbn. exists []. now rewrite <- !app_assoc.
  - unfold ret at 1. cbv beta iota. unfold bind at 1.
    destruct d' as [| | |updatedEvent];
      try (unfold Microsoft.asEvent, throw; cbn; exists [];
           now rewrite <- !app_assoc).
    unfold Microsoft.asEvent, ret at 1. cbv beta iota.
    match goal with
    | |- context [Microsoft.mirrorUpdate eventId d updatedEvent env ?w2] =>
        pose proof (microsoft_mirrorUpdate_log eventId d updatedEvent
                      env w2) as [rest Hrest];
        destruct (Microsoft.mirrorUpdate eventId d updatedEvent env w2)
          as [[e|r] w3]
    end; unfold throw; cbn [snd] in *; rewrite Hrest; cbn [httpLog];
      exists rest; now rewrite <- !app_assoc.
Qed.

(** ** Partial updates of the times *)

(** C1 as stated fails for the local mirror.  An event runs from 1000 to
    2000; the request moves its start to 5000 and gives no end.  The
    provider is sent, and answers with, the end 6000; the local mirror
    gets the new start and keeps the end 2000, which is not
    5000 + (2000 - 1000).  Both adapters do so. *)
Lemma update_start_only_mirror_counterexample :
  let w := Sample.world [Sample.storedEvent "e1" 1000 2000] [] in
  let d := timesOnly (Some "5000Z") None in
  (let run := Google.updateEvent "token-1" "e1" d
                (Sample.outside
                   (Sample.googleUpdating (Sample.googleEvent "e1" "1000Z" "2000Z")
                      (Sample.googleEvent "e1" "5000Z" "6000Z")) 0) w in
   (exists r, fst run = inr r)
   /\ map (fun e => (ev_startTime e, ev_endTime e)) (calendarEvents (snd run))
      = [(5000, 2000)])
  /\ (let run := Microsoft.updateEvent "token-1" "e1" d
                   (Sample.outside
                      (Sample.graphUpdating (Sample.graphEvent "e1" "1000Z" "2000Z")
                         (Sample.graphEvent "e1" "5000Z" "6000Z")) 0) w in
      (exists r, fst run = inr r)
      /\ map (fun e => (ev_startTime e, ev_endTime e)) (calendarEvents (snd run))
         = [(5000, 2000)])
  /\ 2000 <> 5000 + (2000 - 1000).
Proof.
  vm_compute. repeat split; try (eexists; reflexivity). discriminate.
Qed.

(** C1, amended.  When the request supplies a start time and no end time,
    the patch sent to the provider carries the new start and the end
    newStart + (oldEnd - oldStart), the old times being those of the event
    as the provider holds it; the update of the local mirror leaves the
    stored end times as they were.  When the request supplies an end time
    and no start time, the patch carries the new end and the start the
    provider holds, and the update of the local mirror leaves the stored
    start times as they were.  Both adapters do so; the Microsoft adapter
    probes calendar access first. *)
Theorem update_keeps_duration_at_provider
  {DL : DateLib} (env : Env) (w : World)
  (accessToken eventId : string) (d : UpdateEventDto) :
  (forall s existing os oe ns,
      startOnly d s ->
      transport env (httpLog w) (googleGetCall accessToken eventId)
      = inr (GoogleEventData existing) ->
      googleTimeIs (ge_start existing) os ->
      googleTimeIs (ge_end existing) oe ->
      Date_parse s = Some ns ->
      validTime (ns + (oe - os)) = true ->
      let run := Google.updateEvent accessToken eventId d env w in
      (exists payload rest,
          httpLog (snd run)
          = (httpLog w ++ [googleGetCall accessToken eventId;
                           googlePatchCall accessToken eventId payload] ++ rest)%list
          /\ option_map gt_dateTime (gp_start payload) = Some (Some s)
          /\ option_map gt_dateTime (gp_end payload)
             = Some (Some (toISOString (ns + (oe - os)))))
      /\ map ev_endTime (calendarEvents (snd run)) = map ev_endTime (calendarEvents w))
  /\ (forall e existing,
         endOnly d e ->
         transport env (httpLog w) (googleGetCall accessToken eventId)
         = inr (GoogleEventData existing) ->
         let run := Google.updateEvent accessToken eventId d env w in
         (exists payload rest,
             httpLog (snd run)
             = (httpLog w ++ [googleGetCall accessToken eventId;
                              googlePatchCall accessToken eventId payload] ++ rest)%list
             /\ option_map gt_dateTime (gp_start payload)
                = Some (Some (Js.or_default (Google.timeText (ge_start existing))
                                EmptyString))
             /\ option_map gt_dateTime (gp_end payload) = Some (Some e))
         /\ map ev_startTime (calendarEvents (snd run))
            = map ev_startTime (calendarEvents w))
  /\ (forall s granted existing os oe ns,
         startOnly d s ->
         transport env (httpLog w) (graphProbeCall accessToken) = inr granted ->
         transport env (httpLog w ++ [graphProbeCall accessToken])%list
           (graphGetCall accessToken eventId) = inr (GraphEventData existing) ->
         Date_parse (mt_dateTime (me_start existing)) = Some os ->
         Date_parse (mt_dateTime (me_end existing)) = Some oe ->
         Date_parse s = Some ns ->
         validTime (ns + (oe - os)) = true ->
         let run := Microsoft.updateEvent accessToken eventId d env w in
         (exists payload rest,
             httpLog (snd run)
             = (httpLog w ++ [graphProbeCall accessToken;
                              graphGetCall accessToken eventId;
                              graphPatchCall accessToken eventId payload] ++ rest)%list
             /\ option_map mt_dateTime (mp_start payload) = Some s
             /\ option_map mt_dateTime (mp_end payload)
                = Some (toISOString (ns + (oe - os))))
         /\ map ev_endTime (calendarEvents (snd run))
            = map ev_endTime (calendarEvents w))
  /\ (forall e granted existing,
         endOnly d e ->
         transport env (httpLog w) (graphProbeCall accessToken) = inr granted ->
         transport env (httpLog w ++ [graphProbeCall accessToken])%list
           (graphGetCall accessToken eventId) = inr (GraphEventData existing) ->
         let run := Microsoft.updateEvent accessToken eventId d env w in
         (exists payload rest,
             httpLog (snd run)
             = (httpLog w ++ [graphProbeCall accessToken;
                              graphGetCall accessToken eventId;
                              graphPatchCall accessToken eventId payload] ++ rest)%list
             /\ option_map mt_dateTime (mp_start payload)
                = Some (mt_dateTime (me_start existing))
             /\ option_map mt_dateTime (mp_end payload) = Some e)
         /\ map ev_startTime (calendarEvents (snd run))
            = map ev_startTime (calendarEvents w)).
Proof.
  split; [|split; [|split]].
  - intros s existing os oe ns Hso Hget Hos Hoe Hns Hv run. subst run.
    assert (Hend : Js.truthy (ue_endTime d) = false) by apply Hso.
    split; [|now apply google_updateEvent_keeps_end].
    destruct (@google_updatePayload_times DL env
                (snd (request (googleGetCall accessToken eventId) env w))
                existing d _
                (@google_updateTimes_start_only DL env _ existing d s os oe ns
                   Hso Hos Hoe Hns Hv))
      as [payload [w1 [Hp [Hlog [Hst Hen]]]]].
    destruct (@google_updateEvent_sends_patch DL env w accessToken eventId d
                existing payload Hget) as [rest Hrest].
    + rewrite Hend. apply andb_false_r.
    + intros w0 ->. exists w1. split; [exact Hp|exact Hlog].
    + exists payload, rest. split; [exact Hrest|].
      rewrite Hst, Hen. split; reflexivity.
  - intros e existing Heo Hget run. subst run.
    assert (Hstart : Js.truthy (ue_startTime d) = false) by apply Heo.
    split; [|now apply google_updateEvent_keeps_start].
    destruct (@google_updatePayload_times DL env
                (snd (request (googleGetCall accessToken eventId) env w))
                existing d _
                (@google_updateTimes_end_only DL env _ existing d e Heo))
      as [payload [w1 [Hp [Hlog [Hst Hen]]]]].
    destruct (@google_updateEvent_sends_patch DL env w accessToken eventId d
                existing payload Hget) as [rest Hrest].
    + now rewrite Hstart.
    + intros w0 ->. exists w1. split; [exact Hp|exact Hlog].
    + exists payload, rest. split; [exact Hrest|].
      rewrite Hst, Hen. split; reflexivity.
  - intros s granted existing os oe ns Hso Hprobe Hget Hos Hoe Hns Hv run.
    subst run.
    assert (Hend : Js.truthy (ue_endTime d) = false) by apply Hso.
    split; [|now apply microsoft_updateEvent_keeps_end].
    destruct (@microsoft_updatePayload_times DL existing d _
                (@microsoft_updateTimes_start_only DL existing d s os oe ns
                   Hso Hos Hoe Hns Hv))
      as [payload [Hp [Hst Hen]]].
    destruct (@microsoft_updateEvent_sends_patch DL env w accessToken eventId d
                granted existing payload Hprobe Hget) as [rest Hrest].
    + rewrite Hend. apply andb_false_r.
    + exact Hp.
    + exists payload, rest. split; [exact Hrest|].
      rewrite Hst, Hen. split; reflexivity.
  - intros e granted existing Heo Hprobe Hget run. subst run.
    assert (Hstart : Js.truthy (ue_startTime d) = false) by apply Heo.
    split; [|now apply microsoft_updateEvent_keeps_start].
    destruct (@microsoft_updatePayload_times DL existing d _
                (@microsoft_updateTimes_end_only DL existing d e Heo))
      as [payload [Hp [Hst Hen]]].
    destruct (@microsoft_updateEvent_sends_patch DL env w accessToken eventId d
                granted existing payload Hprobe Hget) as [rest Hrest].
    + now rewrite Hstart.
    + exact Hp.
    + exists payload, rest. split; [exact Hrest|].
      rewrite Hst, Hen. split; reflexivity.
Qed.

(** The event of the counterexample again: the patch that Google receives
    ends at 6000 = 5000 + (2000 - 1000), the stored end stays 2000; and an
    end-only update sent to Microsoft restates the start the provider
    holds. *)
Lemma update_keeps_duration_witness :
  let w := Sample.world [Sample.storedEvent "e1" 1000 2000] [] in
  (let env := Sample.outside
                (Sample.googleUpdating (Sample.googleEvent "e1" "1000Z" "2000Z")
                   (Sample.googleEvent "e1" "5000Z" "6000Z")) 0 in
   let d := timesOnly (Some "5000Z") None in
   startOnly d "5000Z"
   /\ (let run := Google.updateEvent "token-1" "e1" d env w in
       (exists payload rest,
           httpLog (snd run)
           = (httpLog w ++ [googleGetCall "token-1" "e1";
                            googlePatchCall "token-1" "e1" payload] ++ rest)%list
           /\ option_map gt_dateTime (gp_start payload) = Some (Some "5000Z")
           /\ option_map gt_dateTime (gp_end payload)
              = Some (Some (toISOString (5000 + (2000 - 1000)))))
       /\ map ev_endTime (calendarEvents (snd run)) = map ev_endTime (calendarEvents w)))
  /\ (let env := Sample.outside
                   (Sample.graphUpdating (Sample.graphEvent "e1" "1000Z" "2000Z")
                      (Sample.graphEvent "e1" "1000Z" "7000Z")) 0 in
      let d := timesOnly None (Some "7000Z") in
      endOnly d "7000Z"
      /\ (let run := Microsoft.updateEvent "token-1" "e1" d env w in
          (exists payload rest,
              httpLog (snd run)
              = (httpLog w ++ [graphProbeCall "token-1";
                               graphGetCall "token-1" "e1";
                               graphPatchCall "token-1" "e1" payload] ++ rest)%list
              /\ option_map mt_dateTime (mp_start payload) = Some "1000Z"
              /\ option_map mt_dateTime (mp_end payload) = Some "7000Z")
          /\ map ev_startTime (calendarEvents (snd run))
             = map ev_startTime (calendarEvents w))).
Proof.
  intros w. split.
  - intros env d.
    assert (Hso : startOnly d "5000Z") by (repeat split).
    split; [exact Hso|].
    apply (proj1 (@update_keeps_duration_at_provider decimalDates env w
                    "token-1" "e1" d)
             "5000Z" (Sample.googleEvent "e1" "1000Z" "2000Z") 1000 2000 5000);
      try reflexivity; try exact Hso.
    + exists "1000Z". repeat split.
    + exists "2000Z". repeat split.
  - intros env d.
    assert (Heo : endOnly d "7000Z") by (repeat split).
    split; [exact Heo|].
    apply (proj2 (proj2 (proj2 (@update_keeps_duration_at_provider decimalDates
                                  env w "token-1" "e1" d)))
             "7000Z" NoData (Sample.graphEvent "e1" "1000Z" "2000Z"));
      try reflexivity; exact Heo.
Defined.

(** An end that is not after the start, rejected by both adapters. *)
Lemma createEvent_rejects_bad_times_witness :
  let d := Sample.createRequest "9000Z" "8000Z" (Some TEAMS) in
  let env := Sample.outside
               (Sample.graph (Sample.graphEvent "e1" "9000Z" "8000Z")) 0 in
  let w := Sample.world [] [] in
  (8000 <= 9000 \/ 1440 < differenceInMinutes 8000 9000)
  /\ (exists e,
         Google.createEvent "token-1" d env w = (inl e, w)
         /\ (Js.truthy (Some "token-1") = true -> isInvalidRequest e = true))
  /\ (let run := Microsoft.createEvent "token-1" d env w in
      (exists msg, fst run = inl (BadRequestException msg))
      /\ httpLog (snd run) = (httpLog w ++ [graphProbeCall "token-1"])%list
      /\ calendarEvents (snd run) = calendarEvents w
      /\ dbLog (snd run) = dbLog w).
Proof.
  intros d env w.
  assert (Hbad : 8000 <= 9000 \/ 1440 < differenceInMinutes 8000 9000)
    by (left; lia).
  split; [exact Hbad|].
  exact (@createEvent_rejects_bad_times decimalDates env w "token-1" d 9000 8000
           eq_refl eq_refl Hbad).
Defined.

(** ** The unified feed: a stable sort by start time, latest first *)

Lemma sort_insert_perm {A} (cmp : A -> A -> Z) (x : A) (l : list A) :
  Permutation (sort_insert cmp x l) (x :: l).
Proof.
  induction l as [|y l IH]; simpl; [reflexivity|].
  destruct (0 <? cmp x y); [|reflexivity].
  rewrite IH. apply perm_swap.
Qed.

Lemma sort_perm {A} (cmp : A -> A -> Z) (l : list A) :
  Permutation (sort cmp l) l.
Proof.
  induction l as [|x l IH]; simpl; [reflexivity|].
  rewrite sort_insert_perm. now constructor.
Qed.

(** Sorting commutes with a map that the comparison looks through. *)
Lemma sort_map {A B} (g : A -> B) (cmp : A -> A -> Z) (cmp' : B -> B -> Z)
  (l : list A) :
  (forall a b, cmp a b = cmp' (g a) (g b)) ->
  map g (sort cmp l) = sort cmp' (map g l).
Proof.
  intros Hc. induction l as [|x l IH]; simpl; [reflexivity|].
  rewrite <- IH. generalize (sort cmp l). intros s.
  induction s as [|y s IHs]; simpl; [reflexivity|].
  rewrite <- Hc. destruct (0 <? cmp x y); simpl; [now rewrite IHs|reflexivity].
Qed.

Section SortByKey.

Variables (A : Type) (cmp : A -> A -> Z) (key : A -> Z) (P : A -> Prop).
Hypothesis cmp_key : forall a b, P a -> P b -> cmp a b = key b - key a.

Let geKey (a b : A) : Prop := key a >= key b.
Let keyIs (t : Z) (a : A) : bool := key a =? t.

Lemma sort_keeps_P (l : list A) : Forall P l -> Forall P (sort cmp l).
Proof.
  intros H. apply Forall_forall. intros a Ha.
  apply (proj1 (Forall_forall P l) H).
  apply (Permutation_in a (sort_perm cmp l) Ha).
Qed.

Lemma sort_insert_sorted (x : A) (l : list A) :
  P x -> Forall P l ->
  StronglySorted geKey l -> StronglySorted geKey (sort_insert cmp x l).
Proof.
  intros Hx Hl Hs. induction Hs as [|y l Hs IH Hy]; simpl.
  - repeat constructor.
  - inversion Hl as [|? ? Py Pl]; subst.
    rewrite (cmp_key Hx Py).
    destruct (0 <? key y - key x) eqn:E.
    + apply Z.ltb_lt in E. constructor; [now apply IH|].
      apply Forall_forall. intros z Hz.
      apply (Permutation_in z (sort_insert_perm cmp x l)) in Hz.
      destruct Hz as [<-|Hz]; [unfold geKey; lia|].
      apply (proj1 (Forall_forall _ l) Hy z Hz).
    + apply Z.ltb_ge in E. constructor; [now constructor|].
      constructor; [unfold geKey; lia|].
      apply Forall_forall. intros z Hz.
      pose proof (proj1 (Forall_forall _ l) Hy z Hz) as Hyz.
      unfold geKey in *. lia.
Qed.

Lemma sort_sorted (l : list A) :
  Forall P l -> StronglySorted geKey (sort cmp l).
Proof.
  induction 1 as [|x l Hx Hl IH]; simpl; [constructor|].
  apply sort_insert_sorted; auto using sort_keeps_P.
Qed.

Lemma sort_insert_stable (t : Z) (x : A) (l : list A) :
  P x -> Forall P l ->
  filter (keyIs t) (sort_insert cmp x l) = filter (keyIs t) (x :: l).
Proof.
  intros Hx Hl. induction Hl as [|y l Py Pl IH]; simpl; [reflexivity|].
  rewrite (cmp_key Hx Py).
  destruct (0 <? key y - key x) eqn:E; [|reflexivity].
  apply Z.ltb_lt in E. simpl. rewrite IH. simpl. unfold keyIs.
  destruct (key y =? t) eqn:Ey, (key x =? t) eqn:Ex; try reflexivity.
  apply Z.eqb_eq in Ey, Ex. lia.
Qed.

Lemma sort_stable (t : Z) (l : list A) :
  Forall P l -> filter (keyIs t) (sort cmp l) = filter (keyIs t) l.
Proof.
  induction 1 as [|x l Hx Hl IH]; simpl; [reflexivity|].
  rewrite sort_insert_stable by auto using sort_keeps_P.
  simpl. now rewrite IH.
Qed.

Lemma sort_sorted_id (l : list A) :
  Forall P l -> StronglySorted geKey l -> sort cmp l = l.
Proof.
  intros Hl Hs. induction Hs as [|x l Hs IH Hx]; simpl; [reflexivity|].
  inversion Hl as [|? ? Px Pl]; subst. rewrite (IH Pl).
  destruct l as [|y l]; simpl; [reflexivity|].
  inversion Pl as [|? ? Py _]; subst. rewrite (cmp_key Px Py).
  inversion Hx as [|? ? Hxy _]; subst. unfold geKey in Hxy.
  replace (0 <? key y - key x) with false; [reflexivity|].
  symmetry. apply Z.ltb_ge. lia.
Qed.

Lemma sort_idempotent (l : list A) :
  Forall P l -> sort cmp (sort cmp l) = sort cmp l.
Proof.
  intros H. apply sort_sorted_id; [now apply sort_keeps_P|now apply sort_sorted].
Qed.

Lemma sorted_nth (l : list A) :
  StronglySorted geKey l ->
  forall i j a b,
    (i < j)%nat -> nth_error l i = Some a -> nth_error l j = Some b ->
    key a >= key b.
Proof.
  induction 1 as [|x l Hs IH Hx]; intros i j a b Hij Ha Hb.
  - destruct i; discriminate.
  - destruct j as [|j]; [lia|]. simpl in Hb.
    destruct i as [|i]; simpl in Ha.
    + injection Ha as <-. apply nth_error_In in Hb.
      apply (proj1 (Forall_forall _ l) Hx b Hb).
    + apply (IH i j a b); [lia|assumption|assumption].
Qed.

End SortByKey.

(** A computation that starts with a successful step continues from the
    world that step leaves. *)
Lemma bind_run {A B} (c : M A) (k : A -> M B) (env : Env) (w w' : World) (a : A) :
  c env w = (inr a, w') -> bind c k env w = k a env w'.
Proof. intros H. unfold bind. now rewrite H. Qed.

Section Feed.

Context {DL : DateLib}.

Let key (it : FeedItem) : Z :=
  match startOf it with Some t => t | None => 0 end.

Let starts (it : FeedItem) : Prop := exists t, startOf it = Some t.

Lemma byStartTimeDesc_key (a b : FeedItem) :
  starts a -> starts b -> Controller.byStartTimeDesc a b = key b - key a.
Proof.
  intros [ta Ha] [tb Hb]. unfold Controller.byStartTimeDesc, key.
  unfold startOf in *. now rewrite Ha, Hb.
Qed.

Lemma mapCalendarEvent_key (profile : UserProfile) (e : CalendarEvent) :
  orderKey (Controller.mapCalendarEvent profile e)
  = (ev_externalId e, calendar_event, toISOString (ev_startTime e)).
Proof. reflexivity. Qed.

Lemma loggedMeetingItem_key (n : Z) (m : LoggedMeeting) :
  orderKey (Controller.loggedMeetingItem n m)
  = (lm_id m, logged_meeting, toISOString (lm_meetingDateTime m)).
Proof. reflexivity. Qed.

(** The items mapped from the store start at the stored instants. *)
Lemma keys_start (l : list FeedItem) (times : list Z) :
  map fi_startTime l = map toISOString times ->
  Forall (fun t => validTime t = true) times ->
  Forall starts l.
Proof.
  revert times. induction l as [|it l IH]; intros [|t times] Hm Hv;
    try discriminate; constructor.
  - simpl in Hm. injection Hm as Hit _. inversion Hv; subst.
    exists t. unfold startOf. rewrite Hit. now apply Date_parse_toISOString.
  - simpl in Hm. injection Hm as _ Hl. inversion Hv; subst. now apply (IH times).
Qed.

Lemma mapM_mapLoggedMeeting (ms : list LoggedMeeting) :
  forall env w,
  exists items w',
    mapM Controller.mapLoggedMeeting ms env w = (inr items, w')
    /\ map orderKey items = meetingKeys ms.
Proof.
  induction ms as [|m ms IH]; intros env w; simpl.
  - exists [], w. split; reflexivity.
  - unfold bind at 1. unfold Controller.mapLoggedMeeting at 1, bind at 1, now at 1.
    unfold ret at 1. cbv beta iota. unfold bind at 1.
    match goal with
    | |- context [mapM Controller.mapLoggedMeeting ms env ?w1] =>
        destruct (IH env w1) as [items [w' [Hrun Hkeys]]]
    end.
    rewrite Hrun. unfold ret. eexists. eexists.
    split; [reflexivity|]. simpl. now rewrite Hkeys.
Qed.

(** [getLocalEvents] returns the merge and sort of the items mapped from
    the two query results. *)
Lemma getLocalEvents_feed env w provider userId leadId authHeader calendarProvider :
  exists calendarItems meetingItems,
    fst (Controller.getLocalEvents provider userId leadId authHeader
           calendarProvider env w)
    = inr (Controller.buildFeed calendarItems meetingItems)
    /\ map orderKey calendarItems
       = eventKeys (filter (Controller.calendarQuery provider userId leadId)
                      (calendarEvents w))
    /\ map orderKey meetingItems
       = meetingKeys (filter (Controller.loggedMeetingsQuery leadId)
                        (loggedMeetings w)).
Proof.
  set (W1 := db_step EventFind (calendarEvents w) (loggedMeetings w) w).
  set (W2 := db_step MeetingFind (calendarEvents w) (loggedMeetings w) W1).
  assert (Hprofile :
            exists profile w3,
              (if option_string_eqb calendarProvider (Some (provider_tag GOOGLE))
                  && Js.truthy authHeader
               then
                 try_catch
                   (Google.getUserProfile
                      (Js.remove_first "Bearer " (show authHeader)))
                   (fun _ => ret emptyProfile)
               else ret emptyProfile) env W2 = (inr profile, w3)).
  { destruct (_ && _).
    - unfold try_catch, ret.
      destruct (Google.getUserProfile _ env W2) as [[e|p] w3]; eauto.
    - unfold ret. eauto. }
  destruct Hprofile as [profile [w3 Hprofile]].
  destruct (mapM_mapLoggedMeeting
              (filter (Controller.loggedMeetingsQuery leadId) (loggedMeetings w))
              env w3) as [items [w4 [Hrun Hkeys]]].
  exists (map (Controller.mapCalendarEvent profile)
            (filter (Controller.calendarQuery provider userId leadId)
               (calendarEvents w))), items.
  split; [|split; [|exact Hkeys]].
  - unfold Controller.getLocalEvents, try_catch at 1.
    rewrite (@bind_run _ _ _ _ _ _ _ _
               (eq_refl : EventModel.find_
                            (Controller.calendarQuery provider userId leadId) env w
                          = (inr (filter (Controller.calendarQuery provider userId leadId)
                                    (calendarEvents w)), W1))).
    rewrite (@bind_run _ _ _ _ _ _ _ _
               (eq_refl : MeetingModel.find_
                            (Controller.loggedMeetingsQuery leadId) env W1
                          = (inr (filter (Controller.loggedMeetingsQuery leadId)
                                    (loggedMeetings w)), W2))).
    rewrite (@bind_run _ _ _ _ _ _ _ _ Hprofile).
    rewrite (@bind_run _ _ _ _ _ _ _ _ Hrun).
    reflexivity.
  - unfold eventKeys. rewrite map_map. reflexivity.
Qed.

Lemma filter_valid {X} (f : X -> Z) (q : X -> bool) (l : list X) :
  Forall (fun x => validTime (f x) = true) l ->
  Forall (fun t => validTime t = true) (map f (filter q l)).
Proof.
  induction 1 as [|x l Hx Hl IH]; simpl; [constructor|].
  destruct (q x); simpl; [now constructor|assumption].
Qed.

Lemma startsAt_key (t : Z) (l : list FeedItem) :
  Forall starts l ->
  filter (startsAt t) l = filter (fun it => key it =? t) l.
Proof.
  induction 1 as [|it l [t' Hit] Hl IH]; simpl; [reflexivity|].
  unfold startsAt at 1, key at 1. rewrite Hit. now rewrite IH.
Qed.

(** C4.  The unified local feed is the merge of the calendar events and
    the logged meetings that the two queries return, each in query order
    and the calendar events first, sorted by start time, latest first:
    an item that precedes another starts no earlier; items that start at
    the same instant keep their input order; sorting the feed again
    changes nothing; and a further run over the same two collections
    gives the items in the same order. *)
Theorem local_feed_is_sorted_and_stable
  (env : Env) (w : World)
  (provider userId leadId authHeader calendarProvider : option string) :
  validStore w ->
  exists feed calendarItems meetingItems,
    fst (Controller.getLocalEvents provider userId leadId authHeader
           calendarProvider env w) = inr feed
    /\ feed = Controller.buildFeed calendarItems meetingItems
    /\ map orderKey calendarItems
       = eventKeys (filter (Controller.calendarQuery provider userId leadId)
                      (calendarEvents w))
    /\ map orderKey meetingItems
       = meetingKeys (filter (Controller.loggedMeetingsQuery leadId)
                        (loggedMeetings w))
    /\ Permutation feed (calendarItems ++ meetingItems)
    /\ (forall i j a b,
           (i < j)%nat -> nth_error feed i = Some a -> nth_error feed j = Some b ->
           exists ta tb, startOf a = Some ta /\ startOf b = Some tb /\ ta >= tb)
    /\ (forall t,
           filter (startsAt t) feed
           = filter (startsAt t) (calendarItems ++ meetingItems))
    /\ sort Controller.byStartTimeDesc feed = feed
    /\ (forall env' w',
           calendarEvents w' = calendarEvents w ->
           loggedMeetings w' = loggedMeetings w ->
           exists feed',
             fst (Controller.getLocalEvents provider userId leadId authHeader
                    calendarProvider env' w') = inr feed'
             /\ map orderKey feed' = map orderKey feed).
Proof.
  intros [Hev Hms].
  destruct (getLocalEvents_feed env w provider userId leadId authHeader
              calendarProvider) as [cal [meet [Hrun [Hcal Hmeet]]]].
  exists (Controller.buildFeed cal meet), cal, meet.
  assert (Hstarts : Forall starts (cal ++ meet)).
  { apply Forall_app. split.
    - apply (@keys_start cal
               (map ev_startTime
                  (filter (Controller.calendarQuery provider userId leadId)
                     (calendarEvents w)))).
      + apply (f_equal (map snd)) in Hcal. unfold eventKeys in Hcal.
        rewrite !map_map in Hcal. rewrite map_map. exact Hcal.
      + now apply filter_valid.
    - apply (@keys_start meet
               (map lm_meetingDateTime
                  (filter (Controller.loggedMeetingsQuery leadId)
                     (loggedMeetings w)))).
      + apply (f_equal (map snd)) in Hmeet. unfold meetingKeys in Hmeet.
        rewrite !map_map in Hmeet. rewrite map_map. exact Hmeet.
      + now apply filter_valid. }
  pose proof (@sort_keeps_P FeedItem Controller.byStartTimeDesc starts
                (cal ++ meet) Hstarts) as Hsorted.
  unfold Controller.buildFeed.
  split; [exact Hrun|]. split; [reflexivity|].
  split; [exact Hcal|]. split; [exact Hmeet|].
  split; [apply sort_perm|].
  split.
  { intros i j a b Hij Ha Hb.
    destruct (proj1 (Forall_forall _ _) Hsorted a (nth_error_In _ _ Ha)) as [ta Hta].
    destruct (proj1 (Forall_forall _ _) Hsorted b (nth_error_In _ _ Hb)) as [tb Htb].
    exists ta, tb. split; [exact Hta|]. split; [exact Htb|].
    pose proof (@sorted_nth FeedItem key _
                  (@sort_sorted FeedItem Controller.byStartTimeDesc key starts
                     byStartTimeDesc_key (cal ++ meet) Hstarts)
                  i j a b Hij Ha Hb) as Hge.
    unfold key in Hge. now rewrite Hta, Htb in Hge. }
  split.
  { intros t.
    rewrite (@startsAt_key t _ Hstarts).
    rewrite (@startsAt_key t _ Hsorted).
    apply (@sort_stable FeedItem Controller.byStartTimeDesc key starts
             byStartTimeDesc_key t (cal ++ meet) Hstarts). }
  split.
  { apply (@sort_idempotent FeedItem Controller.byStartTimeDesc key starts
             byStartTimeDesc_key (cal ++ meet) Hstarts). }
  intros env' w' Hce Hlm.
  destruct (getLocalEvents_feed env' w' provider userId leadId authHeader
              calendarProvider) as [cal' [meet' [Hrun' [Hcal' Hmeet']]]].
  exists (Controller.buildFeed cal' meet'). split; [exact Hrun'|].
  unfold Controller.buildFeed.
  rewrite !(@sort_map _ _ orderKey Controller.byStartTimeDesc byStartTextDesc)
    by reflexivity.
  rewrite !map_app, Hcal', Hmeet', Hcal, Hmeet, Hce, Hlm. reflexivity.
Qed.

End Feed.

Lemma local_feed_witness :
  validStore Sample.feedWorld
  /\ exists feed calendarItems meetingItems,
      fst (Controller.getLocalEvents None None None None None
             (Sample.outside Sample.silent 0) Sample.feedWorld) = inr feed
      /\ feed = Controller.buildFeed calendarItems meetingItems
      /\ map orderKey calendarItems
         = eventKeys (filter (Controller.calendarQuery None None None)
                        (calendarEvents Sample.feedWorld))
      /\ map orderKey meetingItems
         = meetingKeys (filter (Controller.loggedMeetingsQuery None)
                          (loggedMeetings Sample.feedWorld))
      /\ Permutation feed (calendarItems ++ meetingItems)
      /\ (forall i j a b,
             (i < j)%nat -> nth_error feed i = Some a -> nth_error feed j = Some b ->
             exists ta tb, startOf a = Some ta /\ startOf b = Some tb /\ ta >= tb)
      /\ (forall t,
             filter (startsAt t) feed
             = filter (startsAt t) (calendarItems ++ meetingItems))
      /\ sort Controller.byStartTimeDesc feed = feed
      /\ (forall env' w',
             calendarEvents w' = calendarEvents Sample.feedWorld ->
             loggedMeetings w' = loggedMeetings Sample.feedWorld ->
             exists feed',
               fst (Controller.getLocalEvents None None None None None env' w')
               = inr feed'
               /\ map orderKey feed' = map orderKey feed).
Proof.
  assert (Hvalid : validStore Sample.feedWorld)
    by (split; repeat constructor).
  split; [exact Hvalid|].
  exact (@local_feed_is_sorted_and_stable decimalDates
           (Sample.outside Sample.silent 0) Sample.feedWorld
           None None None None None Hvalid).
Defined.

(** The feed of the sample store: the latest meeting first, then the
    event and the meeting that start together, the event first. *)
Example local_feed_order :
  option_map (map orderKey)
    (match fst (Controller.getLocalEvents None None None None None
                  (Sample.outside Sample.silent 0) Sample.feedWorld) with
     | inr feed => Some feed
     | inl _ => None
     end)
  = Some [("m2", logged_meeting, "5000Z"); ("e1", calendar_event, "3000Z");
          ("m1", logged_meeting, "3000Z"); ("e2", calendar_event, "1000Z")].
Proof. vm_compute. reflexivity. Qed.

(** * Further properties *)

(** ** Sync gateway: what header validation lets through *)

Lemma prefix_app (p s : string) : prefix p (p ++ s) = true.
Proof.
  induction p as [|c p IH]; simpl; [now destruct s|].
  destruct (Ascii.ascii_dec c c) as [_|N]; [exact IH|now elim N].
Qed.

Lemma drop_app (p s : string) : Js.drop (String.length p) (p ++ s) = s.
Proof.
  unfold Js.drop.
  replace (String.length (p ++ s) - String.length p)%nat with (String.length s).
  - induction p as [|c p IH]; simpl.
    + induction s as [|c s IHs]; simpl; [reflexivity|]. now rewrite IHs.
    + exact IH.
  - induction p as [|c p IH]; simpl; [now rewrite Nat.sub_0_r|exact IH].
Qed.

(** Removing the pattern from a text that starts with it leaves the rest. *)
Lemma remove_first_app (p s : string) : Js.remove_first p (p ++ s) = s.
Proof.
  assert (Heq : forall t,
             Js.remove_first p t
             = if prefix p t then Js.drop (String.length p) t
               else match t with
                    | EmptyString => EmptyString
                    | String c t' => String c (Js.remove_first p t')
                    end) by (intros [|c t]; reflexivity).
  rewrite Heq, prefix_app. apply drop_app.
Qed.

Lemma truthy_nonempty (s : string) : Js.truthy (Some s) = true <-> s <> EmptyString.
Proof. destruct s; simpl; split; congruence. Qed.

Lemma attendees_have_email (l : list Attendee) :
  (forall a, In a l -> at_email a <> EmptyString) ->
  forallb (fun a => Js.truthy (Some (at_email a))) l = true.
Proof.
  intros H. apply forallb_forall. intros a Ha.
  apply truthy_nonempty. now apply H.
Qed.

Lemma provider_of_tag_tag (p : CalendarProvider) :
  provider_of_tag (provider_tag p) = Some p.
Proof. now destruct p. Qed.

Lemma provider_of_tag_some (s : string) (p : CalendarProvider) :
  provider_of_tag s = Some p -> s = provider_tag p.
Proof.
  unfold provider_of_tag. intros H. apply find_some in H as [_ H].
  symmetry. now apply String.eqb_eq.
Qed.

(** X1.  A header [Bearer <token>] with a non-empty token, together with
    a provider header that spells a known provider in any letter case,
    validates to exactly that token and that provider. *)
Theorem validateHeaders_bearer_round_trip
  (token tag : string) (p : CalendarProvider) :
  token <> EmptyString ->
  Js.toLowerCase tag = provider_tag p ->
  Controller.validateHeaders (Some ("Bearer " ++ token)) (Some tag)
  = inr {| vh_accessToken := token; vh_provider := p |}.
Proof.
  intros Ht Hp. unfold Controller.validateHeaders.
  change (Js.truthy (Some ("Bearer " ++ token))) with true.
  assert (Htag : Js.truthy (Some tag) = true).
  { apply truthy_nonempty. intros ->. now destruct p. }
  rewrite Htag. cbn [negb].
  assert (Hdef : forall s, Js.truthy (Some s) = true ->
                           Js.or_default (Some s) EmptyString = s).
  { intros s Hs. unfold Js.or_default. now rewrite Hs. }
  rewrite (Hdef tag Htag), Hp, provider_of_tag_tag.
  rewrite (Hdef ("Bearer " ++ token) eq_refl).
  rewrite (remove_first_app "Bearer " token).
  apply truthy_nonempty in Ht. now rewrite Ht.
Qed.

Lemma validateHeaders_bearer_round_trip_witness :
  "tok-1" <> EmptyString
  /\ Js.toLowerCase "MicroSoft" = provider_tag MICROSOFT
  /\ Controller.validateHeaders (Some ("Bearer " ++ "tok-1")) (Some "MicroSoft")
     = inr {| vh_accessToken := "tok-1"; vh_provider := MICROSOFT |}.
Proof.
  split; [discriminate|]. split; [reflexivity|].
  apply (@validateHeaders_bearer_round_trip "tok-1" "MicroSoft" MICROSOFT);
    [discriminate|reflexivity].
Defined.

(** What a successful validation says of the two headers. *)
Lemma validateHeaders_inversion
  (authHeader provider : option string) (v : ValidatedHeaders) :
  Controller.validateHeaders authHeader provider = inr v ->
  exists a p,
    authHeader = Some a /\ provider = Some p
    /\ a <> EmptyString
    /\ vh_accessToken v = Js.remove_first "Bearer " a
    /\ vh_accessToken v <> EmptyString
    /\ Js.toLowerCase p = provider_tag (vh_provider v).
Proof.
  unfold Controller.validateHeaders.
  destruct authHeader as [a|]; [|discriminate].
  destruct (Js.truthy (Some a)) eqn:Ha; [|discriminate]. cbn [negb].
  destruct provider as [p|]; [|discriminate].
  destruct (Js.truthy (Some p)) eqn:Hp; [|discriminate]. cbn [negb].
  assert (Hdef : forall s, Js.truthy (Some s) = true ->
                           Js.or_default (Some s) EmptyString = s).
  { intros s Hs. unfold Js.or_default. now rewrite Hs. }
  rewrite (Hdef p Hp), (Hdef a Ha).
  destruct (provider_of_tag (Js.toLowerCase p)) as [q|] eqn:Hq; [|discriminate].
  destruct (Js.truthy (Some (Js.remove_first "Bearer " a))) eqn:Ht; [|discriminate].
  cbn [negb]. intros H. injection H as <-. cbn [vh_accessToken vh_provider].
  exists a, p. repeat split; try reflexivity.
  - now apply truthy_nonempty.
  - now apply truthy_nonempty.
  - now apply provider_of_tag_some.
Qed.

(** X2.  Whatever the two headers, a validation that succeeds hands on a
    non-empty token, which is the authorization header without its first
    [Bearer ], and the provider whose tag is the provider header in lower
    case. *)
Theorem validateHeaders_sound
  (authHeader provider : option string) (v : ValidatedHeaders) :
  Controller.validateHeaders authHeader provider = inr v ->
  exists a p,
    authHeader = Some a /\ provider = Some p
    /\ a <> EmptyString
    /\ vh_accessToken v = Js.remove_first "Bearer " a
    /\ vh_accessToken v <> EmptyString
    /\ Js.toLowerCase p = provider_tag (vh_provider v).
Proof. apply validateHeaders_inversion. Qed.

Lemma validateHeaders_sound_witness :
  exists a p,
    Some "Bearer abc" = Some a /\ Some "GOOGLE" = Some p
    /\ a <> EmptyString
    /\ "abc" = Js.remove_first "Bearer " a
    /\ "abc" <> EmptyString
    /\ Js.toLowerCase p = provider_tag GOOGLE.
Proof.
  exact (@validateHeaders_sound (Some "Bearer abc") (Some "GOOGLE")
           {| vh_accessToken := "abc"; vh_provider := GOOGLE |} eq_refl).
Defined.

(** ** The window of accepted durations *)

(** A duration is at most 1440 whole minutes exactly when it is below
    24 hours and one minute. *)
Lemma differenceInMinutes_day (e s : Z) :
  s < e -> (differenceInMinutes e s >? 1440) = false <-> e - s < 86460000.
Proof.
  intros Hlt. unfold differenceInMinutes.
  rewrite Z.quot_div_nonneg by lia.
  rewrite Z.gtb_ltb, Z.ltb_ge.
  split; intros H.
  - apply Z.nle_gt. intros Hge.
    assert (1441 <= (e - s) / 60000) by (apply Z.div_le_lower_bound; lia). lia.
  - assert ((e - s) / 60000 < 1441) by (apply Z.div_lt_upper_bound; lia). lia.
Qed.

(** X3.  On two readable times the Google validation accepts exactly the
    requests whose end is after the start by less than 24 hours and one
    minute (86 460 000 ms): the bound is on whole minutes, so up to 59.999
    seconds above 24 hours pass.  The Microsoft validation accepts exactly
    those of them that do not start before the clock, which it reads
    once. *)
Theorem validateTimeLogic_window
  {DL : DateLib} (env : Env) (w : World) (startTime endTime : string) (ts te : Z) :
  parseISO startTime = Some ts ->
  parseISO endTime = Some te ->
  (Google.validateTimeLogic startTime endTime = inr tt
   <-> ts < te /\ te - ts < 86460000)
  /\ (fst (Microsoft.validateTimeLogic startTime endTime env w) = inr tt
      <-> clock env (clockReads w) <= ts /\ ts < te /\ te - ts < 86460000)
  /\ clockReads (snd (Microsoft.validateTimeLogic startTime endTime env w))
     = S (clockReads w).
Proof.
  intros Hs He. split; [|split].
  - rewrite (google_validateTimeLogic_spec _ _ Hs He).
    destruct (ts >=? te) eqn:Hge.
    + rewrite Z.geb_leb in Hge. apply Z.leb_le in Hge.
      split; [discriminate|lia].
    + rewrite Z.geb_leb in Hge. apply Z.leb_gt in Hge.
      destruct (differenceInMinutes te ts >? 1440) eqn:Hd.
      * split; [discriminate|]. intros [_ Hb].
        apply (differenceInMinutes_day Hge) in Hb. congruence.
      * split; [|reflexivity]. intros _. split; [assumption|].
        now apply (differenceInMinutes_day Hge).
  - rewrite (microsoft_validateTimeLogic_spec env w _ _ Hs He).
    destruct (ts <? clock env (clockReads w)) eqn:Hpast.
    + apply Z.ltb_lt in Hpast. split; [discriminate|lia].
    + apply Z.ltb_ge in Hpast.
      destruct (te <=? ts) eqn:Hle.
      * apply Z.leb_le in Hle. split; [discriminate|lia].
      * apply Z.leb_gt in Hle. change (24 * 60) with 1440.
        destruct (differenceInMinutes te ts >? 1440) eqn:Hd.
        -- split; [discriminate|]. intros [_ [_ Hb]].
           apply (differenceInMinutes_day Hle) in Hb. congruence.
        -- split; [|reflexivity]. intros _. repeat split; try assumption.
           now apply (differenceInMinutes_day Hle).
  - cbv beta iota zeta delta [Microsoft.validateTimeLogic bind now throw ret].
    rewrite Hs, He. cbn [snd].
    destruct (ts <? _); [reflexivity|].
    destruct (te <=? ts); [reflexivity|].
    destruct (_ >? _); reflexivity.
Qed.

Lemma validateTimeLogic_window_witness :
  (@Google.validateTimeLogic decimalDates "1000Z" "86460999Z" = inr tt
   <-> 1000 < 86460999 /\ 86460999 - 1000 < 86460000)
  /\ (fst (@Microsoft.validateTimeLogic decimalDates "1000Z" "86460999Z"
             (Sample.outside Sample.silent 500) (Sample.world [] [])) = inr tt
      <-> 500 <= 1000 /\ 1000 < 86460999 /\ 86460999 - 1000 < 86460000)
  /\ clockReads (snd (@Microsoft.validateTimeLogic decimalDates "1000Z" "86460999Z"
                        (Sample.outside Sample.silent 500) (Sample.world [] [])))
     = 1%nat.
Proof.
  exact (@validateTimeLogic_window decimalDates
           (Sample.outside Sample.silent 500) (Sample.world [] [])
           "1000Z" "86460999Z" 1000 86460999 eq_refl eq_refl).
Defined.

(** ** Running a computation step by step *)

(** A handler that only rethrows leaves the world as the body left it. *)
Lemma try_catch_rethrow_world {A} (c : M A) (h : Exn -> M A) (env : Env) (w : World) :
  (forall e env' w', snd (h e env' w') = w') ->
  snd (try_catch c h env w) = snd (c env w).
Proof.
  intros Hh. unfold try_catch.
  destruct (c env w) as [[e|a] w']; cbn [snd]; [apply Hh|reflexivity].
Qed.

(** A failure that leaves a [try] whose handler only rethrows is one the
    handler threw. *)
Lemma try_catch_rethrow_error {A} (c : M A) (h : Exn -> M A) (P : Exn -> Prop)
  (env : Env) (w : World) (e : Exn) :
  (forall e0 env' w', exists e', h e0 env' w' = (inl e', w') /\ P e') ->
  fst (try_catch c h env w) = inl e -> P e.
Proof.
  intros Hh. unfold try_catch.
  destruct (c env w) as [[e0|a] w']; cbn [fst]; [|discriminate].
  destruct (Hh e0 env w') as [e' [-> He']]. cbn [fst]. now intros [= <-].
Qed.

Lemma try_catch_fail {A} (c : M A) (h : Exn -> M A) (env : Env) (w w' : World)
  (e : Exn) :
  c env w = (inl e, w') -> try_catch c h env w = h e env w'.
Proof. intros H. unfold try_catch. now rewrite H. Qed.

Lemma try_catch_ok {A} (c : M A) (h : Exn -> M A) (env : Env) (w w' : World)
  (a : A) :
  c env w = (inr a, w') -> try_catch c h env w = (inr a, w').
Proof. intros H. unfold try_catch. now rewrite H. Qed.

(** Inside a [try]: a step that succeeds is followed by the rest of the
    body, a step that fails by the handler. *)
Lemma try_bind_run {A B} (c : M A) (k : A -> M B) (h : Exn -> M B)
  (env : Env) (w w' : World) (a : A) :
  c env w = (inr a, w') ->
  try_catch (bind c k) h env w = try_catch (k a) h env w'.
Proof. intros H. unfold try_catch, bind. now rewrite H. Qed.

Lemma try_bind_fail {A B} (c : M A) (k : A -> M B) (h : Exn -> M B)
  (env : Env) (w w' : World) (e : Exn) :
  c env w = (inl e, w') ->
  try_catch (bind c k) h env w = h e env w'.
Proof. intros H. unfold try_catch, bind. now rewrite H. Qed.

Lemma bind_fail {A B} (c : M A) (k : A -> M B) (env : Env) (w w' : World) (e : Exn) :
  c env w = (inl e, w') -> bind c k env w = (inl e, w').
Proof. intros H. unfold bind. now rewrite H. Qed.

(** The log of transport calls a computation leaves, when it only grows. *)
Lemma steps_save_log (s e : JsDate) (doc : Z -> Z -> CalendarEvent) :
  steps logGrows (EventModel.save s e doc).
Proof.
  intros env w. unfold EventModel.save.
  destruct s, e; try destruct (EventModel.requiredPresent _);
    exists []; cbn; now rewrite app_nil_r.
Qed.

Lemma steps_dateOrNow {DL : DateLib} (R : World -> World -> Prop) (HR : Calm R)
  (s : string) : steps R (Google.dateOrNow s).
Proof. unfold Google.dateOrNow. stepping HR. Qed.

(** Stepping through a create. *)
Ltac walk_create HR :=
  repeat (first [ apply steps_save_log
                | apply (steps_dateOrNow HR)
                | walk1 HR ]).

(** Every call through [makeGoogleApiCall] is recorded, whatever the
    provider answers. *)
Lemma makeGoogleApiCall_world (accessToken endpoint : string) (method : HttpMethod)
  (data : HttpBody) (baseUrl : option string) (env : Env) (w : World) :
  snd (Google.makeGoogleApiCall accessToken endpoint method data baseUrl env w)
  = snd (request {| hc_method := method;
                    hc_url := Js.or_default baseUrl Google.googleApiUrl ++ endpoint;
                    hc_token := accessToken;
                    hc_body := data |} env w).
Proof.
  unfold Google.makeGoogleApiCall, bind, request.
  now destruct (transport env (httpLog w) _).
Qed.

(** The calls a computation has logged stay at the head of the log of
    whatever follows it. *)
Lemma bind_log_prefix {A B} (c : M A) (k : A -> M B) (env : Env) (w : World)
  (calls : list HttpCall) :
  httpLog (snd (c env w)) = calls ->
  (forall a, steps logGrows (k a)) ->
  exists rest, httpLog (snd (bind c k env w)) = (calls ++ rest)%list.
Proof.
  intros Hc Hk. unfold bind.
  destruct (c env w) as [[e|a] w'] eqn:E; cbn [snd] in *.
  - exists []. now rewrite app_nil_r.
  - destruct (Hk a env w') as [rest Hrest]. exists rest. now rewrite Hrest, Hc.
Qed.

(** The probe of calendar access is one call, whether it is granted or
    not. *)
Lemma validateCalendarAccess_run (accessToken : string) (env : Env) (w : World) :
  Microsoft.validateCalendarAccess accessToken env w
  = (match transport env (httpLog w) (graphProbeCall accessToken) with
     | inl _ =>
         inl (UnauthorizedException
                "Calendar access not authorized. Please connect and authorize your calendar.")
     | inr _ => inr tt
     end,
     snd (request (graphProbeCall accessToken) env w)).
Proof.
  cbv beta iota zeta delta
    [Microsoft.validateCalendarAccess try_catch bind Microsoft.makeGraphApiCall
     request throw ret graphProbeCall].
  now destruct (transport env (httpLog w) _).
Qed.

(** ** Times that cannot be read *)

(** X4.  When one of the two times of a request cannot be read as a date,
    the Google validation accepts it, for its comparisons with an Invalid
    Date are all false, and [createEvent] sends the request on to the
    provider; the Microsoft validation refuses it as an invalid date
    format, and [createEvent] stops after the probe of calendar access. *)
Theorem unreadable_times_pass_google_not_microsoft
  {DL : DateLib} (env : Env) (w : World) (accessToken : string) (d : CreateEventDto) :
  parseISO (ce_startTime d) = None \/ parseISO (ce_endTime d) = None ->
  Google.validateTimeLogic (ce_startTime d) (ce_endTime d) = inr tt
  /\ (accessToken <> EmptyString ->
      exists rest,
        httpLog (snd (Google.createEvent accessToken d env w))
        = (httpLog w
           ++ googleCreateCall accessToken d (requestIdOf env w d) :: rest)%list)
  /\ fst (Microsoft.validateTimeLogic (ce_startTime d) (ce_endTime d) env w)
     = inl (BadRequestException "Invalid date format. Please use ISO 8601 format.")
  /\ httpLog (snd (Microsoft.createEvent accessToken d env w))
     = (httpLog w ++ [graphProbeCall accessToken])%list
  /\ calendarEvents (snd (Microsoft.createEvent accessToken d env w))
     = calendarEvents w
  /\ exists msg,
       fst (Microsoft.createEvent accessToken d env w) = inl (BadRequestException msg).
Proof.
  intros Hbad.
  assert (Hg : Google.validateTimeLogic (ce_startTime d) (ce_endTime d) = inr tt).
  { unfold Google.validateTimeLogic.
    destruct Hbad as [-> | ->]; [reflexivity|].
    now destruct (parseISO (ce_startTime d)). }
  assert (Hm : forall env' w',
             Microsoft.validateTimeLogic (ce_startTime d) (ce_endTime d) env' w'
             = (inl (BadRequestException
                       "Invalid date format. Please use ISO 8601 format."),
                snd (now env' w'))).
  { intros env' w'. unfold Microsoft.validateTimeLogic, bind, now, throw.
    destruct Hbad as [-> | ->]; [reflexivity|].
    now destruct (parseISO (ce_startTime d)). }
  split; [exact Hg|]. split; [|split; [|split; [|split]]].
  - intros Htok. apply truthy_nonempty in Htok.
    unfold Google.createEvent.
    rewrite try_catch_rethrow_world
      by (intros e env' w'; destruct (isHttpException e); reflexivity).
    rewrite Hg, Htok. cbn [negb when].
    erewrite bind_run by reflexivity.
    erewrite bind_run by reflexivity.
    unfold requestIdOf.
    destruct (Google.isKind GOOGLE_MEET (ce_locationType d));
      erewrite bind_run by reflexivity;
      match goal with
      | |- context [bind ?c ?k env ?w1] =>
          match goal with
          | |- context [googleCreateCall _ _ ?rid] =>
              destruct (@bind_log_prefix _ _ c k env w1
                          (httpLog w ++ [googleCreateCall accessToken d rid])%list)
                as [rest Hrest]
          end
      end;
      [ rewrite makeGoogleApiCall_world; reflexivity
      | intro data; destruct data;
        walk_create logGrows_calm
      | exists rest; rewrite Hrest, <- app_assoc; reflexivity
      | rewrite makeGoogleApiCall_world; reflexivity
      | intro data; destruct data;
        walk_create logGrows_calm
      | exists rest; rewrite Hrest, <- app_assoc; reflexivity ].
  - now rewrite Hm.
  - unfold Microsoft.createEvent.
    rewrite try_catch_rethrow_world by reflexivity.
    unfold bind at 1. rewrite validateCalendarAccess_run.
    destruct (transport env (httpLog w) _); [reflexivity|].
    unfold bind at 1. rewrite Hm. reflexivity.
  - unfold Microsoft.createEvent.
    rewrite try_catch_rethrow_world by reflexivity.
    unfold bind at 1. rewrite validateCalendarAccess_run.
    destruct (transport env (httpLog w) _); [reflexivity|].
    unfold bind at 1. rewrite Hm. reflexivity.
  - unfold Microsoft.createEvent, try_catch.
    unfold bind at 1. rewrite validateCalendarAccess_run.
    destruct (transport env (httpLog w) _); [eexists; reflexivity|].
    unfold bind at 1. rewrite Hm. eexists; reflexivity.
Qed.

Lemma unreadable_times_witness :
  let d := Sample.createRequest "tomorrow" "2000Z" (Some GOOGLE_MEET) in
  let env := Sample.outside (Sample.google (Sample.googleEvent "e1" "1000Z" "2000Z")) 0 in
  let w := Sample.world [] [] in
  (@parseISO decimalDates (ce_startTime d) = None
   \/ @parseISO decimalDates (ce_endTime d) = None)
  /\ @Google.validateTimeLogic decimalDates (ce_startTime d) (ce_endTime d) = inr tt
  /\ (exists rest,
        httpLog (snd (@Google.createEvent decimalDates "token-1" d env w))
        = (httpLog w ++ googleCreateCall "token-1" d (requestIdOf env w d) :: rest)%list)
  /\ httpLog (snd (@Microsoft.createEvent decimalDates "token-1" d env w))
     = (httpLog w ++ [graphProbeCall "token-1"])%list.
Proof.
  intros d env w.
  assert (Hbad : @parseISO decimalDates (ce_startTime d) = None
                 \/ @parseISO decimalDates (ce_endTime d) = None)
    by (left; reflexivity).
  destruct (@unreadable_times_pass_google_not_microsoft decimalDates env w
              "token-1" d Hbad) as [Hg [Hcreate [_ [Hlog _]]]].
  split; [exact Hbad|]. split; [exact Hg|].
  split; [apply Hcreate; discriminate|exact Hlog].
Defined.

(** ** The errors the adapters raise *)

(** X5.  Neither [createEvent] nor [updateEvent] of an adapter lets a raw
    error out.  What leaves the Google [createEvent] is an HTTP
    exception; what leaves the Google [updateEvent] and the Microsoft
    [createEvent] is a bad request that names the operation; the
    Microsoft [updateEvent] fails either as unauthorized, from the probe
    of calendar access, or as such a bad request. *)
Theorem adapter_failures_are_http_exceptions
  {DL : DateLib} (env : Env) (w : World) (accessToken eventId : string)
  (c : CreateEventDto) (u : UpdateEventDto) :
  (forall e, fst (Google.createEvent accessToken c env w) = inl e ->
             isHttpException e = true)
  /\ (forall e, fst (Google.updateEvent accessToken eventId u env w) = inl e ->
                exists msg,
                  e = BadRequestException ("Failed to update calendar event: " ++ msg))
  /\ (forall e, fst (Microsoft.createEvent accessToken c env w) = inl e ->
                exists msg,
                  e = BadRequestException ("Failed to create calendar event: " ++ msg))
  /\ (forall e, fst (Microsoft.updateEvent accessToken eventId u env w) = inl e ->
                e = UnauthorizedException
                      "Calendar access not authorized. Please connect and authorize your calendar."
                \/ exists msg,
                     e = BadRequestException
                           ("Failed to update calendar event: " ++ msg)).
Proof.
  split; [|split; [|split]].
  - intros e. unfold Google.createEvent.
    apply try_catch_rethrow_error with (P := fun e => isHttpException e = true).
    intros e0 env' w'.
    destruct e0; cbn; eexists; (split; [reflexivity|reflexivity]).
  - intros e. unfold Google.updateEvent.
    apply try_catch_rethrow_error
      with (P := fun e => exists msg,
                   e = BadRequestException ("Failed to update calendar event: " ++ msg)).
    intros e0 env' w'. eexists. split; [reflexivity|]. eauto.
  - intros e. unfold Microsoft.createEvent.
    apply try_catch_rethrow_error
      with (P := fun e => exists msg,
                   e = BadRequestException ("Failed to create calendar event: " ++ msg)).
    intros e0 env' w'. eexists. split; [reflexivity|]. eauto.
  - intros e. unfold Microsoft.updateEvent. unfold bind at 1.
    rewrite validateCalendarAccess_run.
    destruct (transport env (httpLog w) _); cbn [fst].
    + intros [= <-]. now left.
    + intros H. right. revert H.
      apply try_catch_rethrow_error
        with (P := fun e => exists msg,
                     e = BadRequestException
                           ("Failed to update calendar event: " ++ msg)).
      intros e0 env' w'. eexists. split; [reflexivity|]. eauto.
Qed.

Lemma adapter_failures_witness :
  let env := Sample.outside (fun _ => inl Sample.networkDown) 0 in
  let w := Sample.world [] [] in
  isHttpException (UnauthorizedException "Access token is required") = true
  /\ (exists msg,
         BadRequestException
           "Failed to update calendar event: Google Calendar API error: timeout of 5000ms exceeded"
         = BadRequestException ("Failed to update calendar event: " ++ msg)).
Proof.
  intros env w.
  destruct (@adapter_failures_are_http_exceptions decimalDates env w
              EmptyString "e1"
              (Sample.createRequest "1000Z" "2000Z" None) (timesOnly None None))
    as [Hcreate _].
  destruct (@adapter_failures_are_http_exceptions decimalDates env w
              "token-1" "e1"
              (Sample.createRequest "1000Z" "2000Z" None) (timesOnly None None))
    as [_ [Hupdate _]].
  split; [apply Hcreate; reflexivity|].
  apply Hupdate; reflexivity.
Defined.

(** The provider refuses the token: the error body of a Google answer
    with code 401. *)
Lemma google_classifyError_401 (err : HttpError) (message : option string) :
  he_error err = Some {| ae_code := CodeNumber 401; ae_message := message |} ->
  Google.classifyError err
  = UnauthorizedException
      ("Google Calendar API authentication failed: "
       ++ Js.or_default message "Invalid access token").
Proof. intros H. unfold Google.classifyError. now rewrite H. Qed.

(** X6.  One refusal, four outcomes.  When Google answers the create call
    with its error 401, [createEvent] fails as unauthorized and stores
    nothing; when it answers the fetch of [updateEvent] the same way, the
    failure is a bad request.  When Microsoft refuses the probe of
    calendar access, [createEvent] fails as a bad request and
    [updateEvent] as unauthorized; neither sends anything after the
    probe. *)
Theorem refused_token_surfaces_differently
  {DL : DateLib} (env : Env) (w : World) (accessToken eventId : string)
  (c : CreateEventDto) (u : UpdateEventDto) (err : HttpError)
  (message : option string) :
  he_error err = Some {| ae_code := CodeNumber 401; ae_message := message |} ->
  let refusal :=
    ("Google Calendar API authentication failed: "
     ++ Js.or_default message "Invalid access token") in
  let denied :=
    "Calendar access not authorized. Please connect and authorize your calendar." in
  (accessToken <> EmptyString ->
   Google.validateTimeLogic (ce_startTime c) (ce_endTime c) = inr tt ->
   transport env (httpLog w) (googleCreateCall accessToken c (requestIdOf env w c))
   = inl err ->
   fst (Google.createEvent accessToken c env w) = inl (UnauthorizedException refusal)
   /\ calendarEvents (snd (Google.createEvent accessToken c env w))
      = calendarEvents w)
  /\ (transport env (httpLog w) (googleGetCall accessToken eventId) = inl err ->
      fst (Google.updateEvent accessToken eventId u env w)
      = inl (BadRequestException ("Failed to update calendar event: " ++ refusal))
      /\ snd (Google.updateEvent accessToken eventId u env w)
         = snd (request (googleGetCall accessToken eventId) env w))
  /\ (transport env (httpLog w) (graphProbeCall accessToken) = inl err ->
      fst (Microsoft.createEvent accessToken c env w)
      = inl (BadRequestException ("Failed to create calendar event: " ++ denied))
      /\ fst (Microsoft.updateEvent accessToken eventId u env w)
         = inl (UnauthorizedException denied)
      /\ snd (Microsoft.createEvent accessToken c env w)
         = snd (request (graphProbeCall accessToken) env w)
      /\ snd (Microsoft.updateEvent accessToken eventId u env w)
         = snd (request (graphProbeCall accessToken) env w)).
Proof.
  intros Herr refusal denied. split; [|split].
  - intros Htok Hvalid Hcall. apply truthy_nonempty in Htok.
    assert (Hrun : exists w1,
               Google.createEvent accessToken c env w
               = (inl (UnauthorizedException refusal), w1)
               /\ calendarEvents w1 = calendarEvents w).
    { unfold Google.createEvent. rewrite Hvalid, Htok. cbn [negb when].
      unfold requestIdOf, googleCreateCall in Hcall.
      destruct (Google.isKind GOOGLE_MEET (ce_locationType c));
        eexists; (split; [|shelve]);
        (erewrite try_catch_fail;
         [|erewrite bind_run by reflexivity;
           erewrite bind_run by reflexivity;
           erewrite bind_run by reflexivity;
           apply bind_fail;
           unfold Google.makeGoogleApiCall, bind, request;
           cbn [httpLog Js.or_default]; rewrite Hcall; cbv beta iota;
           rewrite (google_classifyError_401 _ Herr); reflexivity]);
        cbn; reflexivity.
      Unshelve. all: reflexivity. }
    destruct Hrun as [w1 [-> Hw1]]. split; [reflexivity|exact Hw1].
  - intros Hcall. unfold googleGetCall in Hcall.
    unfold Google.updateEvent.
    erewrite try_catch_fail;
      [|apply bind_fail;
        unfold Google.makeGoogleApiCall, bind, request;
        cbn [httpLog Js.or_default]; rewrite Hcall; cbv beta iota;
        rewrite (google_classifyError_401 _ Herr); reflexivity].
    cbn; split; reflexivity.
  - intros Hcall.
    assert (Hprobe : Microsoft.validateCalendarAccess accessToken env w
                     = (inl (UnauthorizedException denied),
                        snd (request (graphProbeCall accessToken) env w)))
      by (rewrite validateCalendarAccess_run, Hcall; reflexivity).
    unfold Microsoft.createEvent, Microsoft.updateEvent.
    erewrite bind_fail by exact Hprobe.
    erewrite try_catch_fail by (apply bind_fail; exact Hprobe).
    cbn. repeat split.
Qed.

Lemma refused_token_witness :
  let err := {| he_status := Some 401; he_statusText := None;
                he_error := Some {| ae_code := CodeNumber 401;
                                    ae_message := Some "Invalid Credentials" |};
                he_code := None; he_message := None |} in
  let env := Sample.outside (fun _ => inl err) 0 in
  let w := Sample.world [Sample.storedEvent "e1" 1000 2000] [] in
  let c := Sample.createRequest "1000Z" "2000Z" (Some IN_PERSON) in
  fst (@Google.createEvent decimalDates "token-1" c env w)
  = inl (UnauthorizedException
           "Google Calendar API authentication failed: Invalid Credentials")
  /\ fst (@Google.updateEvent decimalDates "token-1" "e1" (timesOnly None None) env w)
     = inl (BadRequestException
              "Failed to update calendar event: Google Calendar API authentication failed: Invalid Credentials")
  /\ fst (@Microsoft.createEvent decimalDates "token-1" c env w)
     = inl (BadRequestException
              "Failed to create calendar event: Calendar access not authorized. Please connect and authorize your calendar.")
  /\ fst (@Microsoft.updateEvent decimalDates "token-1" "e1" (timesOnly None None) env w)
     = inl (UnauthorizedException
              "Calendar access not authorized. Please connect and authorize your calendar.").
Proof.
  intros err env w c.
  destruct (@refused_token_surfaces_differently decimalDates env w "token-1" "e1"
              c (timesOnly None None) err (Some "Invalid Credentials") eq_refl)
    as [Hcreate [Hupdate Hgraph]].
  split; [apply Hcreate; [discriminate|reflexivity|reflexivity]|].
  split; [apply Hupdate; reflexivity|].
  destruct (Hgraph eq_refl) as [H1 [H2 _]]. split; [exact H1|exact H2].
Defined.

(** ** Create: the record in the local mirror *)

(** The profile request is one call and never fails. *)
Lemma getUserProfile_run (accessToken : string) (env : Env) (w : World) :
  exists profile,
    Google.getUserProfile accessToken env w
    = (inr profile, snd (request (googleProfileCall accessToken) env w)).
Proof.
  cbv beta iota zeta delta
    [Google.getUserProfile try_catch bind Google.makeGoogleApiCall request
     throw ret googleProfileCall Js.or_default Js.truthy].
  cbn [append].
  destruct (transport env (httpLog w) _) as [err|[| |p|]]; cbn; eauto.
Qed.

Lemma dateOrNow_run {DL : DateLib} (s : string) (t : Z) (env : Env) (w : World) :
  s <> EmptyString -> Date_parse s = Some t ->
  Google.dateOrNow s env w = (inr (Some t), w).
Proof.
  intros Hs Ht. unfold Google.dateOrNow.
  apply truthy_nonempty in Hs. rewrite Hs, Ht. reflexivity.
Qed.

(** Logging an activity records it, and fails only as an internal error
    that its callers catch. *)
Lemma logActivity_world (payload : ActivityPayload) (env : Env) (w : World) :
  snd (logActivity payload env w)
  = {| calendarEvents := calendarEvents w; loggedMeetings := loggedMeetings w;
       httpLog := httpLog w; dbLog := dbLog w;
       activityLog := activityLog w ++ [payload]; taskLog := taskLog w;
       clockReads := clockReads w; randomDraws := randomDraws w;
       created := created w |}.
Proof. unfold logActivity. now destruct (activityPost env (activityLog w) payload). Qed.

(** An activity that is logged inside its own [try] is recorded and cannot
    make the operation fail. *)
Lemma try_logActivity_run {A} (c : M A) (payload : ActivityPayload)
  (env : Env) (w w' : World) (x : A) :
  c env w = (inr x, w') ->
  try_catch (bind c (fun _ => bind (logActivity payload) (fun _ => ret tt)))
    (fun _ => ret tt) env w
  = (inr tt, snd (logActivity payload env w')).
Proof.
  intros Hc. unfold try_catch, bind. rewrite Hc.
  unfold logActivity. now destruct (activityPost env (activityLog w') payload).
Qed.

Lemma try_logActivity_plain (payload : ActivityPayload) (env : Env) (w : World) :
  try_catch (bind (logActivity payload) (fun _ => ret tt)) (fun _ => ret tt) env w
  = (inr tt, snd (logActivity payload env w)).
Proof.
  unfold try_catch, bind, logActivity.
  now destruct (activityPost env (activityLog w) payload).
Qed.

Lemma save_run (s e : Z) (doc : Z -> Z -> CalendarEvent) (env : Env) (w : World) :
  EventModel.requiredPresent (doc s e) = true ->
  EventModel.save (Some s) (Some e) doc env w
  = (inr (doc s e),
     db_step (EventSave (ev_externalId (doc s e)))
       (calendarEvents w ++ [doc s e]) (loggedMeetings w) w).
Proof. intros H. unfold EventModel.save. now rewrite H. Qed.

Lemma save_refused (s e : Z) (doc : Z -> Z -> CalendarEvent) (env : Env) (w : World) :
  EventModel.requiredPresent (doc s e) = false ->
  EventModel.save (Some s) (Some e) doc env w
  = (inl (JsError "CalendarEvent validation failed"),
     db_step (EventSave (ev_externalId (doc s e)))
       (calendarEvents w) (loggedMeetings w) w).
Proof. intros H. unfold EventModel.save. now rewrite H. Qed.

Lemma makeGoogleApiCall_run (accessToken endpoint : string) (method : HttpMethod)
  (data : HttpBody) (baseUrl : option string) (env : Env) (w : World) (answer : HttpData) :
  let call := {| hc_method := method;
                 hc_url := Js.or_default baseUrl Google.googleApiUrl ++ endpoint;
                 hc_token := accessToken;
                 hc_body := data |} in
  transport env (httpLog w) call = inr answer ->
  Google.makeGoogleApiCall accessToken endpoint method data baseUrl env w
  = (inr answer, snd (request call env w)).
Proof.
  intros call H. unfold Google.makeGoogleApiCall, bind, request.
  fold call. now rewrite H.
Qed.

Lemma makeGraphApiCall_run (accessToken endpoint : string) (method : HttpMethod)
  (data : HttpBody) (env : Env) (w : World) (answer : HttpData) :
  let call := {| hc_method := method;
                 hc_url := Microsoft.graphApiUrl ++ endpoint;
                 hc_token := accessToken;
                 hc_body := data |} in
  transport env (httpLog w) call = inr answer ->
  Microsoft.makeGraphApiCall accessToken endpoint method data env w
  = (inr answer, snd (request call env w)).
Proof.
  intros call H. unfold Microsoft.makeGraphApiCall, bind, request.
  fold call. now rewrite H.
Qed.

(** X7.  A create request that passes validation, and that the provider
    answers with an event carrying an id, a title, the email of its
    organizer and an email for each of its attendees, is mirrored once: one record is appended to the local
    mirror, active, under the provider's id and the lead of the request,
    with the times of the request (not those the provider returned); one
    creation activity is logged for the lead, whether or not the activity
    service accepts it; three calls went out, the create call and two
    profile requests; and the response carries the provider's id. *)
Theorem google_createEvent_mirrors_event
  {DL : DateLib} (env : Env) (w : World) (accessToken : string)
  (d : CreateEventDto) (createdEvent : GoogleCalendarEvent) (s e : Z) :
  accessToken <> EmptyString ->
  Google.validateTimeLogic (ce_startTime d) (ce_endTime d) = inr tt ->
  ce_startTime d <> EmptyString -> Date_parse (ce_startTime d) = Some s ->
  ce_endTime d <> EmptyString -> Date_parse (ce_endTime d) = Some e ->
  transport env (httpLog w) (googleCreateCall accessToken d (requestIdOf env w d))
  = inr (GoogleEventData createdEvent) ->
  ge_id createdEvent <> EmptyString ->
  Js.truthy (Google.organizerEmail createdEvent) = true ->
  Js.truthy (ge_summary createdEvent) = true ->
  Js.truthy (ce_leadId d) = true ->
  ce_locationType d <> None ->
  (forall a, In a (Google.attendeesOfGoogle (ge_attendees createdEvent)) ->
             at_email a <> EmptyString) ->
  let run := Google.createEvent accessToken d env w in
  (exists item,
      fst run = inr {| cr_success := true; cr_data := [item] |}
      /\ ci_id item = ge_id createdEvent)
  /\ (exists ev,
         calendarEvents (snd run) = (calendarEvents w ++ [ev])%list
         /\ ev_externalId ev = ge_id createdEvent
         /\ ev_provider ev = "google"
         /\ ev_leadId ev = ce_leadId d
         /\ ev_startTime ev = s /\ ev_endTime ev = e
         /\ ev_isActive ev = true)
  /\ (exists activity,
         activityLog (snd run) = (activityLog w ++ [activity])%list
         /\ ap_activityType activity = CALENDAR_EVENT_CREATED
         /\ ap_leadId activity = ce_leadId d
         /\ ap_subjectId activity = Some (ge_id createdEvent))
  /\ httpLog (snd run)
     = (httpLog w ++ [googleCreateCall accessToken d (requestIdOf env w d);
                      googleProfileCall accessToken;
                      googleProfileCall accessToken])%list.
Proof.
  intros Htok Hvalid Hs0 Hs He0 He Hcall Hid Horg Hsum Hlead Hkind Hatt run.
  apply truthy_nonempty in Htok.
  assert (Hreq : forall profile,
             EventModel.requiredPresent
               {| ev_externalId := ge_id createdEvent;
                  ev_provider := "google";
                  ev_userId := Google.organizerEmail createdEvent;
                  ev_leadId := ce_leadId d;
                  ev_title := ge_summary createdEvent;
                  ev_description := ge_description createdEvent;
                  ev_startTime := s;
                  ev_endTime := e;
                  ev_timeZone := gt_timeZone (ge_start createdEvent);
                  ev_isAllDay := negb (Js.truthy (gt_dateTime (ge_start createdEvent)));
                  ev_locationType := ce_locationType d;
                  ev_locationDetails := ge_location createdEvent;
                  ev_attendees := Google.attendeesOfGoogle (ge_attendees createdEvent);
                  ev_organizer := Google.organizerEmail createdEvent;
                  ev_organizerName :=
                    Some (Google.createdOrganizerName profile createdEvent);
                  ev_meetingLink := ge_hangoutLink createdEvent;
                  ev_isOnlineMeeting := Google.isSome (ge_conferenceData createdEvent);
                  ev_onlineMeetingProvider :=
                    if Google.isSome (ge_conferenceData createdEvent)
                    then Some "google_meet" else None;
                  ev_isActive := true;
                  ev_outcome := ce_outcome d |} = true).
  { intros profile. unfold EventModel.requiredPresent.
    cbn [ev_externalId ev_provider ev_userId ev_leadId ev_title ev_locationType
         ev_organizer ev_attendees].
    apply truthy_nonempty in Hid.
    rewrite Hid, Horg, Hlead, Hsum, (attendees_have_email _ Hatt).
    now destruct (ce_locationType d). }
  subst run. unfold Google.createEvent.
  rewrite Hvalid, Htok, Hlead. cbn [negb when].
  unfold requestIdOf, googleCreateCall in *.
  destruct (Google.isKind GOOGLE_MEET (ce_locationType d));
    erewrite try_bind_run by reflexivity;
    erewrite try_bind_run by reflexivity;
    erewrite try_bind_run by reflexivity;
    erewrite try_bind_run by (apply makeGoogleApiCall_run; exact Hcall);
    cbv beta iota;
    match goal with
    | |- context [try_catch _ _ env ?W] =>
        destruct (getUserProfile_run accessToken env W) as [profile Hp]
    end;
    erewrite try_bind_run by (apply try_catch_ok; exact Hp);
    erewrite try_bind_run by (apply dateOrNow_run; eassumption);
    erewrite try_bind_run by (apply dateOrNow_run; eassumption);
    erewrite try_bind_run by (apply save_run; apply Hreq);
    match goal with
    | |- context [try_catch _ _ env ?W] =>
        destruct (getUserProfile_run accessToken env W) as [profile' Hp']
    end;
    erewrite try_bind_run by (eapply try_logActivity_run; exact Hp');
    rewrite logActivity_world;
    unfold try_catch, ret, request, googleProfileCall;
    cbn [fst snd db_step calendarEvents loggedMeetings httpLog dbLog activityLog
         taskLog clockReads randomDraws created Js.or_default];
    (split; [eexists; split; reflexivity|]);
    (split; [eexists; repeat split; reflexivity|]);
    (split; [eexists; repeat split; reflexivity|]);
    rewrite <- !app_assoc; reflexivity.
Qed.

Lemma google_createEvent_mirrors_event_witness :
  let d := Sample.createRequest "1000Z" "2000Z" (Some GOOGLE_MEET) in
  let created := Scenario.googleEventWithAttendees "e1" "1000Z" "2000Z" in
  let env := Sample.outside (Sample.google created) 0 in
  let w := Sample.world [] [] in
  let run := @Google.createEvent decimalDates "token-1" d env w in
  exists ev,
    calendarEvents (snd run) = (calendarEvents w ++ [ev])%list
    /\ ev_externalId ev = "e1"
    /\ ev_provider ev = "google"
    /\ ev_leadId ev = ce_leadId d
    /\ ev_startTime ev = 1000 /\ ev_endTime ev = 2000
    /\ ev_isActive ev = true.
Proof.
  intros d created env w run.
  apply (@google_createEvent_mirrors_event decimalDates env w "token-1" d
           created 1000 2000);
    try reflexivity; try discriminate.
  intros a [<-|[<-|[]]]; discriminate.
Defined.

(** X8.  The mirror requires a lead, a user, a title, an organizer and a
    location kind.  When the request or the provider's answer lacks one of
    them, the Google [createEvent] has already created the event at the
    provider when the store refuses the record: the create call and one
    profile request went out, the operation fails as a bad request, and
    the local mirror and the activity log are as they were. *)
Theorem google_createEvent_refused_by_store
  {DL : DateLib} (env : Env) (w : World) (accessToken : string)
  (d : CreateEventDto) (createdEvent : GoogleCalendarEvent) (s e : Z) :
  accessToken <> EmptyString ->
  Google.validateTimeLogic (ce_startTime d) (ce_endTime d) = inr tt ->
  ce_startTime d <> EmptyString -> Date_parse (ce_startTime d) = Some s ->
  ce_endTime d <> EmptyString -> Date_parse (ce_endTime d) = Some e ->
  transport env (httpLog w) (googleCreateCall accessToken d (requestIdOf env w d))
  = inr (GoogleEventData createdEvent) ->
  Js.truthy (ce_leadId d) = false
  \/ ce_locationType d = None
  \/ Js.truthy (Google.organizerEmail createdEvent) = false
  \/ Js.truthy (ge_summary createdEvent) = false ->
  let run := Google.createEvent accessToken d env w in
  (exists msg, fst run = inl (BadRequestException msg))
  /\ calendarEvents (snd run) = calendarEvents w
  /\ activityLog (snd run) = activityLog w
  /\ httpLog (snd run)
     = (httpLog w ++ [googleCreateCall accessToken d (requestIdOf env w d);
                      googleProfileCall accessToken])%list.
Proof.
  intros Htok Hvalid Hs0 Hs He0 He Hcall Hmiss run.
  apply truthy_nonempty in Htok.
  assert (Hreq : forall profile,
             EventModel.requiredPresent
               {| ev_externalId := ge_id createdEvent;
                  ev_provider := "google";
                  ev_userId := Google.organizerEmail createdEvent;
                  ev_leadId := ce_leadId d;
                  ev_title := ge_summary createdEvent;
                  ev_description := ge_description createdEvent;
                  ev_startTime := s;
                  ev_endTime := e;
                  ev_timeZone := gt_timeZone (ge_start createdEvent);
                  ev_isAllDay := negb (Js.truthy (gt_dateTime (ge_start createdEvent)));
                  ev_locationType := ce_locationType d;
                  ev_locationDetails := ge_location createdEvent;
                  ev_attendees := Google.attendeesOfGoogle (ge_attendees createdEvent);
                  ev_organizer := Google.organizerEmail createdEvent;
                  ev_organizerName :=
                    Some (Google.createdOrganizerName profile createdEvent);
                  ev_meetingLink := ge_hangoutLink createdEvent;
                  ev_isOnlineMeeting := Google.isSome (ge_conferenceData createdEvent);
                  ev_onlineMeetingProvider :=
                    if Google.isSome (ge_conferenceData createdEvent)
                    then Some "google_meet" else None;
                  ev_isActive := true;
                  ev_outcome := ce_outcome d |} = false).
  { intros profile. unfold EventModel.requiredPresent.
    cbn [ev_externalId ev_provider ev_userId ev_leadId ev_title ev_locationType
         ev_organizer].
    destruct Hmiss as [-> | [-> | [-> | ->]]];
      rewrite ?andb_false_r; reflexivity. }
  subst run. unfold Google.createEvent.
  rewrite Hvalid, Htok. cbn [negb when].
  unfold requestIdOf, googleCreateCall in *.
  destruct (Google.isKind GOOGLE_MEET (ce_locationType d));
    erewrite try_bind_run by reflexivity;
    erewrite try_bind_run by reflexivity;
    erewrite try_bind_run by reflexivity;
    erewrite try_bind_run by (apply makeGoogleApiCall_run; exact Hcall);
    cbv beta iota;
    match goal with
    | |- context [try_catch _ _ env ?W] =>
        destruct (getUserProfile_run accessToken env W) as [profile Hp]
    end;
    erewrite try_bind_run by (apply try_catch_ok; exact Hp);
    erewrite try_bind_run by (apply dateOrNow_run; eassumption);
    erewrite try_bind_run by (apply dateOrNow_run; eassumption);
    erewrite try_bind_fail by (apply save_refused; apply Hreq);
    unfold throw, request, googleProfileCall;
    cbn [fst snd db_step calendarEvents loggedMeetings httpLog dbLog activityLog
         taskLog clockReads randomDraws created Js.or_default isHttpException
         error_message Js.truthy];
    (split; [eexists; reflexivity|]);
    (split; [reflexivity|]); (split; [reflexivity|]);
    rewrite <- !app_assoc; reflexivity.
Qed.

Lemma google_createEvent_refused_by_store_witness :
  let d := Scenario.requestWithoutLead "1000Z" "2000Z" in
  let env := Sample.outside (Sample.google (Sample.googleEvent "e1" "1000Z" "2000Z")) 0 in
  let w := Sample.world [] [] in
  let run := @Google.createEvent decimalDates "token-1" d env w in
  (exists msg, fst run = inl (BadRequestException msg))
  /\ calendarEvents (snd run) = calendarEvents w
  /\ activityLog (snd run) = activityLog w
  /\ httpLog (snd run)
     = (httpLog w ++ [googleCreateCall "token-1" d (requestIdOf env w d);
                      googleProfileCall "token-1"])%list.
Proof.
  intros d env w run.
  apply (@google_createEvent_refused_by_store decimalDates env w "token-1" d
           (Sample.googleEvent "e1" "1000Z" "2000Z") 1000 2000);
    try reflexivity; try discriminate.
  left. reflexivity.
Defined.

(** The Microsoft validation accepts a request inside the window, and
    reads the clock once. *)
Lemma microsoft_validateTimeLogic_run
  {DL : DateLib} (env : Env) (w : World) (startTime endTime : string) (ts te : Z) :
  parseISO startTime = Some ts ->
  parseISO endTime = Some te ->
  clock env (clockReads w) <= ts -> ts < te -> te - ts < 86460000 ->
  Microsoft.validateTimeLogic startTime endTime env w = (inr tt, snd (now env w)).
Proof.
  intros Hs He Hnow Hlt Hlen.
  cbv beta iota zeta delta [Microsoft.validateTimeLogic bind now throw ret].
  rewrite Hs, He. cbn [snd clockReads].
  replace (ts <? clock env (clockReads w)) with false
    by (symmetry; apply Z.ltb_ge; lia).
  replace (te <=? ts) with false by (symmetry; apply Z.leb_gt; lia).
  change (24 * 60) with 1440.
  replace (differenceInMinutes te ts >? 1440) with false; [reflexivity|].
  symmetry. now apply differenceInMinutes_day.
Qed.

(** X9.  The Microsoft [createEvent], for a request inside the time
    window, once calendar access is granted and the provider has answered
    the create call with an event that carries an id, a subject, an
    organizer and an address for each of its attendees: one record is
    appended to the local mirror, active, under
    the provider's id and the lead of the request; its times are the
    times of the request, read as UTC when they carry no zone designator;
    one creation activity is logged for the lead; two calls went out, the
    probe and the create call. *)
Theorem microsoft_createEvent_mirrors_event
  {DL : DateLib} (env : Env) (w : World) (accessToken : string)
  (d : CreateEventDto) (attendees : list AttendeeDto) (granted : HttpData)
  (createdEvent : MicrosoftGraphEvent) (ts te s e : Z) :
  transport env (httpLog w) (graphProbeCall accessToken) = inr granted ->
  parseISO (ce_startTime d) = Some ts ->
  parseISO (ce_endTime d) = Some te ->
  clock env (clockReads w) <= ts -> ts < te -> te - ts < 86460000 ->
  ce_attendees d = Some attendees ->
  transport env (httpLog w ++ [graphProbeCall accessToken])%list
    (graphCreateCall accessToken d attendees)
  = inr (GraphEventData createdEvent) ->
  Date_parse (Microsoft.asUtc (ce_startTime d)) = Some s ->
  Date_parse (Microsoft.asUtc (ce_endTime d)) = Some e ->
  me_id createdEvent <> EmptyString ->
  Js.truthy (Microsoft.organizerAddress createdEvent) = true ->
  Js.truthy (me_subject createdEvent) = true ->
  Js.truthy (ce_leadId d) = true ->
  ce_locationType d <> None ->
  (forall a, In a (match me_attendees createdEvent with
                   | Some l => map Microsoft.attendeeOfGraph l
                   | None => []
                   end) ->
             at_email a <> EmptyString) ->
  let run := Microsoft.createEvent accessToken d env w in
  (exists item,
      fst run = inr {| cr_success := true; cr_data := [item] |}
      /\ ci_id item = me_id createdEvent)
  /\ (exists ev,
         calendarEvents (snd run) = (calendarEvents w ++ [ev])%list
         /\ ev_externalId ev = me_id createdEvent
         /\ ev_provider ev = "microsoft"
         /\ ev_leadId ev = ce_leadId d
         /\ ev_startTime ev = s /\ ev_endTime ev = e
         /\ ev_isActive ev = true)
  /\ (exists activity,
         activityLog (snd run) = (activityLog w ++ [activity])%list
         /\ ap_activityType activity = CALENDAR_EVENT_CREATED
         /\ ap_leadId activity = ce_leadId d
         /\ ap_subjectId activity = Some (me_id createdEvent))
  /\ httpLog (snd run)
     = (httpLog w ++ [graphProbeCall accessToken;
                      graphCreateCall accessToken d attendees])%list.
Proof.
  intros Hprobe Hs He Hnow Hlt Hlen Hatt Hcall Hps Hpe Hid Horg Hsub Hlead Hkind Hmail
    run.
  assert (Hreq :
           EventModel.requiredPresent
             {| ev_externalId := me_id createdEvent;
                ev_provider := "microsoft";
                ev_userId := Microsoft.organizerAddress createdEvent;
                ev_leadId := ce_leadId d;
                ev_title := me_subject createdEvent;
                ev_description := me_body_content createdEvent;
                ev_startTime := s;
                ev_endTime := e;
                ev_timeZone := mt_timeZone (me_start createdEvent);
                ev_isAllDay :=
                  match me_isAllDay createdEvent with Some b => b | None => false end;
                ev_locationType := ce_locationType d;
                ev_locationDetails := me_location_displayName createdEvent;
                ev_attendees :=
                  match me_attendees createdEvent with
                  | Some l => map Microsoft.attendeeOfGraph l
                  | None => []
                  end;
                ev_organizer := Microsoft.organizerAddress createdEvent;
                ev_organizerName := Microsoft.organizerName createdEvent;
                ev_meetingLink := Js.or_else (me_joinUrl createdEvent) None;
                ev_isOnlineMeeting :=
                  match me_isOnlineMeeting createdEvent with
                  | Some b => b
                  | None => false
                  end;
                ev_onlineMeetingProvider := me_onlineMeetingProvider createdEvent;
                ev_isActive := true;
                ev_outcome := ce_outcome d |} = true).
  { unfold EventModel.requiredPresent.
    cbn [ev_externalId ev_provider ev_userId ev_leadId ev_title ev_locationType
         ev_organizer ev_attendees].
    apply truthy_nonempty in Hid.
    rewrite Hid, Horg, Hlead, Hsub, (attendees_have_email _ Hmail).
    now destruct (ce_locationType d). }
  subst run. unfold Microsoft.createEvent.
  rewrite Hatt, Hlead, Hps, Hpe. cbn [when].
  erewrite try_bind_run
    by (rewrite validateCalendarAccess_run, Hprobe; reflexivity).
  erewrite try_bind_run
    by (eapply microsoft_validateTimeLogic_run; eassumption).
  erewrite try_bind_run by reflexivity.
  unfold graphCreateCall in Hcall.
  erewrite try_bind_run by (apply makeGraphApiCall_run; exact Hcall).
  erewrite try_bind_run by reflexivity.
  erewrite try_bind_run
    by (erewrite try_bind_run by (apply save_run; exact Hreq);
        apply try_catch_ok; apply try_logActivity_plain).
  rewrite logActivity_world.
  unfold try_catch, ret, request, graphProbeCall, graphCreateCall, now.
  cbn [fst snd db_step calendarEvents loggedMeetings httpLog dbLog activityLog
       taskLog clockReads randomDraws created].
  split; [eexists; split; reflexivity|].
  split; [eexists; repeat split; reflexivity|].
  split; [eexists; repeat split; reflexivity|].
  rewrite <- !app_assoc; reflexivity.
Qed.

Lemma microsoft_createEvent_mirrors_event_witness :
  let d := Sample.createRequest "1000" "2000" (Some TEAMS) in
  let created := Scenario.graphEventWithAttendees "e1" "1000" "2000" in
  let env := Sample.outside (Sample.graph created) 500 in
  let w := Sample.world [] [] in
  let run := @Microsoft.createEvent decimalDates "token-1" d env w in
  Microsoft.asUtc "1000" = "1000Z"
  /\ exists ev,
       calendarEvents (snd run) = (calendarEvents w ++ [ev])%list
       /\ ev_externalId ev = "e1"
       /\ ev_provider ev = "microsoft"
       /\ ev_leadId ev = ce_leadId d
       /\ ev_startTime ev = 1000 /\ ev_endTime ev = 2000
       /\ ev_isActive ev = true.
Proof.
  intros d created env w run. split; [reflexivity|].
  apply (@microsoft_createEvent_mirrors_event decimalDates env w "token-1" d
           [] NoData created 1000 2000 1000 2000);
    try reflexivity; try discriminate; try lia.
  intros a [<-|[<-|[]]]; discriminate.
Defined.

(** ** Delete: what else it does *)

(** X10.  With a token that is empty or blank, neither adapter contacts
    the provider: [deleteEvent] sends nothing, still clears the active
    flag of the mirrored record, and reports success. *)
Theorem deleteEvent_blank_token_stays_local
  {DL : DateLib} (env : Env) (w : World) (accessToken eventId : string) :
  usableToken accessToken = false ->
  (httpLog (snd (Google.deleteEvent accessToken eventId env w)) = httpLog w
   /\ fst (Google.deleteEvent accessToken eventId env w)
      = inr (Google.deletedResponse eventId)
   /\ calendarEvents (snd (Google.deleteEvent accessToken eventId env w))
      = softDeleted eventId (calendarEvents w))
  /\ (httpLog (snd (Microsoft.deleteEvent accessToken eventId env w)) = httpLog w
      /\ fst (Microsoft.deleteEvent accessToken eventId env w)
         = inr (Google.deletedResponse eventId)
      /\ calendarEvents (snd (Microsoft.deleteEvent accessToken eventId env w))
         = softDeleted eventId (calendarEvents w)).
Proof.
  intros Hu. split.
  - split; [|apply google_deleteEvent_total].
    cbv beta iota zeta delta
      [Google.deleteEvent try_catch bind when Google.makeGoogleApiCall request
       EventModel.findOneAndUpdate EventModel.findOne logActivity throw ret].
    rewrite Hu.
    change (patchCasts Google.deactivate) with true. cbv beta iota.
    run_cases; reflexivity.
  - split; [|apply microsoft_deleteEvent_total].
    cbv beta iota zeta delta
      [Microsoft.deleteEvent try_catch bind when Microsoft.makeGraphApiCall request
       EventModel.findOneAndUpdate EventModel.findOne logActivity throw ret].
    rewrite Hu.
    change (patchCasts Google.deactivate) with true. cbv beta iota.
    run_cases; reflexivity.
Qed.

Lemma deleteEvent_blank_token_witness :
  let env := Sample.outside (fun _ => inl Sample.networkDown) 0 in
  let w := Sample.world [Sample.storedEvent "e1" 1000 2000] [] in
  (* a no-break space (U+00A0, the bytes C2 A0) and a space *)
  let blank := String "194"%char (String "160"%char " ") in
  usableToken blank = false
  /\ httpLog (snd (Google.deleteEvent blank "e1" env w)) = []
  /\ map ev_isActive (calendarEvents (snd (Microsoft.deleteEvent blank "e1" env w)))
     = [false].
Proof.
  intros env w blank.
  destruct (@deleteEvent_blank_token_stays_local decimalDates env w blank "e1" eq_refl)
    as [[Hg _] [_ [_ Hm]]].
  split; [reflexivity|]. split; [exact Hg|].
  rewrite Hm. reflexivity.
Defined.

Lemma update_first_idempotent {A} (p : A -> bool) (f : A -> A) (l : list A) :
  (forall x, p (f x) = p x) -> (forall x, f (f x) = f x) ->
  update_first p f (update_first p f l) = update_first p f l.
Proof.
  intros Hp Hf. induction l as [|x l IH]; simpl; [reflexivity|].
  destruct (p x) eqn:E; simpl.
  - now rewrite Hp, E, Hf.
  - now rewrite E, IH.
Qed.

Lemma softDeleted_idempotent (eventId : string) (events : list CalendarEvent) :
  softDeleted eventId (softDeleted eventId events) = softDeleted eventId events.
Proof.
  unfold softDeleted. apply update_first_idempotent; intros x; reflexivity.
Qed.

(** X11.  Deleting is idempotent on the local mirror: a second
    [deleteEvent] of the same event, through either adapter, with any
    token and whatever the provider answers, leaves the mirror as the
    first one left it, and reports success again. *)
Theorem deleteEvent_idempotent
  {DL : DateLib} (env env' : Env) (w : World) (accessToken accessToken' eventId : string) :
  let once := snd (Google.deleteEvent accessToken eventId env w) in
  let once' := snd (Microsoft.deleteEvent accessToken eventId env w) in
  calendarEvents (snd (Google.deleteEvent accessToken' eventId env' once))
  = calendarEvents once
  /\ calendarEvents (snd (Microsoft.deleteEvent accessToken' eventId env' once))
     = calendarEvents once
  /\ calendarEvents (snd (Microsoft.deleteEvent accessToken' eventId env' once'))
     = calendarEvents once'
  /\ fst (Google.deleteEvent accessToken' eventId env' once)
     = inr (Google.deletedResponse eventId)
  /\ fst (Microsoft.deleteEvent accessToken' eventId env' once')
     = inr (Google.deletedResponse eventId).
Proof.
  intros once once'. subst once once'.
  pose proof (fun env w t => proj2 (google_deleteEvent_total env w t eventId)) as Hg.
  pose proof (fun env w t => proj2 (microsoft_deleteEvent_total env w t eventId)) as Hm.
  split; [now rewrite !Hg, softDeleted_idempotent|].
  split; [now rewrite Hm, !Hg, softDeleted_idempotent|].
  split; [now rewrite !Hm, softDeleted_idempotent|].
  split; [apply google_deleteEvent_total|apply microsoft_deleteEvent_total].
Qed.

Lemma find_none_existsb {A} (p : A -> bool) (l : list A) :
  existsb p l = false -> find p l = None.
Proof.
  induction l as [|x l IH]; simpl; [reflexivity|].
  destruct (p x); [discriminate|exact IH].
Qed.

(** The record a delete finds for its activity is the one it has just
    marked. *)
Lemma find_softDeleted (eventId : string) (events : list CalendarEvent) :
  find (hasExternalId eventId) (softDeleted eventId events)
  = option_map (applyPatch Google.deactivate) (find (hasExternalId eventId) events).
Proof.
  unfold softDeleted. induction events as [|x l IH]; simpl; [reflexivity|].
  destruct (hasExternalId eventId x) eqn:E; simpl.
  - unfold hasExternalId in *. cbn [applyPatch ev_externalId]. now rewrite E.
  - now rewrite E, IH.
Qed.

(** X12.  A delete logs exactly one deletion activity, for the lead of the
    mirrored record of the event, when there is such a record and it names
    a lead; otherwise it logs nothing.  The activity is recorded whether
    the provider accepted the deletion or not, and whether the activity
    service accepts it or not. *)
Theorem deleteEvent_logs_one_activity
  {DL : DateLib} (env : Env) (w : World) (accessToken eventId : string) :
  let logged :=
    match find (hasExternalId eventId) (calendarEvents w) with
    | Some ev =>
        if Js.truthy (ev_leadId ev)
        then [ {| ap_leadId := ev_leadId ev;
                  ap_activityType := CALENDAR_EVENT_DELETED;
                  ap_description :=
                    "Calendar event '" ++ show (ev_title ev) ++ "' deleted by user";
                  ap_performedBy := "system";
                  ap_subjectId := Some eventId |} ]
        else []
    | None => []
    end in
  activityLog (snd (Google.deleteEvent accessToken eventId env w))
  = (activityLog w ++ logged)%list
  /\ activityLog (snd (Microsoft.deleteEvent accessToken eventId env w))
     = (activityLog w ++ logged)%list.
Proof.
  intros logged. subst logged. split.
  - cbv beta iota zeta delta
      [Google.deleteEvent try_catch bind when Google.makeGoogleApiCall request
       EventModel.findOneAndUpdate EventModel.findOne logActivity throw ret].
    change (patchCasts Google.deactivate) with true. cbv beta iota.
    destruct (usableToken accessToken);
      [destruct (transport env (httpLog w) _)|];
      cbv beta iota;
      cbn [fst snd db_step calendarEvents loggedMeetings httpLog dbLog activityLog
           taskLog clockReads randomDraws created];
      change (update_first (hasExternalId eventId) (applyPatch Google.deactivate)
                (calendarEvents w))
        with (softDeleted eventId (calendarEvents w));
      rewrite find_softDeleted;
      (destruct (find (hasExternalId eventId) (calendarEvents w)) as [ev|];
       cbn [option_map]; [|now rewrite app_nil_r]);
      cbn [applyPatch ev_leadId ev_title pt_leadId pt_title Google.deactivate over];
      (destruct (Js.truthy (ev_leadId ev)); [|now rewrite app_nil_r]);
      destruct (activityPost env _ _); reflexivity.
  - cbv beta iota zeta delta
      [Microsoft.deleteEvent try_catch bind when Microsoft.makeGraphApiCall request
       EventModel.findOneAndUpdate EventModel.findOne logActivity throw ret].
    change (patchCasts Google.deactivate) with true. cbv beta iota.
    destruct (usableToken accessToken);
      [destruct (transport env (httpLog w) _)|];
      cbv beta iota;
      cbn [fst snd db_step calendarEvents loggedMeetings httpLog dbLog activityLog
           taskLog clockReads randomDraws created];
      change (update_first (hasExternalId eventId) (applyPatch Google.deactivate)
                (calendarEvents w))
        with (softDeleted eventId (calendarEvents w));
      rewrite find_softDeleted;
      (destruct (find (hasExternalId eventId) (calendarEvents w)) as [ev|];
       cbn [option_map]; [|now rewrite app_nil_r]);
      cbn [applyPatch ev_leadId ev_title pt_leadId pt_title Google.deactivate over];
      (destruct (Js.truthy (ev_leadId ev)); [|now rewrite app_nil_r]);
      destruct (activityPost env _ _); reflexivity.
Qed.

Lemma softDeleted_unknown (eventId : string) (events : list CalendarEvent) :
  existsb (hasExternalId eventId) events = false ->
  softDeleted eventId events = events.
Proof.
  intros H. unfold softDeleted. apply find_update_first_none.
  - intros x. reflexivity.
  - now apply find_none_existsb.
Qed.

Lemma delete_first_unknown {A} (p : A -> bool) (l : list A) :
  existsb p l = false -> delete_first p l = l.
Proof.
  induction l as [|x l IH]; simpl; [reflexivity|].
  destruct (p x); [discriminate|]. intros H. now rewrite IH.
Qed.

(** X13.  An event the local mirror does not know: the [deleteEvent] of
    either adapter reports success all the same and leaves the mirror as
    it was, while the delete without headers of the controller fails and
    leaves the store as it was: as a bad request, when the id reads as an
    [ObjectId] and no logged meeting has that id; with the error of the
    store, when the id does not read as an [ObjectId]. *)
Theorem delete_of_unknown_event
  {DL : DateLib} {IL : ObjectIdLib} (env : Env) (w : World)
  (accessToken eventId : string) :
  existsb (hasExternalId eventId) (calendarEvents w) = false ->
  let local := Controller.deleteEvent eventId None None env w in
  (fst (Google.deleteEvent accessToken eventId env w)
   = inr (Google.deletedResponse eventId)
   /\ calendarEvents (snd (Google.deleteEvent accessToken eventId env w))
      = calendarEvents w)
  /\ (fst (Microsoft.deleteEvent accessToken eventId env w)
      = inr (Google.deletedResponse eventId)
      /\ calendarEvents (snd (Microsoft.deleteEvent accessToken eventId env w))
         = calendarEvents w)
  /\ (forall oid,
        castObjectId eventId = Some oid ->
        existsb (hasMeetingId oid) (loggedMeetings w) = false ->
        fst local = inl (BadRequestException "Event not found in local database"))
  /\ (castObjectId eventId = None -> exists msg, fst local = inl (JsError msg))
  /\ ((forall oid, castObjectId eventId = Some oid ->
                   existsb (hasMeetingId oid) (loggedMeetings w) = false) ->
      calendarEvents (snd local) = calendarEvents w
      /\ loggedMeetings (snd local) = loggedMeetings w).
Proof.
  intros Hnone local.
  destruct (google_deleteEvent_total env w accessToken eventId) as [Hg1 Hg2].
  destruct (microsoft_deleteEvent_total env w accessToken eventId) as [Hm1 Hm2].
  rewrite (softDeleted_unknown _ _ Hnone) in Hg2, Hm2.
  split; [now split|]. split; [now split|].
  subst local.
  cbv beta iota zeta delta
    [Controller.deleteEvent bind EventModel.deleteOne MeetingModel.deleteOne
     throw ret Js.truthy negb orb].
  cbn [fst snd db_step calendarEvents loggedMeetings].
  rewrite Hnone, (delete_first_unknown _ _ Hnone).
  destruct (castObjectId eventId) as [oid|] eqn:Hcast.
  - split.
    + intros oid' Hoid Hmeet. injection Hoid as <-. now rewrite Hmeet.
    + split; [discriminate|].
      intros Hmeet. specialize (Hmeet oid eq_refl). rewrite Hmeet. cbn.
      now rewrite (delete_first_unknown _ _ Hmeet).
  - split; [discriminate|]. split; [intros _; eexists; reflexivity|].
    intros _. now split.
Qed.

Lemma delete_of_unknown_event_witness :
  let env := Sample.outside Sample.silent 0 in
  let w := Sample.world [Sample.storedEvent "e1" 1000 2000] [] in
  let id := "507f1f77bcf86cd799439011" in
  fst (Google.deleteEvent "token-1" id env w) = inr (Google.deletedResponse id)
  /\ fst (Controller.deleteEvent id None None env w)
     = inl (BadRequestException "Event not found in local database")
  /\ exists msg, fst (Controller.deleteEvent "e9" None None env w)
                 = inl (JsError msg).
Proof.
  intros env w id.
  destruct (@delete_of_unknown_event decimalDates hexIds env w "token-1" id eq_refl)
    as [[Hg _] [_ [Hc _]]].
  destruct (@delete_of_unknown_event decimalDates hexIds env w "token-1" "e9" eq_refl)
    as [_ [_ [_ [He _]]]].
  split; [exact Hg|]. split; [apply (Hc id); reflexivity|].
  apply He. reflexivity.
Defined.

(** ** Update: what it leaves alone *)

Lemma update_first_id {A} (p : A -> bool) (l : list A) :
  update_first p (fun x => x) l = l.
Proof.
  induction l as [|x l IH]; simpl; [reflexivity|].
  destruct (p x); [reflexivity|now rewrite IH].
Qed.

Lemma update_first_compose {A} (p : A -> bool) (f g : A -> A) (l : list A) :
  (forall x, p (f x) = p x) ->
  update_first p g (update_first p f l) = update_first p (fun x => g (f x)) l.
Proof.
  intros Hp. induction l as [|x l IH]; simpl; [reflexivity|].
  destruct (p x) eqn:E; simpl.
  - now rewrite Hp, E.
  - now rewrite E, IH.
Qed.

Lemma identity_hasExternalId (eventId : string) (a b : CalendarEvent) :
  identity a = identity b -> hasExternalId eventId a = hasExternalId eventId b.
Proof. unfold identity, hasExternalId. intros H. injection H as -> _ _ _. reflexivity. Qed.

Lemma updatesInPlace_calm (eventId : string) : Calm (updatesInPlace eventId).
Proof.
  split.
  - intros w. exists (fun x => x). split; [reflexivity|].
    now rewrite update_first_id.
  - intros a b c [g1 [H1 E1]] [g2 [H2 E2]].
    exists (fun x => g2 (g1 x)). split.
    + intros e. now rewrite H2, H1.
    + rewrite E2, E1. apply update_first_compose.
      intros x. now apply identity_hasExternalId.
  - intros w w' H _. exists (fun x => x). split; [reflexivity|].
    now rewrite update_first_id.
Qed.

(** An update of the store that does not set the active flag is an update
    in place. *)
Lemma steps_findOneAndUpdate_in_place (eventId : string) (p : CalendarEventPatch) :
  pt_isActive p = None ->
  steps (updatesInPlace eventId) (EventModel.findOneAndUpdate eventId p).
Proof.
  intros Hp env w. unfold EventModel.findOneAndUpdate.
  destruct (patchCasts p); cbn [snd db_step calendarEvents].
  - exists (applyPatch p). split; [|reflexivity].
    intros e. unfold identity, applyPatch. cbn. now rewrite Hp.
  - apply (calm_outside (updatesInPlace_calm eventId)); [reflexivity|].
    exists []. cbn. now rewrite app_nil_r.
Qed.

Lemma google_updateEvent_in_place {DL : DateLib} accessToken eventId d :
  steps (updatesInPlace eventId) (Google.updateEvent accessToken eventId d).
Proof.
  unfold Google.updateEvent, Google.mirrorUpdate.
  repeat (first [ apply steps_findOneAndUpdate_in_place; reflexivity
                | walk1 (updatesInPlace_calm eventId) ]).
Qed.

Lemma microsoft_updateEvent_in_place {DL : DateLib} accessToken eventId d :
  steps (updatesInPlace eventId) (Microsoft.updateEvent accessToken eventId d).
Proof.
  unfold Microsoft.updateEvent, Microsoft.mirrorUpdate. cbv zeta.
  repeat (first [ apply steps_findOneAndUpdate_in_place; reflexivity
                | walk1 (updatesInPlace_calm eventId) ]).
Qed.

Lemma update_first_split {A} (p : A -> bool) (g : A -> A) (pre post : list A) (x : A) :
  existsb p pre = false -> p x = true ->
  update_first p g (pre ++ x :: post) = (pre ++ g x :: post)%list.
Proof.
  intros Hpre Hx. induction pre as [|y pre IH]; simpl.
  - now rewrite Hx.
  - simpl in Hpre. apply orb_false_iff in Hpre as [Hy Hpre].
    now rewrite Hy, IH.
Qed.

Lemma updatesInPlace_facts (eventId : string) (w w' : World) :
  updatesInPlace eventId w w' ->
  map identity (calendarEvents w') = map identity (calendarEvents w)
  /\ (forall pre ev post,
         calendarEvents w = (pre ++ ev :: post)%list ->
         existsb (hasExternalId eventId) pre = false ->
         hasExternalId eventId ev = true ->
         exists ev',
           calendarEvents w' = (pre ++ ev' :: post)%list
           /\ identity ev' = identity ev)
  /\ (existsb (hasExternalId eventId) (calendarEvents w) = false ->
      calendarEvents w' = calendarEvents w).
Proof.
  intros [g [Hg ->]]. split; [|split].
  - now apply map_update_first.
  - intros pre ev post -> Hpre Hev. exists (g ev). split; [|apply Hg].
    now apply update_first_split.
  - intros Hnone. apply find_update_first_none.
    + intros x. now apply identity_hasExternalId.
    + now apply find_none_existsb.
Qed.

(** X14.  An update, through either adapter and whatever the provider
    and the other services answer, is an update in place of the local
    mirror: every record keeps its external id, provider, user and active
    flag, so no record is added, removed or revived; only the first
    record of the event may change at all; and when the mirror has no
    record of the event it is left as it was: there is no upsert. *)
Theorem updateEvent_updates_in_place
  {DL : DateLib} (env : Env) (w : World) (accessToken eventId : string)
  (d : UpdateEventDto) :
  let after w' :=
    map identity (calendarEvents w') = map identity (calendarEvents w)
    /\ (forall pre ev post,
           calendarEvents w = (pre ++ ev :: post)%list ->
           existsb (hasExternalId eventId) pre = false ->
           hasExternalId eventId ev = true ->
           exists ev',
             calendarEvents w' = (pre ++ ev' :: post)%list
             /\ identity ev' = identity ev)
    /\ (existsb (hasExternalId eventId) (calendarEvents w) = false ->
        calendarEvents w' = calendarEvents w) in
  after (snd (Google.updateEvent accessToken eventId d env w))
  /\ after (snd (Microsoft.updateEvent accessToken eventId d env w)).
Proof.
  intros after. split; apply updatesInPlace_facts.
  - apply google_updateEvent_in_place.
  - apply microsoft_updateEvent_in_place.
Qed.

Lemma updateEvent_updates_in_place_witness :
  let e0 := Sample.storedEvent "e0" 0 500 in
  let e1 := Sample.storedEvent "e1" 1000 2000 in
  let w := Sample.world [e0; e1; e1] [] in
  let env :=
    Sample.outside
      (Sample.googleUpdating (Sample.googleEvent "e1" "1000Z" "2000Z")
         (Sample.googleEvent "e1" "5000Z" "6000Z")) 0 in
  (exists ev',
      calendarEvents
        (snd (@Google.updateEvent decimalDates "token-1" "e1"
                (timesOnly (Some "5000Z") (Some "6000Z")) env w))
      = ([e0] ++ ev' :: [e1])%list
      /\ identity ev' = identity e1)
  /\ calendarEvents
       (snd (@Microsoft.updateEvent decimalDates "token-1" "e9"
               (timesOnly (Some "5000Z") (Some "6000Z")) env w))
     = calendarEvents w.
Proof.
  intros e0 e1 w env.
  destruct (@updateEvent_updates_in_place decimalDates env w "token-1" "e1"
              (timesOnly (Some "5000Z") (Some "6000Z"))) as [[_ [Hg _]] _].
  destruct (@updateEvent_updates_in_place decimalDates env w "token-1" "e9"
              (timesOnly (Some "5000Z") (Some "6000Z"))) as [_ [_ [_ Hm]]].
  split.
  - apply (Hg [e0] e1 [e1]); reflexivity.
  - apply Hm. reflexivity.
Defined.

(** ** The activity service cannot make an operation fail *)

Section IgnoresActivity.

Lemma ignores_ret {A} (a : A) : ignoresActivityService (ret a).
Proof. intros post env w. reflexivity. Qed.

Lemma ignores_throw {A} (e : Exn) : ignoresActivityService (@throw A e).
Proof. intros post env w. reflexivity. Qed.

Lemma ignores_lift {A} (r : Result A) : ignoresActivityService (lift r).
Proof. intros post env w. reflexivity. Qed.

Lemma ignores_bind {A B} (c : M A) (k : A -> M B) :
  ignoresActivityService c -> (forall a, ignoresActivityService (k a)) ->
  ignoresActivityService (bind c k).
Proof.
  intros Hc Hk post env w. unfold bind. rewrite Hc.
  destruct (c env w) as [[e|a] w']; [reflexivity|apply Hk].
Qed.

Lemma ignores_try_catch {A} (c : M A) (h : Exn -> M A) :
  ignoresActivityService c -> (forall e, ignoresActivityService (h e)) ->
  ignoresActivityService (try_catch c h).
Proof.
  intros Hc Hh post env w. unfold try_catch. rewrite Hc.
  destruct (c env w) as [[e|a] w']; [apply Hh|reflexivity].
Qed.

Lemma ignores_when (b : bool) (c : M unit) :
  ignoresActivityService c -> ignoresActivityService (when b c).
Proof. intros H. destruct b; [exact H|apply ignores_ret]. Qed.

Lemma ignores_now : ignoresActivityService now.
Proof. intros post env w. reflexivity. Qed.

Lemma ignores_randomId : ignoresActivityService randomId.
Proof. intros post env w. reflexivity. Qed.

Lemma ignores_request (call : HttpCall) : ignoresActivityService (request call).
Proof. intros post env w. reflexivity. Qed.

Lemma ignores_findOne (externalId : string) :
  ignoresActivityService (EventModel.findOne externalId).
Proof. intros post env w. reflexivity. Qed.

Lemma ignores_findOneAndUpdate (externalId : string) (p : CalendarEventPatch) :
  ignoresActivityService (EventModel.findOneAndUpdate externalId p).
Proof. intros post env w. reflexivity. Qed.

Lemma ignores_save (s e : JsDate) (doc : Z -> Z -> CalendarEvent) :
  ignoresActivityService (EventModel.save s e doc).
Proof. intros post env w. reflexivity. Qed.

(** A block of type [unit] whose failures are swallowed. *)
Lemma try_unit_run (c : M unit) (env : Env) (w : World) :
  try_catch c (fun _ => ret tt) env w = (inr tt, snd (c env w)).
Proof.
  unfold try_catch. destruct (c env w) as [[e|[]] w']; reflexivity.
Qed.

Lemma ignores_try_unit (c : M unit) :
  sameWorldWithoutActivityService c ->
  ignoresActivityService (try_catch c (fun _ => ret tt)).
Proof. intros Hc post env w. now rewrite !try_unit_run, Hc. Qed.

Lemma same_world_of_ignores {A} (c : M A) :
  ignoresActivityService c -> sameWorldWithoutActivityService c.
Proof. intros H post env w. now rewrite H. Qed.

Lemma same_world_bind {A B} (c : M A) (k : A -> M B) :
  ignoresActivityService c -> (forall a, sameWorldWithoutActivityService (k a)) ->
  sameWorldWithoutActivityService (bind c k).
Proof.
  intros Hc Hk post env w. unfold bind. rewrite Hc.
  destruct (c env w) as [[e|a] w']; [reflexivity|apply Hk].
Qed.

Lemma same_world_when (b : bool) (c : M unit) :
  sameWorldWithoutActivityService c -> sameWorldWithoutActivityService (when b c).
Proof. intros H. destruct b; [exact H|intros post env w; reflexivity]. Qed.

(** Logging an activity and dropping its result. *)
Lemma same_world_logActivity (payload : ActivityPayload) :
  sameWorldWithoutActivityService (bind (logActivity payload) (fun _ => ret tt)).
Proof.
  intros post env w. unfold bind, logActivity.
  cbn [activityPost withActivityPost].
  destruct (post (activityLog w) payload), (activityPost env (activityLog w) payload);
    reflexivity.
Qed.

End IgnoresActivity.

Ltac ignore1 :=
  first
    [ apply ignores_ret
    | apply ignores_throw
    | apply ignores_lift
    | apply ignores_now
    | apply ignores_randomId
    | apply ignores_request
    | apply ignores_findOne
    | apply ignores_findOneAndUpdate
    | apply ignores_save
    | apply ignores_bind; [|intro]
    | apply ignores_try_catch; [|intro]
    | apply ignores_when
    | match goal with
      | |- ignoresActivityService (match ?x with _ => _ end) => destruct x
      end ];
  cbv beta iota zeta.

Lemma ignores_makeGoogleApiCall accessToken endpoint method data baseUrl :
  ignoresActivityService
    (Google.makeGoogleApiCall accessToken endpoint method data baseUrl).
Proof. unfold Google.makeGoogleApiCall. repeat ignore1. Qed.

Lemma ignores_makeGraphApiCall accessToken endpoint method data :
  ignoresActivityService (Microsoft.makeGraphApiCall accessToken endpoint method data).
Proof. unfold Microsoft.makeGraphApiCall. repeat ignore1. Qed.

Lemma ignores_getUserProfile accessToken :
  ignoresActivityService (Google.getUserProfile accessToken).
Proof.
  unfold Google.getUserProfile.
  apply ignores_try_catch; [|intro; apply ignores_ret].
  apply ignores_bind; [apply ignores_makeGoogleApiCall|intro].
  repeat ignore1.
Qed.

Ltac ignore_block :=
  apply ignores_try_unit;
  repeat (first [ apply same_world_logActivity
                | apply same_world_when
                | apply same_world_bind; [|intro]
                | apply ignores_getUserProfile
                | match goal with
                  | |- sameWorldWithoutActivityService (match ?x with _ => _ end) =>
                      destruct x
                  end
                | apply same_world_of_ignores
                | ignore1 ]).

Ltac ignoring :=
  repeat (first [ apply ignores_makeGoogleApiCall
                | apply ignores_makeGraphApiCall
                | apply ignores_getUserProfile
                | ignore_block
                | ignore1 ]).

Lemma ignores_google_deleteEvent accessToken eventId :
  ignoresActivityService (Google.deleteEvent accessToken eventId).
Proof. unfold Google.deleteEvent. ignoring. Qed.

Lemma ignores_microsoft_deleteEvent accessToken eventId :
  ignoresActivityService (Microsoft.deleteEvent accessToken eventId).
Proof. unfold Microsoft.deleteEvent. ignoring. Qed.

Lemma ignores_dateOrNow {DL : DateLib} (s : string) :
  ignoresActivityService (Google.dateOrNow s).
Proof. unfold Google.dateOrNow. repeat ignore1. Qed.

Lemma ignores_dateOfTime {DL : DateLib} (t : GoogleTime) :
  ignoresActivityService (Google.dateOfTime t).
Proof. unfold Google.dateOfTime. repeat ignore1. Qed.

Lemma ignores_validateCalendarAccess accessToken :
  ignoresActivityService (Microsoft.validateCalendarAccess accessToken).
Proof.
  unfold Microsoft.validateCalendarAccess.
  apply ignores_try_catch; [|intro; apply ignores_throw].
  apply ignores_bind; [apply ignores_makeGraphApiCall|intro; apply ignores_ret].
Qed.

Lemma ignores_graph_validateTimeLogic {DL : DateLib} startTime endTime :
  ignoresActivityService (Microsoft.validateTimeLogic startTime endTime).
Proof. unfold Microsoft.validateTimeLogic. repeat ignore1. Qed.

Ltac ignoring_all :=
  repeat (first [ apply ignores_makeGoogleApiCall
                | apply ignores_makeGraphApiCall
                | apply ignores_getUserProfile
                | apply ignores_dateOrNow
                | apply ignores_dateOfTime
                | apply ignores_validateCalendarAccess
                | apply ignores_graph_validateTimeLogic
                | ignore_block
                | ignore1 ]).

Lemma ignores_google_createEvent {DL : DateLib} accessToken d :
  ignoresActivityService (Google.createEvent accessToken d).
Proof. unfold Google.createEvent. ignoring_all. Qed.

Lemma ignores_microsoft_createEvent {DL : DateLib} accessToken d :
  ignoresActivityService (Microsoft.createEvent accessToken d).
Proof.
  unfold Microsoft.createEvent, Microsoft.asEvent. ignoring_all.
Qed.

Lemma ignores_google_updateEvent {DL : DateLib} accessToken eventId d :
  ignoresActivityService (Google.updateEvent accessToken eventId d).
Proof.
  unfold Google.updateEvent, Google.mirrorUpdate, Google.updatePayload,
    Google.updateTimes, Google.asEvent.
  ignoring_all.
Qed.

(** X15.  Of the six operations of the two adapters, five run the same
    way, to the same result and the same world, whatever the activity
    service answers: both [createEvent], both [deleteEvent] and the Google
    [updateEvent] log their activity inside a [try] of its own and drop
    its result. *)
Theorem activity_service_cannot_fail_an_operation
  {DL : DateLib} (accessToken eventId : string)
  (c : CreateEventDto) (u : UpdateEventDto)
  (post : list ActivityPayload -> ActivityPayload -> option (option string))
  (env : Env) (w : World) :
  Google.createEvent accessToken c (withActivityPost post env) w
  = Google.createEvent accessToken c env w
  /\ Google.updateEvent accessToken eventId u (withActivityPost post env) w
     = Google.updateEvent accessToken eventId u env w
  /\ Google.deleteEvent accessToken eventId (withActivityPost post env) w
     = Google.deleteEvent accessToken eventId env w
  /\ Microsoft.createEvent accessToken c (withActivityPost post env) w
     = Microsoft.createEvent accessToken c env w
  /\ Microsoft.deleteEvent accessToken eventId (withActivityPost post env) w
     = Microsoft.deleteEvent accessToken eventId env w.
Proof.
  split; [apply ignores_google_createEvent|].
  split; [apply ignores_google_updateEvent|].
  split; [apply ignores_google_deleteEvent|].
  split; [apply ignores_microsoft_createEvent|apply ignores_microsoft_deleteEvent].
Qed.

Lemma patchKeys_lead (p : CalendarEventPatch) (lead : string) :
  pt_leadId p = Some lead -> (0 <? Microsoft.patchKeys p)%nat = true.
Proof.
  intros H. apply Nat.ltb_lt. unfold Microsoft.patchKeys. rewrite H.
  cbn [Google.isSome]. lia.
Qed.

(** X16.  The sixth operation is the exception.  The Microsoft
    [updateEvent] logs its activity inside the [try] of the whole
    operation: when the request names a lead and the activity service
    fails, the operation fails as a bad request, although the patch has
    been sent to the provider and applied to the local mirror. *)
Theorem microsoft_updateEvent_fails_with_activity_service
  {DL : DateLib} (env : Env) (w : World) (accessToken eventId : string)
  (d : UpdateEventDto) (granted : HttpData)
  (existingEvent updatedEvent : MicrosoftGraphEvent) (payload : GraphEventPayload) :
  transport env (httpLog w) (graphProbeCall accessToken) = inr granted ->
  transport env (httpLog w ++ [graphProbeCall accessToken])%list
    (graphGetCall accessToken eventId) = inr (GraphEventData existingEvent) ->
  Js.truthy (ue_startTime d) && Js.truthy (ue_endTime d) = false ->
  Microsoft.updatePayload existingEvent d = inr payload ->
  transport env
    (httpLog w ++ [graphProbeCall accessToken; graphGetCall accessToken eventId])%list
    (graphPatchCall accessToken eventId payload) = inr (GraphEventData updatedEvent) ->
  patchCasts (Microsoft.mirrorPatch updatedEvent d) = true ->
  Js.truthy (ue_leadId d) = true ->
  (forall log activity, activityPost env log activity = None) ->
  let run := Microsoft.updateEvent accessToken eventId d env w in
  fst run
  = inl (BadRequestException "Failed to update calendar event: Failed to log activity")
  /\ httpLog (snd run)
     = (httpLog w ++ [graphProbeCall accessToken; graphGetCall accessToken eventId;
                      graphPatchCall accessToken eventId payload])%list
  /\ calendarEvents (snd run)
     = update_first (hasExternalId eventId)
         (applyPatch (Microsoft.mirrorPatch updatedEvent d)) (calendarEvents w).
Proof.
  intros Hprobe Hget Htimes Hpayload Hpatch Hcasts Hlead Hdown run.
  assert (Hkeys : (0 <? Microsoft.patchKeys (Microsoft.mirrorPatch updatedEvent d))%nat
                  = true).
  { destruct (ue_leadId d) as [lead|] eqn:El; [|discriminate].
    apply (@patchKeys_lead _ lead).
    unfold Microsoft.mirrorPatch. cbn [pt_leadId]. now rewrite El, Hlead. }
  subst run. unfold Microsoft.updateEvent.
  erewrite bind_run by (rewrite validateCalendarAccess_run, Hprobe; reflexivity).
  unfold graphGetCall in Hget. unfold graphPatchCall in Hpatch.
  erewrite try_bind_run
    by (apply makeGraphApiCall_run; cbn [snd request httpLog]; exact Hget).
  erewrite try_bind_run by reflexivity.
  rewrite Htimes. cbn [when].
  erewrite try_bind_run by reflexivity.
  rewrite Hpayload.
  erewrite try_bind_run by reflexivity.
  erewrite try_bind_run
    by (apply makeGraphApiCall_run; cbn [snd request httpLog];
        rewrite <- app_assoc; exact Hpatch).
  erewrite try_bind_run by reflexivity.
  unfold Microsoft.mirrorUpdate. cbv zeta.
  rewrite Hkeys, Hlead. cbn [when].
  erewrite try_bind_run
    by (unfold bind, EventModel.findOneAndUpdate; rewrite Hcasts; reflexivity).
  erewrite try_bind_run by reflexivity.
  cbv beta. rewrite Hlead. cbn [when].
  erewrite try_bind_fail
    by (unfold bind, logActivity; rewrite Hdown; reflexivity).
  unfold throw, request, graphProbeCall, graphGetCall, graphPatchCall.
  cbn [fst snd db_step calendarEvents loggedMeetings httpLog dbLog activityLog
       taskLog clockReads randomDraws created error_message].
  split; [reflexivity|]. split; [|reflexivity].
  rewrite <- !app_assoc. reflexivity.
Qed.

Lemma microsoft_updateEvent_fails_with_activity_service_witness :
  let before := Sample.graphEvent "e1" "1000Z" "2000Z" in
  let d :=
    {| ue_title := Some "Renamed"; ue_leadId := Some "lead-1";
       ue_description := None; ue_startTime := None; ue_endTime := None;
       ue_timeZone := None; ue_isAllDay := None; ue_locationType := None;
       ue_locationDetails := None; ue_attendees := None; ue_organizer := None;
       ue_organizerName := None; ue_outcome := None |} in
  let env :=
    withActivityPost (fun _ _ => None)
      (Sample.outside (Sample.graphUpdating before before) 0) in
  let w := Sample.world [Sample.storedEvent "e1" 1000 2000] [] in
  let run := @Microsoft.updateEvent decimalDates "token-1" "e1" d env w in
  fst run
  = inl (BadRequestException "Failed to update calendar event: Failed to log activity")
  /\ map hc_method (httpLog (snd run)) = [GET; GET; PATCH]
  /\ map ev_title (calendarEvents (snd run)) = [Some "Review"].
Proof.
  intros before d env w run.
  destruct (@microsoft_updateEvent_fails_with_activity_service decimalDates env w
              "token-1" "e1" d NoData before before
              {| mp_subject := Some "Renamed"; mp_body := None; mp_start := None;
                 mp_end := None; mp_attendees := None; mp_isAllDay := None;
                 mp_organizer := None; mp_location := None;
                 mp_isOnlineMeeting := None; mp_onlineMeetingProvider := None |}
              eq_refl eq_refl eq_refl eq_refl eq_refl eq_refl eq_refl
              (fun _ _ => eq_refl))
    as [Hfail [Hlog Hstore]].
  split; [exact Hfail|]. split.
  - fold run in Hlog. rewrite Hlog. reflexivity.
  - fold run in Hstore. rewrite Hstore. reflexivity.
Defined.


(** ** Where the calls go *)

Section QuietSteps.

Variable R : World -> World -> Prop.
Hypothesis HR : Quiet R.

Lemma quiet_ret {A} (a : A) : steps R (ret a).
Proof. intros env w. apply (quiet_refl HR). Qed.

Lemma quiet_throw {A} (e : Exn) : steps R (@throw A e).
Proof. intros env w. apply (quiet_refl HR). Qed.

Lemma quiet_lift {A} (r : Result A) : steps R (lift r).
Proof. intros env w. apply (quiet_refl HR). Qed.

Lemma quiet_bind {A B} (c : M A) (k : A -> M B) :
  steps R c -> (forall a, steps R (k a)) -> steps R (bind c k).
Proof.
  intros Hc Hk env w. unfold bind. specialize (Hc env w).
  destruct (c env w) as [[e|a] w']; cbn [snd] in *; [assumption|].
  eapply (quiet_trans HR); [eassumption|apply Hk].
Qed.

Lemma quiet_try_catch {A} (c : M A) (h : Exn -> M A) :
  steps R c -> (forall e, steps R (h e)) -> steps R (try_catch c h).
Proof.
  intros Hc Hh env w. unfold try_catch. specialize (Hc env w).
  destruct (c env w) as [[e|a] w']; cbn [snd] in *; [|assumption].
  eapply (quiet_trans HR); [eassumption|apply Hh].
Qed.

Lemma quiet_when (b : bool) (c : M unit) : steps R c -> steps R (when b c).
Proof. intros H. destruct b; [exact H|apply quiet_ret]. Qed.

Lemma quiet_now : steps R now.
Proof. intros env w. now apply (quiet_silent HR). Qed.

Lemma quiet_randomId : steps R randomId.
Proof. intros env w. now apply (quiet_silent HR). Qed.

Lemma quiet_logActivity (payload : ActivityPayload) : steps R (logActivity payload).
Proof.
  intros env w. apply (quiet_silent HR). now rewrite logActivity_world.
Qed.

Lemma quiet_findOne (externalId : string) : steps R (EventModel.findOne externalId).
Proof. intros env w. now apply (quiet_silent HR). Qed.

Lemma quiet_findOneAndUpdate (externalId : string) (p : CalendarEventPatch) :
  steps R (EventModel.findOneAndUpdate externalId p).
Proof.
  intros env w. apply (quiet_silent HR). unfold EventModel.findOneAndUpdate.
  now destruct (patchCasts p).
Qed.

Lemma quiet_save (s e : JsDate) (doc : Z -> Z -> CalendarEvent) :
  steps R (EventModel.save s e doc).
Proof.
  intros env w. apply (quiet_silent HR). unfold EventModel.save.
  destruct s, e; try destruct (EventModel.requiredPresent _); reflexivity.
Qed.

End QuietSteps.

Ltac quiet1 HR :=
  first
    [ apply (quiet_ret HR)
    | apply (quiet_throw HR)
    | apply (quiet_lift HR)
    | apply (quiet_now HR)
    | apply (quiet_randomId HR)
    | apply (quiet_logActivity HR)
    | apply (quiet_findOne HR)
    | apply (quiet_findOneAndUpdate HR)
    | apply (quiet_save HR)
    | apply (quiet_bind HR); [|intro]
    | apply (quiet_try_catch HR); [|intro]
    | apply (quiet_when HR)
    | match goal with
      | |- steps _ (match ?x with _ => _ end) => destruct x
      end
    | match goal with
      | |- steps _ (if ?x then _ else _) => destruct x
      end ];
  cbv beta iota zeta.

Lemma callsCarry_quiet (token base : string) : Quiet (callsCarry token base).
Proof.
  split.
  - intros w. exists []. split; [now rewrite app_nil_r|constructor].
  - intros a b c [r1 [E1 F1]] [r2 [E2 F2]]. exists (r1 ++ r2)%list. split.
    + now rewrite E2, E1, app_assoc.
    + apply Forall_app. now split.
  - intros w w' H. exists []. split; [now rewrite app_nil_r|constructor].
Qed.

Lemma carry_request (token base : string) (call : HttpCall) :
  hc_token call = token -> prefix base (hc_url call) = true ->
  steps (callsCarry token base) (request call).
Proof.
  intros Ht Hb env w. exists [call]. split; [reflexivity|].
  constructor; [now split|constructor].
Qed.

Lemma carry_makeGoogleApiCall (token endpoint : string) (method : HttpMethod)
  (data : HttpBody) :
  steps (callsCarry token "https://www.googleapis.com/")
    (Google.makeGoogleApiCall token endpoint method data None).
Proof.
  unfold Google.makeGoogleApiCall.
  apply (quiet_bind (callsCarry_quiet _ _)); [apply carry_request; reflexivity|intro].
  repeat quiet1 (callsCarry_quiet token "https://www.googleapis.com/").
Qed.

Lemma carry_getUserProfile (token : string) :
  steps (callsCarry token "https://www.googleapis.com/") (Google.getUserProfile token).
Proof.
  unfold Google.getUserProfile, Google.makeGoogleApiCall.
  apply (quiet_try_catch (callsCarry_quiet _ _));
    [|intro; apply (quiet_ret (callsCarry_quiet _ _))].
  apply (quiet_bind (callsCarry_quiet _ _)); [|intro].
  - apply (quiet_bind (callsCarry_quiet _ _)); [apply carry_request; reflexivity|intro].
    repeat quiet1 (callsCarry_quiet token "https://www.googleapis.com/").
  - repeat quiet1 (callsCarry_quiet token "https://www.googleapis.com/").
Qed.

Lemma carry_makeGraphApiCall (token endpoint : string) (method : HttpMethod)
  (data : HttpBody) :
  steps (callsCarry token "https://graph.microsoft.com/v1.0/")
    (Microsoft.makeGraphApiCall token endpoint method data).
Proof.
  unfold Microsoft.makeGraphApiCall.
  apply (quiet_bind (callsCarry_quiet _ _));
    [apply carry_request; [reflexivity|apply prefix_app]|intro].
  repeat quiet1 (callsCarry_quiet token "https://graph.microsoft.com/v1.0/").
Qed.

Ltac carrying :=
  repeat (first [ apply carry_makeGoogleApiCall
                | apply carry_getUserProfile
                | apply carry_makeGraphApiCall
                | match goal with
                  | |- steps (callsCarry ?t ?b) _ => quiet1 (callsCarry_quiet t b)
                  end ]).

Lemma carry_google_createEvent {DL : DateLib} accessToken c :
  steps (callsCarry accessToken "https://www.googleapis.com/")
    (Google.createEvent accessToken c).
Proof. unfold Google.createEvent, Google.dateOrNow. carrying. Qed.

Lemma carry_google_updateEvent {DL : DateLib} accessToken eventId u :
  steps (callsCarry accessToken "https://www.googleapis.com/")
    (Google.updateEvent accessToken eventId u).
Proof.
  unfold Google.updateEvent, Google.mirrorUpdate, Google.updatePayload,
    Google.updateTimes, Google.asEvent, Google.dateOfTime.
  carrying.
Qed.

Lemma carry_google_deleteEvent accessToken eventId :
  steps (callsCarry accessToken "https://www.googleapis.com/")
    (Google.deleteEvent accessToken eventId).
Proof. unfold Google.deleteEvent. carrying. Qed.

Lemma carry_microsoft_createEvent {DL : DateLib} accessToken c :
  steps (callsCarry accessToken "https://graph.microsoft.com/v1.0/")
    (Microsoft.createEvent accessToken c).
Proof.
  unfold Microsoft.createEvent, Microsoft.validateCalendarAccess,
    Microsoft.validateTimeLogic, Microsoft.asEvent.
  carrying.
Qed.

Lemma carry_microsoft_updateEvent {DL : DateLib} accessToken eventId u :
  steps (callsCarry accessToken "https://graph.microsoft.com/v1.0/")
    (Microsoft.updateEvent accessToken eventId u).
Proof.
  unfold Microsoft.updateEvent, Microsoft.mirrorUpdate,
    Microsoft.validateCalendarAccess, Microsoft.validateTimeLogic,
    Microsoft.asEvent.
  cbv zeta. carrying.
Qed.

Lemma carry_microsoft_deleteEvent accessToken eventId :
  steps (callsCarry accessToken "https://graph.microsoft.com/v1.0/")
    (Microsoft.deleteEvent accessToken eventId).
Proof. unfold Microsoft.deleteEvent. carrying. Qed.

(** X17.  Every call an operation of an adapter sends through the
    transport client carries the access token the operation was given,
    and goes to the provider of the adapter: to a URL under
    [https://www.googleapis.com/] for the Google adapter, under
    [https://graph.microsoft.com/v1.0/] for the Microsoft adapter. *)
Theorem adapter_calls_carry_the_token
  {DL : DateLib} (env : Env) (w : World) (accessToken eventId : string)
  (c : CreateEventDto) (u : UpdateEventDto) :
  callsCarry accessToken "https://www.googleapis.com/" w
    (snd (Google.createEvent accessToken c env w))
  /\ callsCarry accessToken "https://www.googleapis.com/" w
       (snd (Google.updateEvent accessToken eventId u env w))
  /\ callsCarry accessToken "https://www.googleapis.com/" w
       (snd (Google.deleteEvent accessToken eventId env w))
  /\ callsCarry accessToken "https://graph.microsoft.com/v1.0/" w
       (snd (Microsoft.createEvent accessToken c env w))
  /\ callsCarry accessToken "https://graph.microsoft.com/v1.0/" w
       (snd (Microsoft.updateEvent accessToken eventId u env w))
  /\ callsCarry accessToken "https://graph.microsoft.com/v1.0/" w
       (snd (Microsoft.deleteEvent accessToken eventId env w)).
Proof.
  split; [apply carry_google_createEvent|].
  split; [apply carry_google_updateEvent|].
  split; [apply carry_google_deleteEvent|].
  split; [apply carry_microsoft_createEvent|].
  split; [apply carry_microsoft_updateEvent|apply carry_microsoft_deleteEvent].
Qed.

(** ** Sync gateway: the create route *)

(** X18.  The create route reaches a provider only through valid
    headers.  When the validation of the two headers fails, the route
    fails with the error of the validation and the world is as it was: no
    call, no access to the store.  When it succeeds, the route is the
    [createEvent] of the adapter of the provider named in the header, run
    with the authorization header without its [Bearer ]; so every call it
    sends carries that token and goes to that provider. *)
Theorem create_route_goes_through_the_headers
  {DL : DateLib} (env : Env) (w : World) (d : CreateEventDto)
  (authHeader provider : option string) :
  match Controller.validateHeaders authHeader provider with
  | inl e => Routes.createEvent d authHeader provider env w = (inl e, w)
  | inr v =>
      vh_accessToken v = Js.remove_first "Bearer " (show authHeader)
      /\ match vh_provider v with
         | GOOGLE =>
             Routes.createEvent d authHeader provider env w
             = Google.createEvent (vh_accessToken v) d env w
             /\ callsCarry (vh_accessToken v) "https://www.googleapis.com/" w
                  (snd (Routes.createEvent d authHeader provider env w))
         | MICROSOFT =>
             Routes.createEvent d authHeader provider env w
             = Microsoft.createEvent (vh_accessToken v) d env w
             /\ callsCarry (vh_accessToken v) "https://graph.microsoft.com/v1.0/" w
                  (snd (Routes.createEvent d authHeader provider env w))
         end
  end.
Proof.
  unfold Routes.createEvent, bind, lift.
  destruct (Controller.validateHeaders authHeader provider) as [e|v] eqn:Hv;
    [reflexivity|].
  split.
  - destruct (validateHeaders_inversion _ _ Hv) as [a [p [-> [_ [_ [Ht _]]]]]].
    exact Ht.
  - destruct (vh_provider v); (split; [reflexivity|]).
    + apply carry_google_createEvent.
    + apply carry_microsoft_createEvent.
Qed.

(** ** The local feed: a read *)

(** Mapping the logged meetings reads the clock once per meeting and
    touches nothing else. *)
Lemma mapM_mapLoggedMeeting_run {DL : DateLib} (ms : list LoggedMeeting) :
  forall env w,
  exists items,
    mapM Controller.mapLoggedMeeting ms env w
    = (inr items,
       {| calendarEvents := calendarEvents w; loggedMeetings := loggedMeetings w;
          httpLog := httpLog w; dbLog := dbLog w; activityLog := activityLog w;
          taskLog := taskLog w; clockReads := (List.length ms + clockReads w)%nat;
          randomDraws := randomDraws w; created := created w |}).
Proof.
  induction ms as [|m ms IH]; intros env w.
  - exists []. destruct w. reflexivity.
  - cbn [mapM].
    unfold bind at 1. unfold Controller.mapLoggedMeeting at 1, bind at 1, now at 1.
    unfold ret at 1. cbv beta iota. unfold bind at 1.
    match goal with
    | |- context [mapM Controller.mapLoggedMeeting ms env ?w1] =>
        destruct (IH env w1) as [items Hrun]
    end.
    rewrite Hrun. unfold ret. eexists. cbn.
    rewrite Nat.add_succ_r. reflexivity.
Qed.

(** The world a run of [getLocalEvents] leaves, when the store answers
    its two queries. *)
Lemma getLocalEvents_world
  {DL : DateLib} (env : Env) (w : World)
  (provider userId leadId authHeader calendarProvider : option string) :
  calendarEvents (snd (Controller.getLocalEvents provider userId leadId
                         authHeader calendarProvider env w))
  = calendarEvents w
  /\ loggedMeetings (snd (Controller.getLocalEvents provider userId leadId
                            authHeader calendarProvider env w))
     = loggedMeetings w
  /\ activityLog (snd (Controller.getLocalEvents provider userId leadId
                         authHeader calendarProvider env w))
     = activityLog w
  /\ taskLog (snd (Controller.getLocalEvents provider userId leadId
                     authHeader calendarProvider env w))
     = taskLog w
  /\ dbLog (snd (Controller.getLocalEvents provider userId leadId
                   authHeader calendarProvider env w))
     = (dbLog w ++ [EventFind; MeetingFind])%list
  /\ httpLog (snd (Controller.getLocalEvents provider userId leadId
                     authHeader calendarProvider env w))
     = (httpLog w
        ++ if option_string_eqb calendarProvider (Some (provider_tag GOOGLE))
              && Js.truthy authHeader
           then [googleProfileCall (Js.remove_first "Bearer " (show authHeader))]
           else [])%list.
Proof.
  unfold Controller.getLocalEvents.
  erewrite try_bind_run by reflexivity.
  erewrite try_bind_run by reflexivity.
  destruct (option_string_eqb calendarProvider (Some (provider_tag GOOGLE))
            && Js.truthy authHeader).
  - match goal with
    | |- context [try_catch _ _ env ?W] =>
        destruct (getUserProfile_run
                    (Js.remove_first "Bearer " (show authHeader)) env W)
          as [profile Hp]
    end.
    erewrite try_bind_run by (apply try_catch_ok; exact Hp).
    match goal with
    | |- context [try_catch (bind (mapM _ ?ms) _) _ env ?W] =>
        destruct (mapM_mapLoggedMeeting_run ms env W) as [items Hitems]
    end.
    erewrite try_bind_run by exact Hitems.
    unfold try_catch, ret, request. cbn.
    rewrite <- !app_assoc. repeat split; eauto.
  - erewrite try_bind_run by reflexivity.
    match goal with
    | |- context [try_catch (bind (mapM _ ?ms) _) _ env ?W] =>
        destruct (mapM_mapLoggedMeeting_run ms env W) as [items Hitems]
    end.
    erewrite try_bind_run by exact Hitems.
    unfold try_catch, ret. cbn.
    rewrite <- !app_assoc, app_nil_r. repeat split; eauto.
Qed.

Lemma option_string_eqb_eq (a b : option string) :
  option_string_eqb a b = true -> a = b.
Proof.
  destruct a, b; cbn; try discriminate; [|reflexivity].
  intros H. apply String.eqb_eq in H. now subst.
Qed.

(** X19.  The local feed is a read.  [getLocalEvents] leaves the calendar
    events, the logged meetings, the activity log and the task log as
    they were; it sends the store nothing but its two queries, the events
    before the meetings and each at most once; and it sends at most one
    call, the profile request with the authorization header without its
    [Bearer ], and none unless the provider header is [google] and an
    authorization header is given. *)
Theorem getLocalEvents_only_reads
  {DL : DateLib} (env : Env) (w : World)
  (provider userId leadId authHeader calendarProvider : option string) :
  let run := Controller.getLocalEvents provider userId leadId authHeader
               calendarProvider env w in
  calendarEvents (snd run) = calendarEvents w
  /\ loggedMeetings (snd run) = loggedMeetings w
  /\ activityLog (snd run) = activityLog w
  /\ taskLog (snd run) = taskLog w
  /\ (exists queries rest,
        dbLog (snd run) = (dbLog w ++ queries)%list
        /\ [EventFind; MeetingFind] = (queries ++ rest)%list)
  /\ (exists calls,
        httpLog (snd run) = (httpLog w ++ calls)%list
        /\ (calls = []
            \/ (calls = [googleProfileCall
                           (Js.remove_first "Bearer " (show authHeader))]
                /\ calendarProvider = Some (provider_tag GOOGLE)
                /\ Js.truthy authHeader = true))).
Proof.
  intros run. subst run.
  destruct (getLocalEvents_world env w provider userId leadId authHeader
              calendarProvider) as [He [Hm [Ha [Ht [Hdb Hhttp]]]]].
  repeat (split; [assumption|]). split.
  - exists [EventFind; MeetingFind], []. split; [exact Hdb|reflexivity].
  - eexists. split; [exact Hhttp|].
    destruct (option_string_eqb calendarProvider (Some (provider_tag GOOGLE)))
      eqn:Eg; [|now left].
    destruct (Js.truthy authHeader) eqn:Et; [|now left].
    right. split; [reflexivity|].
    split; [now apply option_string_eqb_eq|reflexivity].
Qed.

(** ** Delete, then the local feed *)

(** When at most one record carries the id, no record of the event is
    active after a soft delete. *)
Lemma softDeleted_inactive_all (eventId : string) (events : list CalendarEvent) :
  (List.length (filter (hasExternalId eventId) events) <= 1)%nat ->
  forall e, In e (softDeleted eventId events) ->
            hasExternalId eventId e = true -> ev_isActive e = false.
Proof.
  unfold softDeleted. induction events as [|x l IH]; intros Hone e Hin He.
  - destruct Hin.
  - cbn [update_first] in Hin. cbn [filter] in Hone.
    destruct (hasExternalId eventId x) eqn:Ex.
    + destruct Hin as [<- | Hin]; [reflexivity|].
      exfalso. cbn [List.length] in Hone.
      assert (Hnil : filter (hasExternalId eventId) l = [])
        by (destruct (filter (hasExternalId eventId) l); [reflexivity|cbn in Hone; lia]).
      assert (Hf : In e (filter (hasExternalId eventId) l))
        by (apply filter_In; now split).
      rewrite Hnil in Hf. destruct Hf.
    + destruct Hin as [<- | Hin]; [congruence|].
      now apply (IH Hone e Hin).
Qed.

Lemma calendarQuery_active (provider userId leadId : option string) (e : CalendarEvent) :
  Controller.calendarQuery provider userId leadId e = true -> ev_isActive e = true.
Proof.
  unfold Controller.calendarQuery. intros H.
  repeat (apply andb_true_iff in H as [H _]). exact H.
Qed.

(** The calendar items of a feed over [events] are items of active
    records of [events]. *)
Lemma feed_calendar_items {DL : DateLib} (env : Env) (w : World)
  (provider userId leadId authHeader calendarProvider : option string)
  (feed : list FeedItem) (it : FeedItem) :
  fst (Controller.getLocalEvents provider userId leadId authHeader calendarProvider
         env w) = inr feed ->
  In it feed -> fi_source it = calendar_event ->
  exists e, In e (calendarEvents w) /\ ev_isActive e = true
            /\ ev_externalId e = fi_id it.
Proof.
  intros Hrun Hin Hsrc.
  destruct (getLocalEvents_feed env w provider userId leadId authHeader
              calendarProvider) as [cal [meet [Hfeed [Hcal Hmeet]]]].
  rewrite Hfeed in Hrun. injection Hrun as <-.
  unfold Controller.buildFeed in Hin.
  apply (Permutation_in _ (sort_perm _ _)) in Hin.
  apply in_app_or in Hin as [Hin | Hin].
  - apply (in_map orderKey) in Hin. rewrite Hcal in Hin.
    unfold eventKeys in Hin. apply in_map_iff in Hin as [e [Hkey He]].
    apply filter_In in He as [He Hq].
    exists e. split; [exact He|]. split; [now apply calendarQuery_active in Hq|].
    unfold orderKey in Hkey. now injection Hkey as -> _ _.
  - apply (in_map orderKey) in Hin. rewrite Hmeet in Hin.
    unfold meetingKeys in Hin. apply in_map_iff in Hin as [m [Hkey _]].
    unfold orderKey in Hkey. injection Hkey as _ Hs _. congruence.
Qed.

(** X20.  Delete, then read.  When at most one record of the local mirror
    carries the id of an event, then after the [deleteEvent] of either
    adapter no feed shows the event among its calendar events, whatever
    the filters.  (With several records of the same id only the first is
    marked, and the others would still show.) *)
Theorem deleted_event_leaves_the_feed
  {DL : DateLib} (env env' : Env) (w : World) (accessToken eventId : string)
  (provider userId leadId authHeader calendarProvider : option string) :
  (List.length (filter (hasExternalId eventId) (calendarEvents w)) <= 1)%nat ->
  let shows w' :=
    exists feed it,
      fst (Controller.getLocalEvents provider userId leadId authHeader
             calendarProvider env' w') = inr feed
      /\ In it feed /\ fi_source it = calendar_event /\ fi_id it = eventId in
  ~ shows (snd (Google.deleteEvent accessToken eventId env w))
  /\ ~ shows (snd (Microsoft.deleteEvent accessToken eventId env w)).
Proof.
  intros Hone shows.
  assert (Hno : forall w', calendarEvents w' = softDeleted eventId (calendarEvents w) ->
                           ~ shows w').
  { intros w' Hw' [feed [it [Hrun [Hin [Hsrc Hid]]]]].
    destruct (@feed_calendar_items _ _ _ _ _ _ _ _ _ _ Hrun Hin Hsrc)
      as [e [He [Hact Heid]]].
    rewrite Hw' in He.
    assert (Hp : hasExternalId eventId e = true)
      by (unfold hasExternalId; rewrite Heid, Hid; apply String.eqb_refl).
    rewrite (softDeleted_inactive_all _ _ Hone e He Hp) in Hact. discriminate. }
  split; apply Hno.
  - apply google_deleteEvent_total.
  - apply microsoft_deleteEvent_total.
Qed.

Lemma deleted_event_leaves_the_feed_witness :
  let env := Sample.outside Sample.silent 0 in
  let w := Sample.feedWorld in
  (List.length (filter (hasExternalId "e1") (calendarEvents w)) <= 1)%nat
  /\ ~ (exists feed it,
          fst (@Controller.getLocalEvents decimalDates None None None None None env
                 (snd (Google.deleteEvent "token-1" "e1" env w))) = inr feed
          /\ In it feed /\ fi_source it = calendar_event /\ fi_id it = "e1").
Proof.
  intros env w.
  assert (Hone : (List.length (filter (hasExternalId "e1") (calendarEvents w)) <= 1)%nat)
    by (cbn; lia).
  split; [exact Hone|].
  apply (@deleted_event_leaves_the_feed decimalDates env env w "token-1" "e1"
           None None None None None Hone).
Defined.

(** ** Meeting logger: after the validation *)

(** The activity of a logged meeting is logged inside its own [try]; its
    result is the id of the activity, if any. *)
Lemma try_logActivity_id (payload : ActivityPayload) (env : Env) (w : World) :
  try_catch (logActivity payload) (fun _ => ret None) env w
  = (inr (match activityPost env (activityLog w) payload with
          | Some id => id
          | None => None
          end),
     snd (logActivity payload env w)).
Proof.
  unfold try_catch, logActivity.
  now destruct (activityPost env (activityLog w) payload).
Qed.

Lemma meeting_save_run (t : Z) (doc : string -> Z -> LoggedMeeting)
  (env : Env) (w : World) :
  MeetingModel.requiredPresent (doc (objectId env (created w)) t) = true ->
  MeetingModel.save (Some t) doc env w
  = (inr (doc (objectId env (created w)) t),
     set_created (S (created w))
       (db_step MeetingSave (calendarEvents w)
          (loggedMeetings w ++ [doc (objectId env (created w)) t]) w)).
Proof. intros H. unfold MeetingModel.save. cbv zeta. now rewrite H. Qed.

Lemma forallb_map_compose {A B} (f : B -> bool) (g : A -> B) (l : list A) :
  forallb f (map g l) = forallb (fun x => f (g x)) l.
Proof. induction l as [|x l IH]; simpl; [reflexivity|now rewrite IH]. Qed.

Lemma show_truthy (s : option string) :
  Js.truthy s = true -> Js.truthy (Some (show s)) = true.
Proof. destruct s as [[|c s]|]; try discriminate; reflexivity. Qed.

(** X21.  A request that passes the validation and asks for a follow-up
    task, when the task service fails: [logMeeting] fails as a bad
    request that carries the error of the task service, although the
    meeting has been stored and its activity logged; the stored meeting
    is left without the id of that activity, for the ids are written
    back only after the task. *)
Theorem logMeeting_fails_after_saving_when_the_task_fails
  {DL : DateLib} (env : Env) (w : World) (dto : LogMeetingDto)
  (organizationId : option string) (followUp : FollowUpTaskDto) (t : Z) (e : Exn) :
  Js.truthy organizationId = true ->
  (lg_meetingType dto = VIRTUAL -> lg_virtualMeetingProvider dto <> None) ->
  lg_createFollowUpTask dto = Some true ->
  lg_followUpTask dto = Some followUp ->
  Date_parse (lg_meetingDateTime dto) = Some t ->
  lg_title dto <> EmptyString -> lg_summary dto <> EmptyString ->
  lg_leadId dto <> EmptyString ->
  forallb (fun p => Js.truthy (Some (mpd_email p))) (lg_participants dto) = true ->
  (forall log task, taskService env log task = inl e) ->
  let run := Controller.logMeeting dto organizationId env w in
  fst run = inl (BadRequestException ("Failed to log meeting: " ++ error_message e))
  /\ (exists m,
         loggedMeetings (snd run) = (loggedMeetings w ++ [m])%list
         /\ lm_id m = objectId env (created w)
         /\ lm_title m = lg_title dto
         /\ lm_meetingDateTime m = t
         /\ lm_activityId m = None /\ lm_taskId m = None
         /\ lm_isActive m = true)
  /\ (exists activity,
         activityLog (snd run) = (activityLog w ++ [activity])%list
         /\ ap_leadId activity = Some (lg_leadId dto))
  /\ List.length (taskLog (snd run)) = S (List.length (taskLog w)).
Proof.
  intros Horg Hvirtual Hcreate Hfollow Hdate Htitle Hsummary Hlead Hmail Htask run.
  subst run. unfold Controller.logMeeting.
  rewrite Horg, Hcreate, Hfollow, Hdate. cbn [negb when andb Google.isSome].
  erewrite try_bind_run by reflexivity.
  assert (Hv : (match lg_meetingType dto with VIRTUAL => true | _ => false end
                && negb (Google.isSome (lg_virtualMeetingProvider dto))) = false).
  { destruct (lg_meetingType dto) eqn:Ek; try reflexivity.
    destruct (lg_virtualMeetingProvider dto); [reflexivity|].
    now elim (Hvirtual eq_refl). }
  rewrite Hv. cbn [when].
  erewrite try_bind_run by reflexivity.
  erewrite try_bind_run by reflexivity.
  erewrite try_bind_run by reflexivity.
  erewrite try_bind_run.
  2:{ apply meeting_save_run. unfold MeetingModel.requiredPresent.
      cbn [lm_title lm_summary lm_leadId lm_loggedBy lm_organizationId
           lm_participants].
      apply truthy_nonempty in Htitle, Hsummary, Hlead.
      rewrite Htitle, Hsummary, Hlead, (show_truthy _ Horg). cbn [andb].
      rewrite forallb_map_compose. exact Hmail. }
  erewrite try_bind_run by apply try_logActivity_id.
  rewrite logActivity_world.
  erewrite try_bind_fail
    by (unfold createTask; rewrite Htask; reflexivity).
  unfold throw, now, set_created.
  cbn [fst snd db_step calendarEvents loggedMeetings httpLog dbLog activityLog
       taskLog clockReads randomDraws created].
  split; [reflexivity|].
  split; [eexists; repeat split; reflexivity|].
  split; [eexists; split; reflexivity|].
  rewrite length_app. cbn. lia.
Qed.

Lemma logMeeting_task_failure_witness :
  let followUp := {| fu_title := "Send the offer"; fu_description := None;
                     fu_dueDate := "9000Z"; fu_priority := None |} in
  let dto :=
    {| lg_leadId := "lead-1"; lg_title := "Kick-off"; lg_meetingType := PHONE;
       lg_virtualMeetingProvider := None; lg_meetingDateTime := "1000Z";
       lg_participants := []; lg_summary := "Agreed on the scope";
       lg_outcome := SUCCESSFUL; lg_createFollowUpTask := Some true;
       lg_followUpTask := Some followUp; lg_attachment := None;
       lg_duration := None; lg_location := None |} in
  let failure := InternalServerErrorException "Failed to create task" in
  let env :=
    {| transport := fun _ _ => inr NoData;
       activityPost := fun _ _ => Some (Some "activity-1");
       taskService := fun _ _ => inl failure;
       clock := fun _ => 0;
       random := fun _ => "r4nd0m";
       objectId := fun _ => "meeting-0" |} in
  let run := @Controller.logMeeting decimalDates dto (Some "org-1") env
               (Sample.world [] []) in
  fst run
  = inl (BadRequestException "Failed to log meeting: Failed to create task")
  /\ map lm_id (loggedMeetings (snd run)) = ["meeting-0"].
Proof.
  intros followUp dto failure env run.
  destruct (@logMeeting_fails_after_saving_when_the_task_fails decimalDates env
              (Sample.world [] []) dto (Some "org-1") followUp 1000 failure
              eq_refl (fun H => ltac:(discriminate H)) eq_refl eq_refl eq_refl
              ltac:(discriminate) ltac:(discriminate) ltac:(discriminate)
              eq_refl (fun _ _ => eq_refl))
    as [Hfail [[m [Hstore [Hid _]]] _]].
  split; [exact Hfail|].
  fold run in Hstore. rewrite Hstore. cbn. now rewrite Hid.
Defined.


Lemma update_first_fresh {A} (p : A -> bool) (f : A -> A) (l : list A) (x : A) :
  existsb p l = false -> p x = true ->
  update_first p f (l ++ [x]) = (l ++ [f x])%list.
Proof.
  intros Hl Hx. induction l as [|y l IH]; cbn in *.
  - now rewrite Hx.
  - apply orb_false_iff in Hl as [Hy Hl]. rewrite Hy. now rewrite IH.
Qed.

(** X22.  A request that passes the validation and asks for no follow-up
    task is logged: one meeting is appended to the collection under the
    id the store gives it, active, logged by [system] for the
    organization of the header; the response carries that id and the id
    of the activity; when the activity service gave an id it is written
    back to the stored meeting, and when it failed the meeting is logged
    all the same, without one.  No task is created. *)
Theorem logMeeting_stores_the_meeting
  {DL : DateLib} (env : Env) (w : World) (dto : LogMeetingDto)
  (organizationId : option string) (t : Z) :
  Js.truthy organizationId = true ->
  (lg_meetingType dto = VIRTUAL -> lg_virtualMeetingProvider dto <> None) ->
  lg_createFollowUpTask dto <> Some true ->
  Date_parse (lg_meetingDateTime dto) = Some t ->
  lg_title dto <> EmptyString -> lg_summary dto <> EmptyString ->
  lg_leadId dto <> EmptyString ->
  forallb (fun p => Js.truthy (Some (mpd_email p))) (lg_participants dto) = true ->
  existsb (hasMeetingId (objectId env (created w))) (loggedMeetings w) = false ->
  let run := Controller.logMeeting dto organizationId env w in
  exists activityId m,
    fst run = inr {| lr_success := true;
                     lr_meetingId := objectId env (created w);
                     lr_activityId := activityId;
                     lr_taskId := None;
                     lr_message := "Meeting logged successfully" |}
    /\ loggedMeetings (snd run) = (loggedMeetings w ++ [m])%list
    /\ lm_id m = objectId env (created w)
    /\ lm_activityId m = (if Js.truthy activityId then activityId else None)
    /\ lm_isActive m = true
    /\ lm_loggedBy m = "system"
    /\ lm_organizationId m = show organizationId
    /\ lm_leadId m = lg_leadId dto
    /\ lm_meetingDateTime m = t
    /\ taskLog (snd run) = taskLog w
    /\ ((forall log activity, activityPost env log activity = None) ->
        activityId = None).
Proof.
  intros Horg Hvirtual Hcreate Hdate Htitle Hsummary Hlead Hmail Hfresh run.
  subst run. unfold Controller.logMeeting.
  rewrite Horg, Hdate. cbn [negb when].
  erewrite try_bind_run by reflexivity.
  assert (Hv : (match lg_meetingType dto with VIRTUAL => true | _ => false end
                && negb (Google.isSome (lg_virtualMeetingProvider dto))) = false).
  { destruct (lg_meetingType dto) eqn:Ek; try reflexivity.
    destruct (lg_virtualMeetingProvider dto); [reflexivity|].
    now elim (Hvirtual eq_refl). }
  rewrite Hv. cbn [when].
  erewrite try_bind_run by reflexivity.
  assert (Hnotask : (match lg_createFollowUpTask dto with
                     | Some true => true
                     | _ => false
                     end) = false)
    by (destruct (lg_createFollowUpTask dto) as [[|]|]; congruence).
  rewrite Hnotask. cbn [andb when].
  erewrite try_bind_run by reflexivity.
  erewrite try_bind_run by reflexivity.
  erewrite try_bind_run.
  2:{ apply meeting_save_run. unfold MeetingModel.requiredPresent.
      cbn [lm_title lm_summary lm_leadId lm_loggedBy lm_organizationId
           lm_participants].
      apply truthy_nonempty in Htitle, Hsummary, Hlead.
      rewrite Htitle, Hsummary, Hlead, (show_truthy _ Horg). cbn [andb].
      rewrite forallb_map_compose. exact Hmail. }
  erewrite try_bind_run by apply try_logActivity_id.
  rewrite logActivity_world.
  erewrite try_bind_run.
  2:{ destruct (lg_createFollowUpTask dto) as [[|]|]; try reflexivity.
      congruence. }
  cbv beta. cbn [lm_id].
  unfold now, set_created, db_step.
  cbn [fst snd calendarEvents loggedMeetings httpLog dbLog activityLog taskLog
       clockReads randomDraws created].
  match goal with
  | |- context [activityPost env ?l ?p] =>
      set (activityId := match activityPost env l p with
                         | Some id => id
                         | None => None
                         end)
  end.
  exists activityId.
  assert (Hnone : (forall log activity, activityPost env log activity = None) ->
                  activityId = None)
    by (intros Hfail; subst activityId; now rewrite Hfail).
  clearbody activityId.
  destruct (Js.truthy activityId) eqn:Eid; cbn [orb Js.truthy when].
  - erewrite try_bind_run by reflexivity.
    unfold try_catch, ret, db_step.
    cbn [fst snd calendarEvents loggedMeetings httpLog dbLog activityLog
         taskLog clockReads randomDraws created].
    rewrite update_first_fresh by (try exact Hfresh; apply String.eqb_refl).
    eexists. split; [reflexivity|]. split; [reflexivity|].
    cbn [MeetingModel.setIds lm_id lm_activityId lm_isActive lm_loggedBy
         lm_organizationId lm_leadId lm_meetingDateTime].
    repeat split; try reflexivity; try exact Hnone.
    now destruct activityId.
  - erewrite try_bind_run by reflexivity.
    unfold try_catch, ret.
    cbn [fst snd calendarEvents loggedMeetings httpLog dbLog activityLog
         taskLog clockReads randomDraws created].
    eexists. split; [reflexivity|]. split; [reflexivity|].
    repeat split; try reflexivity; exact Hnone.
Qed.

Lemma logMeeting_stores_the_meeting_witness :
  let dto :=
    {| lg_leadId := "lead-1"; lg_title := "Kick-off"; lg_meetingType := PHONE;
       lg_virtualMeetingProvider := None; lg_meetingDateTime := "1000Z";
       lg_participants := []; lg_summary := "Agreed on the scope";
       lg_outcome := SUCCESSFUL; lg_createFollowUpTask := None;
       lg_followUpTask := None; lg_attachment := None;
       lg_duration := None; lg_location := None |} in
  let env :=
    {| transport := fun _ _ => inr NoData;
       activityPost := fun _ _ => Some (Some "activity-1");
       taskService := fun _ _ => inr None;
       clock := fun _ => 0;
       random := fun _ => "r4nd0m";
       objectId := fun _ => "meeting-0" |} in
  let run := @Controller.logMeeting decimalDates dto (Some "org-1") env
               (Sample.world [] []) in
  map lm_id (loggedMeetings (snd run)) = ["meeting-0"]
  /\ map lm_activityId (loggedMeetings (snd run)) = [Some "activity-1"].
Proof.
  intros dto env run.
  destruct (@logMeeting_stores_the_meeting decimalDates env
              (Sample.world [] []) dto (Some "org-1") 1000
              eq_refl (fun H => ltac:(discriminate H)) ltac:(discriminate)
              eq_refl ltac:(discriminate) ltac:(discriminate)
              ltac:(discriminate) eq_refl eq_refl)
    as [activityId [m [Hres [Hstore [Hid [Hact _]]]]]].
  fold run in Hres, Hstore. rewrite Hstore.
  assert (Ha : activityId = Some "activity-1")
    by (apply (f_equal (fun r => match r with
                                 | inr x => lr_activityId x
                                 | inl _ => None
                                 end)) in Hres; cbn in Hres; now symmetry).
  cbn. rewrite Hid, Hact, Ha. now split.
Defined.

(** ** Contacts *)

Section InsertionOrder.

(** A [Map] filled in input order under [if (!m.has(k)) m.set(k, v)]. *)
Variable V : Type.

Let ins (m : list (string * V)) (p : string * V) :=
  Google.setIfAbsent (fst p) (snd p) m.

Let underKey (k : string) (p : string * V) : bool := String.eqb (fst p) k.

Lemma find_append {A} (f : A -> bool) (l1 l2 : list A) :
  find f (l1 ++ l2)
  = match find f l1 with Some x => Some x | None => find f l2 end.
Proof.
  induction l1 as [|x l1 IH]; simpl; [reflexivity|].
  now destruct (f x).
Qed.

Lemma has_In (k : string) (m : list (string * V)) :
  Google.has k m = true <-> exists v, In (k, v) m.
Proof.
  unfold Google.has. rewrite existsb_exists. split.
  - intros [[k' v] [Hin Hk]]. apply String.eqb_eq in Hk. simpl in Hk. subst k'.
    now exists v.
  - intros [v Hin]. exists (k, v). split; [assumption|]. apply String.eqb_refl.
Qed.

Lemma find_keyIs (k : string) (l : list (string * V)) (p : string * V) :
  find (underKey k) l = Some p -> fst p = k /\ In p l.
Proof.
  intros H. apply find_some in H as [Hin Hk].
  apply String.eqb_eq in Hk. now split.
Qed.

(** The map holds each key once, with the value of the first pair of the
    input under that key. *)
Lemma insertion_order (pairs : list (string * V)) :
  let m := fold_left ins pairs [] in
  NoDup (map fst m)
  /\ forall k v, In (k, v) m <-> find (underKey k) pairs = Some (k, v).
Proof.
  induction pairs as [|[k0 v0] pairs IH] using rev_ind; cbv zeta.
  - split; [constructor|]. intros k v. split; [intros []|discriminate].
  - cbv zeta in IH. destruct IH as [Hnd Hm].
    rewrite fold_left_app. cbn [fold_left].
    set (m := fold_left ins pairs []) in *.
    unfold ins. cbn [fst snd]. unfold Google.setIfAbsent.
    destruct (Google.has k0 m) eqn:Hhas.
    + split; [assumption|]. intros k v. rewrite Hm, find_append.
      destruct (find (underKey k) pairs) as [x|] eqn:Hx; [reflexivity|].
      cbn [find]. unfold underKey at 1. cbn [fst].
      destruct (String.eqb k0 k) eqn:E; [|split; discriminate].
      apply String.eqb_eq in E. subst k0.
      apply has_In in Hhas as [v' Hv']. apply Hm in Hv'. congruence.
    + split.
      * rewrite map_app. cbn [map fst].
        apply NoDup_app. repeat split; try assumption.
        -- repeat constructor. intros [].
        -- intros k Hk [Hk0|[]]. subst k.
           apply in_map_iff in Hk as [[k v] [Hk Hin]]. cbn in Hk. subst k.
           assert (Google.has k0 m = true) by (apply has_In; now exists v).
           congruence.
      * intros k v. rewrite in_app_iff, Hm, find_append.
        destruct (find (underKey k) pairs) as [x|] eqn:Hx.
        -- split; [intros [H|H]|now left]; [assumption|].
           destruct H as [H|[]]. injection H as -> ->.
           destruct (find_keyIs _ _ Hx) as [Hk _].
           assert (Google.has k m = true).
           { apply has_In. exists (snd x). apply Hm.
             rewrite Hx. f_equal. destruct x; cbn in *; now subst. }
           congruence.
        -- cbn [find]. unfold underKey at 1. cbn [fst].
           destruct (String.eqb k0 k) eqn:E.
           ++ apply String.eqb_eq in E. subst k0.
              split; [intros [H|[H|[]]]; [discriminate|now rewrite H]|].
              intros H. right. left. congruence.
           ++ split; [intros [H|[H|[]]]; [discriminate|]|discriminate].
              injection H as -> ->. now rewrite String.eqb_refl in E.
Qed.

Lemma insertion_order_keys (pairs : list (string * V)) (k : string) :
  In k (map fst (fold_left ins pairs [])) <-> In k (map fst pairs).
Proof.
  destruct (insertion_order pairs) as [_ Hm]. cbv zeta in Hm.
  rewrite !in_map_iff. split.
  - intros [[k' v] [Hk Hin]]. cbn in Hk. subst k'.
    apply Hm in Hin. apply find_keyIs in Hin as [_ Hin].
    exists (k, v). now split.
  - intros [[k' v] [Hk Hin]]. cbn in Hk. subst k'.
    destruct (find (underKey k) pairs) as [[k' v']|] eqn:Hf.
    + destruct (find_keyIs _ _ Hf) as [Hk _]. cbn in Hk. subst k'.
      exists (k, v'). split; [reflexivity|]. now apply Hm.
    + apply find_none with (x := (k, v)) in Hf; [|assumption].
      unfold underKey in Hf. cbn in Hf. now rewrite String.eqb_refl in Hf.
Qed.

End InsertionOrder.

Lemma find_map_compose {A B} (f : B -> bool) (g : A -> B) (l : list A) :
  find f (map g l) = option_map g (find (fun x => f (g x)) l).
Proof.
  induction l as [|x l IH]; simpl; [reflexivity|]. now destruct (f (g x)).
Qed.

Lemma find_filter {A} (f p : A -> bool) (l : list A) :
  find f (filter p l) = find (fun x => p x && f x) l.
Proof.
  induction l as [|x l IH]; simpl; [reflexivity|].
  destruct (p x); simpl; [now destruct (f x)|assumption].
Qed.

Lemma find_pointwise {A} (f g : A -> bool) (l : list A) :
  (forall x, f x = g x) -> find f l = find g l.
Proof.
  intros H. induction l as [|x l IH]; simpl; [reflexivity|].
  now rewrite H, IH.
Qed.

Lemma toLowerCase_nonempty (s : string) :
  s <> EmptyString -> Js.toLowerCase s <> EmptyString.
Proof. destruct s; [congruence|discriminate]. Qed.

(** The loop of [processContacts] keeps the entries with an email, in
    order. *)
Lemma processContacts_loop (contacts : list GoogleContacts.Contact) :
  forall processed,
    fold_left
      (fun processed contact =>
         if Js.truthy (Some (Google.cw_email (GoogleContacts.details contact)))
         then (processed ++ [GoogleContacts.details contact])%list
         else processed)
      contacts processed
    = (processed
       ++ map GoogleContacts.details
            (filter (fun c => Js.truthy
                                (Some (Google.cw_email (GoogleContacts.details c))))
               contacts))%list.
Proof.
  induction contacts as [|c contacts IH]; intros processed; cbn [fold_left filter].
  - now rewrite app_nil_r.
  - rewrite IH.
    destruct (Js.truthy (Some (Google.cw_email (GoogleContacts.details c))));
      [|reflexivity].
    cbn [map]. now rewrite <- app_assoc.
Qed.

(** The map of the Google routine is the map of its pairs. *)
Lemma google_pairs (l : list Google.ContactWithDetails) :
  forall m,
    fold_left
      (fun m contact =>
         Google.setIfAbsent (Js.toLowerCase (Google.cw_email contact)) contact m)
      l m
    = fold_left (fun m p => Google.setIfAbsent (fst p) (snd p) m)
        (map (fun c => (GoogleContacts.emailKey c, c)) l) m.
Proof.
  induction l as [|c l IH]; intros m; cbn [fold_left map]; [reflexivity|].
  now rewrite IH.
Qed.

(** X23.  [processContacts] lists every email once, letter case apart:
    the keys of the output are pairwise distinct, and each entry has an
    email and is built from the first contact of the input whose first
    email has that key.  When the emails are ASCII text no email is
    lost: every contact with a first email finds its key in the output.
    (The keys are the emails with the letters A to Z in lower case.) *)
Theorem processContacts_one_entry_per_email
  (contacts : list GoogleContacts.Contact) :
  let out := GoogleContacts.processContacts contacts in
  NoDup (map GoogleContacts.emailKey out)
  /\ (forall d, In d out ->
        Google.cw_email d <> EmptyString
        /\ exists c,
             find (fun c => String.eqb
                              (GoogleContacts.emailKey (GoogleContacts.details c))
                              (GoogleContacts.emailKey d)) contacts = Some c
             /\ d = GoogleContacts.details c)
  /\ (Forall (fun c => asciiText (Google.cw_email (GoogleContacts.details c)) = true)
        contacts ->
      forall c, In c contacts ->
        Google.cw_email (GoogleContacts.details c) <> EmptyString ->
        exists d, In d out
                  /\ GoogleContacts.emailKey d
                     = GoogleContacts.emailKey (GoogleContacts.details c)).
Proof.
  cbv zeta. unfold GoogleContacts.processContacts. cbv zeta.
  rewrite processContacts_loop. cbn [app].
  set (hasEmail := fun c => Js.truthy
                              (Some (Google.cw_email (GoogleContacts.details c)))).
  set (l := map GoogleContacts.details (filter hasEmail contacts)).
  unfold Google.removeDuplicateContacts. rewrite google_pairs.
  set (pairs := map (fun c => (GoogleContacts.emailKey c, c)) l).
  destruct (insertion_order pairs) as [Hnd Hm]. cbv zeta in Hm.
  pose proof (insertion_order_keys pairs) as Hkeys.
  set (m := fold_left _ pairs []) in *.
  assert (Hentry : forall k d, In (k, d) m ->
                     k = GoogleContacts.emailKey d /\ In d l).
  { intros k d Hin. apply Hm in Hin. apply find_some in Hin as [Hin _].
    apply in_map_iff in Hin as [d' [Hd' Hin]]. injection Hd' as <- <-.
    now split. }
  assert (Hl : forall d, In d l ->
                 exists c, In c contacts /\ hasEmail c = true
                           /\ d = GoogleContacts.details c).
  { intros d Hd. apply in_map_iff in Hd as [c [Hc Hin]].
    apply filter_In in Hin as [Hin He]. now exists c. }
  assert (Hmail : forall c, hasEmail c = true <->
                    Google.cw_email (GoogleContacts.details c) <> EmptyString).
  { intros c. unfold hasEmail.
    destruct (Google.cw_email (GoogleContacts.details c)); cbn;
      split; congruence. }
  split; [|split].
  - replace (map GoogleContacts.emailKey (map snd m)) with (map fst m);
      [assumption|].
    rewrite map_map. apply map_ext_in. intros [k d] Hin.
    now destruct (Hentry k d Hin).
  - intros d Hd. apply in_map_iff in Hd as [[k d'] [Hk Hin]]. cbn in Hk. subst d'.
    destruct (Hentry k d Hin) as [-> Hdl].
    destruct (Hl d Hdl) as [c0 [_ [He0 Hd0]]].
    assert (Hd : Google.cw_email d <> EmptyString)
      by (rewrite Hd0; now apply Hmail).
    split; [assumption|].
    apply Hm in Hin. unfold pairs, l in Hin.
    rewrite find_map_compose, find_map_compose, find_filter in Hin.
    cbn [fst] in Hin.
    erewrite find_pointwise in Hin.
    2:{ intros c. instantiate (1 := fun c => String.eqb
           (GoogleContacts.emailKey (GoogleContacts.details c))
           (GoogleContacts.emailKey d)). cbv beta.
        destruct (String.eqb _ _) eqn:E; [|apply andb_false_r].
        rewrite andb_true_r. apply Hmail.
        apply String.eqb_eq in E. intros Hempty.
        apply (toLowerCase_nonempty Hd).
        unfold GoogleContacts.emailKey in E. rewrite <- E, Hempty. reflexivity. }
    destruct (find _ contacts) as [c|]; [|discriminate].
    exists c. split; [reflexivity|]. cbn in Hin. congruence.
  - intros _ c Hin Hc.
    assert (Hk : In (GoogleContacts.emailKey (GoogleContacts.details c))
                   (map fst m)).
    { apply Hkeys. unfold pairs. rewrite map_map. cbn [fst].
      apply in_map_iff. exists (GoogleContacts.details c). split; [reflexivity|].
      unfold l. apply in_map. apply filter_In. split; [assumption|].
      now apply Hmail. }
    apply in_map_iff in Hk as [[k d] [Hk Hd]]. cbn in Hk. subst k.
    exists d. split; [apply in_map_iff; now exists (GoogleContacts.emailKey (GoogleContacts.details c), d)|].
    now destruct (Hentry _ _ Hd) as [<- _].
Qed.

Lemma processContacts_one_entry_per_email_witness :
  let ann := Scenario.googleContact "people/1" ["Ann@Example.com"; "ann@work.example"] in
  let ann_again := Scenario.googleContact "people/2" ["ann@example.com"] in
  let nobody := Scenario.googleContact "people/3" [] in
  map Google.cw_id (GoogleContacts.processContacts [ann; nobody; ann_again])
  = ["people/1"]
  /\ exists d,
       In d (GoogleContacts.processContacts [ann; nobody; ann_again])
       /\ GoogleContacts.emailKey d = "ann@example.com".
Proof.
  intros ann ann_again nobody. split; [reflexivity|].
  apply (proj2 (proj2 (processContacts_one_entry_per_email
                         [ann; nobody; ann_again]))
           ltac:(repeat constructor) ann_again).
  - right. right. now left.
  - discriminate.
Defined.

(** The map of the Microsoft routine is the map of its pairs: one pair
    per address of each contact, in order. *)
Lemma microsoft_pairs (contacts : list Microsoft.FormattedContact) :
  forall m,
    fold_left
      (fun m contact =>
         match Microsoft.fc_emailAddresses contact with
         | Some emails =>
             fold_left
               (fun m' email =>
                  Google.setIfAbsent (Js.toLowerCase (Microsoft.em_address email))
                    contact m')
               emails m
         | None => m
         end)
      contacts m
    = fold_left (fun m p => Google.setIfAbsent (fst p) (snd p) m)
        (flat_map (fun c => map (fun a => (a, c)) (MicrosoftContacts.addresses c))
           contacts) m.
Proof.
  induction contacts as [|c contacts IH]; intros m; cbn [fold_left flat_map];
    [reflexivity|].
  rewrite fold_left_app, IH. f_equal.
  unfold MicrosoftContacts.addresses.
  destruct (Microsoft.fc_emailAddresses c) as [emails|]; [|reflexivity].
  revert m. induction emails as [|e emails IHe]; intros m; cbn [fold_left map];
    [reflexivity|].
  now rewrite IHe.
Qed.

(** The first pair under a key is the pair of the first contact that
    carries the key. *)
Lemma find_first_carrier (contacts : list Microsoft.FormattedContact) (k : string) :
  find (fun p => String.eqb (fst p) k)
    (flat_map (fun c => map (fun a => (a, c)) (MicrosoftContacts.addresses c))
       contacts)
  = option_map (fun c => (k, c)) (find (MicrosoftContacts.carries k) contacts).
Proof.
  induction contacts as [|c contacts IH]; cbn [flat_map find]; [reflexivity|].
  rewrite find_append, IH.
  assert (Hown : forall l,
            find (fun p : string * Microsoft.FormattedContact => String.eqb (fst p) k)
              (map (fun a => (a, c)) l)
            = if existsb (fun address => String.eqb address k) l
              then Some (k, c) else None).
  { induction l as [|a l IHl]; cbn [map find existsb fst]; [reflexivity|].
    destruct (String.eqb a k) eqn:E; cbn [orb]; [|exact IHl].
    apply String.eqb_eq in E. now subst a. }
  rewrite Hown. fold (MicrosoftContacts.carries k c).
  now destruct (MicrosoftContacts.carries k c).
Qed.

Lemma Forall2_fst_snd {A B} (R : A -> B -> Prop) (m : list (A * B)) :
  (forall a b, In (a, b) m -> R a b) -> Forall2 R (map fst m) (map snd m).
Proof.
  induction m as [|[a b] m IH]; intros H; cbn [map]; constructor.
  - apply H. now left.
  - apply IH. intros a' b' Hin. apply H. now right.
Qed.

(** The entries of the Microsoft routine: the first carriers of the
    addresses. *)
Lemma microsoft_entries (contacts : list Microsoft.FormattedContact)
  (d : Microsoft.FormattedContact) :
  In d (Microsoft.removeDuplicateContacts contacts)
  <-> exists k, find (MicrosoftContacts.carries k) contacts = Some d.
Proof.
  unfold Microsoft.removeDuplicateContacts. rewrite microsoft_pairs.
  set (pairs := flat_map _ contacts).
  destruct (insertion_order pairs) as [_ Hm]. cbv zeta in Hm.
  rewrite in_map_iff. split.
  - intros [[k d'] [Hd Hin]]. cbn in Hd. subst d'. exists k.
    apply Hm in Hin. unfold pairs in Hin. rewrite find_first_carrier in Hin.
    destruct (find _ contacts); [|discriminate]. cbn in Hin. congruence.
  - intros [k Hk]. exists (k, d). split; [reflexivity|].
    apply Hm. unfold pairs. rewrite find_first_carrier, Hk. reflexivity.
Qed.

(** X24.  On contacts whose addresses are ASCII text, the Microsoft
    routine lists one entry per address, not one per contact: there is a
    duplicate-free list of the lower-cased addresses of the input that
    the output follows entry by entry, each entry being the first
    contact of the input that carries the address.  So a contact is
    listed once for each address no contact before it carries, and a
    contact without an address is not listed. *)
Theorem microsoft_removeDuplicateContacts_one_entry_per_address
  (contacts : list Microsoft.FormattedContact) :
  Forall (fun c => MicrosoftContacts.asciiAddresses c = true) contacts ->
  exists keys,
    NoDup keys
    /\ (forall k, In k keys <->
                  exists c, In c contacts /\ In k (MicrosoftContacts.addresses c))
    /\ Forall2
         (fun k d => find (MicrosoftContacts.carries k) contacts = Some d)
         keys (Microsoft.removeDuplicateContacts contacts).
Proof.
  intros _.
  unfold Microsoft.removeDuplicateContacts. rewrite microsoft_pairs.
  set (pairs := flat_map _ contacts).
  destruct (insertion_order pairs) as [Hnd Hm]. cbv zeta in Hm.
  pose proof (insertion_order_keys pairs) as Hkeys.
  set (m := fold_left _ pairs []) in *.
  exists (map fst m). split; [assumption|]. split.
  - intros k. rewrite Hkeys. unfold pairs. rewrite in_map_iff. split.
    + intros [[k' c] [Hk Hin]]. cbn in Hk. subst k'.
      apply in_flat_map in Hin as [c' [Hc' Hin]].
      apply in_map_iff in Hin as [a [Ha Hin]]. injection Ha as -> ->.
      now exists c.
    + intros [c [Hc Hk]]. exists (k, c). split; [reflexivity|].
      apply in_flat_map. exists c. split; [assumption|].
      apply in_map_iff. now exists k.
  - apply Forall2_fst_snd. intros k d Hin. apply Hm in Hin.
    unfold pairs in Hin. rewrite find_first_carrier in Hin.
    destruct (find _ contacts); [|discriminate]. cbn in Hin. congruence.
Qed.

Lemma microsoft_removeDuplicateContacts_one_entry_per_address_witness :
  Microsoft.removeDuplicateContacts [Sample.bob; Sample.bob_again]
  = [Sample.bob; Sample.bob]
  /\ exists keys,
       NoDup keys
       /\ Forall2
            (fun k d =>
               find (MicrosoftContacts.carries k) [Sample.bob; Sample.bob_again]
               = Some d)
            keys [Sample.bob; Sample.bob].
Proof.
  split; [reflexivity|].
  destruct (microsoft_removeDuplicateContacts_one_entry_per_address
              (contacts := [Sample.bob; Sample.bob_again])
              ltac:(repeat constructor))
    as [keys [Hnd [_ Hall]]].
  exists keys. split; [exact Hnd|exact Hall].
Defined.

(** X25.  In the list [getContacts] of the Microsoft adapter returns,
    contacts go before people: every entry is a contact of [me/contacts]
    or a person of [me/people], formatted, with at least one address;
    and a person each of whose addresses is an address of a contact, the
    case of the letters A to Z apart, is not listed. *)
Theorem microsoft_contacts_go_before_people
  (contacts people : list MicrosoftContacts.MicrosoftGraphContact) :
  let out := MicrosoftContacts.uniqueContacts (Some contacts) (Some people) in
  (forall d, In d out ->
     MicrosoftContacts.addresses d <> []
     /\ ((exists c, In c contacts /\ d = MicrosoftContacts.format "contacts" c)
         \/ (exists p, In p people /\ d = MicrosoftContacts.format "people" p)))
  /\ (forall p, In p people ->
        (forall k, In k (MicrosoftContacts.addresses
                           (MicrosoftContacts.format "people" p)) ->
                   exists c, In c contacts
                             /\ In k (MicrosoftContacts.addresses
                                        (MicrosoftContacts.format "contacts" c))) ->
        ~ In (MicrosoftContacts.format "people" p) out).
Proof.
  cbv zeta. unfold MicrosoftContacts.uniqueContacts. cbv zeta.
  set (all := (map (MicrosoftContacts.format "contacts") contacts
               ++ map (MicrosoftContacts.format "people") people)%list).
  split.
  - intros d Hd. apply microsoft_entries in Hd as [k Hk].
    apply find_some in Hk as [Hin Hk]. split.
    + unfold MicrosoftContacts.carries in Hk.
      destruct (MicrosoftContacts.addresses d); [discriminate|discriminate].
    + unfold all in Hin. apply in_app_iff in Hin as [Hin|Hin];
        apply in_map_iff in Hin as [x [Hx Hin]]; [left|right]; now exists x.
  - intros p Hp Hcovered Hd. apply microsoft_entries in Hd as [k Hk].
    pose proof (find_some _ _ Hk) as [_ Hcarries].
    unfold MicrosoftContacts.carries in Hcarries.
    apply existsb_exists in Hcarries as [a [Ha Hak]].
    apply String.eqb_eq in Hak. subst a.
    destruct (Hcovered k Ha) as [c [Hc Hkc]].
    unfold all in Hk. rewrite find_append in Hk.
    destruct (find (MicrosoftContacts.carries k)
                (map (MicrosoftContacts.format "contacts") contacts))
      as [d|] eqn:Hfirst.
    + apply find_some in Hfirst as [Hin _].
      apply in_map_iff in Hin as [c' [Hc' _]].
      injection Hk as Hk. subst d.
      apply (f_equal Microsoft.fc_source) in Hk. cbn in Hk. discriminate.
    + apply find_none with (x := MicrosoftContacts.format "contacts" c) in Hfirst;
        [|now apply in_map].
      unfold MicrosoftContacts.carries in Hfirst.
      assert (existsb (fun address => String.eqb address k)
                (MicrosoftContacts.addresses (MicrosoftContacts.format "contacts" c))
              = true)
        by (apply existsb_exists; exists k; split;
            [assumption|apply String.eqb_refl]).
      congruence.
Qed.

Lemma microsoft_contacts_go_before_people_witness :
  let entry id address :=
    {| MicrosoftContacts.gc_id := id;
       MicrosoftContacts.gc_displayName := Some "Ann";
       MicrosoftContacts.gc_emailAddresses :=
         Some [{| Microsoft.em_address := address;
                  Microsoft.em_name := None;
                  Microsoft.em_type := None |}];
       MicrosoftContacts.gc_businessPhones := None;
       MicrosoftContacts.gc_mobilePhone := None;
       MicrosoftContacts.gc_jobTitle := None;
       MicrosoftContacts.gc_companyName := None;
       MicrosoftContacts.gc_department := None;
       MicrosoftContacts.gc_officeLocation := None |} in
  let contact := entry "c-1" "Ann@Example.com" in
  let person := entry "p-1" "ann@example.com" in
  ~ In (MicrosoftContacts.format "people" person)
      (MicrosoftContacts.uniqueContacts (Some [contact]) (Some [person])).
Proof.
  intros entry contact person.
  apply (proj2 (microsoft_contacts_go_before_people [contact] [person]) person).
  - now left.
  - intros k Hk. exists contact. split; [now left|].
    destruct Hk as [<-|[]]. now left.
Defined.

(** ** Microsoft: times of the local mirror *)

Lemma includes_app_self (pat s : string) : Js.includes pat (s ++ pat) = true.
Proof.
  induction s as [|c s IH]; cbn [append].
  - pose proof (prefix_app pat EmptyString) as H.
    destruct pat as [|p pat]; [reflexivity|].
    cbn [Js.includes]. cbn [append] in H.
    replace (pat ++ EmptyString) with pat in H; [now rewrite H|].
    clear. induction pat as [|c pat IH]; cbn; [reflexivity|now rewrite <- IH].
  - cbn [Js.includes]. rewrite IH. now destruct (prefix pat (String c (s ++ pat))).
Qed.

(** X26.  The text the Microsoft adapter reads a time of the local
    mirror from always names its zone: it contains a [Z] or ends with
    an offset.  It is the time of the request, with at most a [Z]
    appended, and normalising it again changes nothing. *)
Theorem asUtc_names_the_zone (s : string) :
  (Js.includes "Z" (Microsoft.asUtc s) || Microsoft.endsWithOffset (Microsoft.asUtc s)
   = true)
  /\ (Microsoft.asUtc s = s \/ Microsoft.asUtc s = s ++ "Z")
  /\ Microsoft.asUtc (Microsoft.asUtc s) = Microsoft.asUtc s.
Proof.
  assert (Hzone : Js.includes "Z" (Microsoft.asUtc s)
                  || Microsoft.endsWithOffset (Microsoft.asUtc s) = true).
  { unfold Microsoft.asUtc.
    destruct (Js.includes "Z" s || Microsoft.endsWithOffset s) eqn:E;
      [assumption|].
    now rewrite includes_app_self. }
  split; [assumption|]. split.
  - unfold Microsoft.asUtc.
    destruct (Js.includes "Z" s || Microsoft.endsWithOffset s); [now left|now right].
  - unfold Microsoft.asUtc at 1. now rewrite Hzone.
Qed.
